(** * wangle/ssl/SSLContextManager.cpp: the SNI context index

    A shallow embedding of [SSLContextManager::SslContexts] (the index of
    server SSL contexts of one VIP) and of the [SSLContextManager] facade,
    followed by the properties of the index that the specification states.

    Conventions of the embedding:
    - a [std::shared_ptr] to a context is the context's record, whose
      [ctx_addr] field stands for the address of the heap object, so that
      two pointers are equal exactly when the records are;
    - [std::unordered_map] is a [gmap], [std::vector] a [list];
    - a C++ exception is the [Thrown] outcome, a failed [CHECK] (which aborts
      the process) the [Aborted] outcome; both carry the state reached when
      they happen, since the members are mutated in place. *)

From Stdlib Require Import ZArith NArith Ascii String List Bool Lia OrdersEx.
From stdpp Require Import base decidable countable gmap strings list fin_maps sorting.

Local Open Scope string_scope.

(** ** Names and keys *)

Module DN.

(** [::tolower] in the "C" locale. *)
Definition tolower (c : ascii) : ascii :=
  let n := N_of_ascii c in
  if ((65 <=? n) && (n <=? 90))%N then ascii_of_N (n + 32) else c.

Fixpoint lowercase (s : string) : string :=
  match s with
  | EmptyString => EmptyString
  | String c r => String (tolower c) (lowercase r)
  end.

(** [s.find_first_of(".")]: the position of the first dot. *)
Fixpoint find_first_of_dot (s : string) : option nat :=
  match s with
  | EmptyString => None
  | String c r =>
      if Ascii.eqb c "." then Some 0
      else option_map S (find_first_of_dot r)
  end.

(** [basic_string(str, pos)]: the characters of [str] from [pos] on. *)
Fixpoint substr_from (pos : nat) (s : string) : string :=
  match pos, s with
  | 0, _ => s
  | S p, String _ r => substr_from p r
  | S _, EmptyString => EmptyString
  end.

(** [strchr(p, '*')] on the NUL-terminated buffer of [s]: the scan stops
    at the first NUL character. *)
Fixpoint strchr_star (s : string) : bool :=
  match s with
  | EmptyString => false
  | String c r =>
      if Ascii.eqb c "*" then true
      else if Ascii.eqb c zero then false
      else strchr_star r
  end.

End DN.

(** Modelled from the spec: [DNString] is declared in a header that is not
    part of the sources at hand.  The specification describes it as a
    "normalized, case-folded" name that is "stored lowercase" and compared
    as such; a [DNString] is therefore represented by its lower-case form,
    and building one from characters folds the case. *)
Definition DNString := string.

Definition mkDNString (s : string) : DNString := DN.lowercase s.

(** Modelled from the spec: the enumeration [CertCrypto] and the structure
    [SSLContextKey] are declared in the same missing header; the
    specification gives the two tiers, and a key as the pair of a name and a
    tier, equal to another when both components are. *)
Inductive CertCrypto := BEST_AVAILABLE | SHA1_SIGNATURE.

#[global] Instance CertCrypto_eq_dec : EqDecision CertCrypto.
Proof. solve_decision. Defined.

#[global] Instance CertCrypto_countable : Countable CertCrypto.
Proof.
  refine (inj_countable' (λ c, match c with BEST_AVAILABLE => false | SHA1_SIGNATURE => true end)
                         (λ b : bool, if b then SHA1_SIGNATURE else BEST_AVAILABLE) _).
  by intros [].
Defined.

Record SSLContextKey := mkKey {
  dnString : DNString;
  certCrypto : CertCrypto
}.

#[global] Instance SSLContextKey_eq_dec : EqDecision SSLContextKey.
Proof. solve_decision. Defined.

#[global] Instance SSLContextKey_countable : Countable SSLContextKey.
Proof.
  refine (inj_countable' (λ k, (dnString k, certCrypto k))
                         (λ p, mkKey p.1 p.2) _).
  by intros [].
Defined.

(** ** Certificates and contexts *)

(** What the index reads from the context's X509: the results of
    [SSLUtil::getCommonName], [SSLUtil::getSubjectAltName] and
    [X509_get_signature_nid]. *)
Record X509 := mkX509 {
  x509_commonName : option string;
  x509_subjectAltName : option (list string);
  x509_signature_nid : Z
}.

Definition NID_sha1WithRSAEncryption : Z := 65.
Definition NID_ecdsa_with_SHA1 : Z := 416.

Record TLSTicketKeySeeds := mkSeeds {
  oldSeeds : list string;
  currentSeeds : list string;
  newSeeds : list string
}.

(** A default-constructed [TLSTicketKeySeeds]. *)
Definition noSeeds : TLSTicketKeySeeds := mkSeeds [] [] [].

(** Modelled from the spec: [ServerSSLContext] and its ticket manager are
    declared outside the sources at hand; the specification describes a
    context as a handle on a TLS context with its certificate and an optional
    ticket manager that holds an (old, current, new) triple of seeds.
    [ctx_addr] identifies the object on the heap, [ctx_ticketManager] is the
    result of [getTicketManager()], a manager being represented by the seeds
    that its [getTLSTicketKeySeeds] hands out. *)
Record ServerSSLContext := mkCtx {
  ctx_addr : N;
  ctx_x509 : option X509;
  ctx_ticketManager : option TLSTicketKeySeeds
}.

#[global] Instance X509_eq_dec : EqDecision X509.
Proof. solve_decision. Defined.
#[global] Instance TLSTicketKeySeeds_eq_dec : EqDecision TLSTicketKeySeeds.
Proof. solve_decision. Defined.
#[global] Instance ServerSSLContext_eq_dec : EqDecision ServerSSLContext.
Proof. solve_decision. Defined.

(** ** Outcomes of a call *)

Inductive exn :=
| runtime_error (what : string)
| invalid_argument (what : string).

Inductive outcome (A : Type) :=
| Returned (a : A)
| Thrown (e : exn)
| Aborted.
Arguments Returned {A} a.
Arguments Thrown {A} e.
Arguments Aborted {A}.

(** ** The index *)

Record SslContexts := mkSslContexts {
  ctxs_ : list ServerSSLContext;
  defaultCtxKeys_ : list SSLContextKey;
  defaultCtxDomainName_ : string;
  strict_ : bool;
  dnMap_ : gmap SSLContextKey ServerSSLContext
}.

Module SslContexts.

Definition create (strict : bool) : SslContexts :=
  {| ctxs_ := []; defaultCtxKeys_ := []; defaultCtxDomainName_ := "";
     strict_ := strict; dnMap_ := ∅ |}.

Definition clear (s : SslContexts) : SslContexts :=
  {| ctxs_ := []; defaultCtxKeys_ := [];
     defaultCtxDomainName_ := defaultCtxDomainName_ s;
     strict_ := strict_ s; dnMap_ := ∅ |}.

(** [swap] exchanges the three containers of the two indexes; the default
    domain name and the strict flag of each stay where they are. *)
Definition swap (s other : SslContexts) : SslContexts * SslContexts :=
  ({| ctxs_ := ctxs_ other; defaultCtxKeys_ := defaultCtxKeys_ other;
      defaultCtxDomainName_ := defaultCtxDomainName_ s;
      strict_ := strict_ s; dnMap_ := dnMap_ other |},
   {| ctxs_ := ctxs_ s; defaultCtxKeys_ := defaultCtxKeys_ s;
      defaultCtxDomainName_ := defaultCtxDomainName_ other;
      strict_ := strict_ other; dnMap_ := dnMap_ s |}).

Definition set_ctxs (l : list ServerSSLContext) (s : SslContexts) :=
  {| ctxs_ := l; defaultCtxKeys_ := defaultCtxKeys_ s;
     defaultCtxDomainName_ := defaultCtxDomainName_ s;
     strict_ := strict_ s; dnMap_ := dnMap_ s |}.

Definition set_defaultCtxKeys (l : list SSLContextKey) (s : SslContexts) :=
  {| ctxs_ := ctxs_ s; defaultCtxKeys_ := l;
     defaultCtxDomainName_ := defaultCtxDomainName_ s;
     strict_ := strict_ s; dnMap_ := dnMap_ s |}.

Definition set_defaultCtxDomainName (d : string) (s : SslContexts) :=
  {| ctxs_ := ctxs_ s; defaultCtxKeys_ := defaultCtxKeys_ s;
     defaultCtxDomainName_ := d;
     strict_ := strict_ s; dnMap_ := dnMap_ s |}.

Definition set_dnMap (m : gmap SSLContextKey ServerSSLContext) (s : SslContexts) :=
  {| ctxs_ := ctxs_ s; defaultCtxKeys_ := defaultCtxKeys_ s;
     defaultCtxDomainName_ := defaultCtxDomainName_ s;
     strict_ := strict_ s; dnMap_ := m |}.

(** [v.erase(std::find(v.begin(), v.end(), x))] when the element is found:
    the first occurrence goes. *)
Fixpoint erase_first {A} `{EqDecision A} (x : A) (l : list A) : list A :=
  match l with
  | [] => []
  | y :: r => if decide (y = x) then r else y :: erase_first x r
  end.

(** [std::find(v.begin(), v.end(), x) != v.end()] *)
Definition found {A} `{EqDecision A} (x : A) (l : list A) : bool :=
  bool_decide (x ∈ l).

Definition insertIntoDnMap
    (key : SSLContextKey) (sslCtx : ServerSSLContext) (overwrite : bool)
    (s : SslContexts) : SslContexts :=
  let v1 := dnMap_ s !! key in
  let v2 := found key (defaultCtxKeys_ s) in
  match v1, v2 with
  | None, false =>
      (* "Inserting SSLContext into map." *)
      set_dnMap (<[key := sslCtx]> (dnMap_ s)) s
  | Some c, _ =>
      if decide (c = sslCtx) then
        (* "Duplicate CN or subject alternative name found in the same
            X509.  Ignore the later name." *)
        s
      else if overwrite then
        (* "Overwriting SSLContext." *)
        set_dnMap (<[key := sslCtx]> (dnMap_ s)) s
      else
        (* "Leaving existing SSLContext in map." *)
        s
  | None, true =>
      if overwrite then
        (* "Overwriting SSLContext, removing from defaults." *)
        let s' := set_defaultCtxKeys (erase_first key (defaultCtxKeys_ s)) s in
        set_dnMap (<[key := sslCtx]> (dnMap_ s')) s'
      else
        (* "Leaving existing SSLContextKey in vector." *)
        s
  end.

Definition insertIntoDefaultKeys
    (key : SSLContextKey) (overwrite : bool) (s : SslContexts) : SslContexts :=
  let v1 := dnMap_ s !! key in
  let v2 := found key (defaultCtxKeys_ s) in
  match v1, v2 with
  | None, false =>
      (* "Inserting SSLContextKey into vector." *)
      set_defaultCtxKeys (defaultCtxKeys_ s ++ [key]) s
  | Some _, _ =>
      if overwrite then
        (* "SSLContextKey reassigned to default" *)
        let s' := set_dnMap (delete key (dnMap_ s)) s in
        set_defaultCtxKeys (defaultCtxKeys_ s' ++ [key]) s'
      else
        (* "Leaving existing SSLContext in map." *)
        s
  | None, true =>
      (* "Duplicate CN or subject alternative name found in the same
          X509.  Ignore the later name." *)
      s
  end.

Definition addServerContext (sslCtx : ServerSSLContext) (s : SslContexts) :=
  set_ctxs (ctxs_ s ++ [sslCtx]) s.

(** *** Calls that may throw: state and outcome *)

Definition M (A : Type) : Type := SslContexts → outcome A * SslContexts.

Definition ret {A} (a : A) : M A := λ s, (Returned a, s).

Definition bind {A B} (m : M A) (f : A → M B) : M B :=
  λ s, match m s with
       | (Returned a, s') => f a s'
       | (Thrown e, s') => (Thrown e, s')
       | (Aborted, s') => (Aborted, s')
       end.

Definition throw {A} (e : exn) : M A := λ s, (Thrown e, s).

Definition modify (f : SslContexts → SslContexts) : M unit :=
  λ s, (Returned tt, f s).

#[global] Instance M_ret : MRet M := @ret.
#[global] Instance M_bind : MBind M := λ A B f m, bind m f.

(** A range-based [for] whose body may throw. *)
Fixpoint for_each {A} (body : A → M unit) (l : list A) : M unit :=
  match l with
  | [] => ret tt
  | x :: r => body x ;; for_each body r
  end.

Definition dquote : string := String (ascii_of_N 34) EmptyString.

Definition char_is (s : string) (i : nat) (c : ascii) : bool :=
  match String.get i s with
  | Some d => Ascii.eqb d c
  | None => false
  end.

Definition insertSSLCtxByDomainNameImpl
    (dn : string) (sslCtx : ServerSSLContext) (certCrypto : CertCrypto)
    (defaultFallback : bool) : M unit :=
  let len := String.length dn in
  (* Only support wildcard domains which are prefixed exactly by "*." . *)
  dn_ptr ←
    (if (2 <? len)%nat && char_is dn 0 "*" then
       if char_is dn 1 "." then
         (* skip the first '*' *)
         ret (DN.substr_from 1 dn)
       else
         throw (runtime_error
                  ("Invalid wildcard CN/subject-alternative-name " ++ dquote
                   ++ dn ++ dquote ++ " (only allow character " ++ dquote
                   ++ "." ++ dquote ++ " after " ++ dquote ++ "*" ++ dquote))
     else ret dn);
  let len := String.length dn_ptr in
  if (len =? 1)%nat && char_is dn_ptr 0 "." then
    throw (runtime_error
             ("X509 has only '.' in the CN or subject alternative name "
              ++ "(after removing any preceding '*')"))
  else if DN.strchr_star dn_ptr then
    throw (runtime_error
             ("X509 has '*' in the the CN or subject alternative name "
              ++ "(after removing any preceding '*')"))
  else
    let dnstr := mkDNString dn_ptr in
    let mainKey := mkKey dnstr certCrypto in
    modify (if defaultFallback then insertIntoDefaultKeys mainKey true
            else insertIntoDnMap mainKey sslCtx true) ;;
    if decide (certCrypto ≠ BEST_AVAILABLE) then
      (* "Attempting insert of weak crypto SSLContext as best available." *)
      let weakKey := mkKey dnstr BEST_AVAILABLE in
      modify (if defaultFallback then insertIntoDefaultKeys weakKey false
              else insertIntoDnMap weakKey sslCtx false)
    else ret tt.

(** [try { ...Impl } catch (const std::runtime_error& ex)]: rethrown in
    strict mode, logged and dropped otherwise. *)
Definition insertSSLCtxByDomainName
    (dn : string) (sslCtx : ServerSSLContext) (certCrypto : CertCrypto)
    (defaultFallback : bool) : M unit :=
  λ s, match insertSSLCtxByDomainNameImpl dn sslCtx certCrypto defaultFallback s with
       | (Thrown (runtime_error what), s') =>
           if strict_ s' then (Thrown (runtime_error what), s')
           else (Returned tt, s')
       | r => r
       end.

Definition insert (sslCtx : ServerSSLContext) (defaultFallback : bool) : M unit :=
  match ctx_x509 sslCtx with
  | None => throw (runtime_error "SSLCtx is invalid")
  | Some x509 =>
      match x509_commonName x509 with
      | None => throw (runtime_error "Cannot get CN")
      | Some cn =>
          if (String.length cn =? 1)%nat && char_is cn 0 "*" then
            if negb defaultFallback then
              throw (runtime_error "STAR X509 is not the default")
            else ret tt
          else
            let certCrypto :=
              let sigAlg := x509_signature_nid x509 in
              if ((sigAlg =? NID_sha1WithRSAEncryption)
                  || (sigAlg =? NID_ecdsa_with_SHA1))%Z
              then SHA1_SIGNATURE else BEST_AVAILABLE in
            (* Insert by CN *)
            insertSSLCtxByDomainName cn sslCtx certCrypto defaultFallback ;;
            (* Insert by subject alternative name(s) *)
            match x509_subjectAltName x509 with
            | Some altNames =>
                for_each
                  (λ name, insertSSLCtxByDomainName name sslCtx certCrypto
                             defaultFallback)
                  altNames
            | None => ret tt
            end ;;
            if defaultFallback then modify (set_defaultCtxDomainName cn)
            else modify (addServerContext sslCtx)
      end
  end.

(** *** Lookups *)

Definition getSSLCtxByExactDomain (key : SSLContextKey) (s : SslContexts)
    : option ServerSSLContext :=
  dnMap_ s !! key.

Definition getSSLCtxBySuffix (key : SSLContextKey) (s : SslContexts)
    : option ServerSSLContext :=
  match DN.find_first_of_dot (dnString key) with
  | Some dot =>
      let suffixKey := mkKey (DN.substr_from dot (dnString key)) (certCrypto key) in
      dnMap_ s !! suffixKey
  | None => None
  end.

Definition getSSLCtx (key : SSLContextKey) (s : SslContexts)
    : option ServerSSLContext :=
  match getSSLCtxByExactDomain key s with
  | Some ctx => Some ctx
  | None => getSSLCtxBySuffix key s
  end.

Definition isDefaultCtxExact (key : SSLContextKey) (s : SslContexts) : bool :=
  found key (defaultCtxKeys_ s).

Definition isDefaultCtxSuffix (key : SSLContextKey) (s : SslContexts) : bool :=
  match DN.find_first_of_dot (dnString key) with
  | Some dot =>
      let suffixKey := mkKey (DN.substr_from dot (dnString key)) (certCrypto key) in
      isDefaultCtxExact suffixKey s
  | None => false
  end.

Definition isDefaultCtx (key : SSLContextKey) (s : SslContexts) : bool :=
  isDefaultCtxExact key s || isDefaultCtxSuffix key s.

(** *** Removal *)

Definition removeSSLContextConfig (key : SSLContextKey) : M unit :=
  λ s,
    (* The default context can't be dropped. *)
    if found key (defaultCtxKeys_ s) then
      (Thrown (invalid_argument
                 ("Cert for the default domain " ++ dnString key
                  ++ " can not be removed")), s)
    else
      match dnMap_ s !! key with
      | Some c =>
          if found c (ctxs_ s) then
            let s' := set_ctxs (erase_first c (ctxs_ s)) s in
            (Returned tt, set_dnMap (delete key (dnMap_ s')) s')
          else
            (* CHECK(vIt != ctxs_.end()) *)
            (Aborted, s)
      | None => (Returned tt, s)
      end.

(** The one-argument [SSLContextKey] constructor leaves the tier to its
    default argument, which the missing header declares; it is taken as
    [dflt] here. *)
Definition removeSSLContextConfigByDomainName
    (dflt : CertCrypto) (domainName : string) : M unit :=
  let dn := if String.prefix "*." domainName
            then DN.substr_from 1 domainName else domainName in
  removeSSLContextConfig (mkKey (mkDNString dn) dflt).

(** *** Ticket seeds *)

Fixpoint getTicketKeys_loop (ctxs : list ServerSSLContext) (seeds : TLSTicketKeySeeds)
    : TLSTicketKeySeeds :=
  match ctxs with
  | [] => seeds
  | ctx :: rest =>
      match ctx_ticketManager ctx with
      | Some held => held (* getTLSTicketKeySeeds(...); break *)
      | None => getTicketKeys_loop rest seeds
      end
  end.

Definition getTicketKeys (s : SslContexts) : TLSTicketKeySeeds :=
  getTicketKeys_loop (ctxs_ s) noSeeds.

Definition getDefaultCtxDomainName (s : SslContexts) : string :=
  defaultCtxDomainName_ s.

End SslContexts.

(** ** The SNI callback *)

(** [folly::ssl]'s view of the ClientHello. *)
Module folly_ssl.

Inductive HashAlgorithm := NONE | MD5 | SHA1 | SHA224 | SHA256 | SHA384 | SHA512.

Inductive SignatureAlgorithm := ANONYMOUS | RSA | DSA | ECDSA.

(** The 16-bit extension type of the TLS registry. *)
Definition TLSExtension := N.
Definition SERVER_NAME : TLSExtension := 0%N.

Record ClientHelloInfo := mkClientHelloInfo {
  clientHelloSigAlgs_ : list (HashAlgorithm * SignatureAlgorithm);
  clientHelloExtensions_ : list TLSExtension
}.

#[global] Instance HashAlgorithm_eq_dec : EqDecision HashAlgorithm.
Proof. solve_decision. Defined.

End folly_ssl.
Import folly_ssl.

Inductive ServerNameCallbackResult :=
| SERVER_NAME_FOUND
| SERVER_NAME_NOT_FOUND.

(** The calls made on the [ClientHelloExtStats] sink. *)
Inductive StatsCall :=
| recordAbsentHostname
| recordMatch
| recordNotMatch
| recordCertCrypto (requested served : CertCrypto).

Module Sni.

(** The characters before the first NUL: what [strlen] sees of a buffer. *)
Fixpoint c_str (s : string) : string :=
  match s with
  | EmptyString => EmptyString
  | String c r => if Ascii.eqb c zero then EmptyString else String c (c_str r)
  end.

(** [for (sigAlgPair : clientHelloSigAlgs_) if (first == SHA256) { ...; break; }] *)
Fixpoint sigAlgs_loop (l : list (HashAlgorithm * SignatureAlgorithm))
    (certCryptoReq : CertCrypto) : CertCrypto :=
  match l with
  | [] => certCryptoReq
  | sigAlgPair :: rest =>
      if decide (sigAlgPair.1 = SHA256) then BEST_AVAILABLE
      else sigAlgs_loop rest certCryptoReq
  end.

(** "Check if we think the client is outdated and require weak crypto." *)
Definition requestedCertCrypto (clientInfo : option ClientHelloInfo) : CertCrypto :=
  let certCryptoReq := BEST_AVAILABLE in
  match clientInfo with
  | Some info =>
      let certCryptoReq := SHA1_SIGNATURE in
      let certCryptoReq := sigAlgs_loop (clientHelloSigAlgs_ info) certCryptoReq in
      (* Assume the client supports SHA2 if it sent SNI. *)
      if SslContexts.found SERVER_NAME (clientHelloExtensions_ info)
      then BEST_AVAILABLE else certCryptoReq
  | None => certCryptoReq
  end.

Record CallbackEffect := mkEffect {
  cb_result : ServerNameCallbackResult;
  cb_switchedTo : option ServerSSLContext;
  cb_stats : list StatsCall
}.

(** [sn] is the result of [SSL_get_servername], [clientInfo] that of
    [getClientHelloInfo()], [stats] tells whether a sink is installed. *)
Definition serverNameCallback
    (sn : option string) (clientInfo : option ClientHelloInfo) (stats : bool)
    (contexts : SslContexts) : CallbackEffect :=
  let reqHasServerName := bool_decide (is_Some sn) in
  let log0 := if negb reqHasServerName && stats then [recordAbsentHostname] else [] in
  let sn := match sn with
            | Some n => n
            | None => c_str (SslContexts.getDefaultCtxDomainName contexts)
            end in
  let certCryptoReq := requestedCertCrypto clientInfo in
  let dnstr := mkDNString sn in
  let key := mkKey dnstr certCryptoReq in
  let ctx := SslContexts.getSSLCtx key contexts in
  if bool_decide (is_Some ctx) || SslContexts.isDefaultCtx key contexts then
    mkEffect SERVER_NAME_FOUND ctx
      (log0 ++ (if stats then
                  (if reqHasServerName then [recordMatch] else [])
                  ++ [recordCertCrypto certCryptoReq certCryptoReq]
                else []))
  else
    let fallbackKey := mkKey dnstr BEST_AVAILABLE in
    let ctx' := SslContexts.getSSLCtx fallbackKey contexts in
    if bool_decide (certCryptoReq ≠ BEST_AVAILABLE)
       && (bool_decide (is_Some ctx') || SslContexts.isDefaultCtx fallbackKey contexts)
    then
      mkEffect SERVER_NAME_FOUND ctx'
        (log0 ++ (if stats then
                    (if reqHasServerName then [recordMatch] else [])
                    ++ [recordCertCrypto certCryptoReq BEST_AVAILABLE]
                  else []))
    else
      mkEffect SERVER_NAME_NOT_FOUND None
        (log0 ++ (if stats && reqHasServerName then [recordNotMatch] else [])).

End Sni.

(** ** The manager *)

Record SSLContextConfig := mkConfig {
  cfg_id : N;
  isDefault : bool;
  nextProtocols : list (N * list string)
}.

Record SSLContextManager := mkManager {
  contexts_ : SslContexts;
  defaultCtx_ : option ServerSSLContext;
  mgr_strict_ : bool
}.

Section Manager.

(** Compile-time features of the OpenSSL at hand. *)
Variable FOLLY_OPENSSL_HAS_ALPN : bool.
Variable FOLLY_OPENSSL_HAS_SNI : bool.

(** The first part of [addSSLContextConfig]: allocating the context,
    loading the certificates and keys, ciphers, DH parameters, curve, client
    CA, session cache and ticket manager.  All of it is the TLS library's
    work on the new context; it yields the context or throws. *)
Variable setupContext :
  SSLContextConfig → option TLSTicketKeySeeds → exn + ServerSSLContext.

(** The second component of the state is the [newDefault] reference. *)
Definition ctxSetupByOpensslFeature
    (sslCtx : ServerSSLContext) (ctxConfig : SSLContextConfig)
    (newDefault : option ServerSSLContext)
    : outcome unit * option ServerSSLContext :=
  (* NPN (Next Protocol Negotiation) *)
  if bool_decide (nextProtocols ctxConfig ≠ []) && negb FOLLY_OPENSSL_HAS_ALPN then
    (Thrown (runtime_error "missing NPN support in openssl"), newDefault)
  else
    (* SNI *)
    if FOLLY_OPENSSL_HAS_SNI then
      if isDefault ctxConfig then
        match newDefault with
        | Some _ => (Thrown (runtime_error ">1 X509 is set as default"), newDefault)
        | None => (Returned tt, Some sslCtx)
        end
      else (Returned tt, newDefault)
    else
      match newDefault with
      | Some _ => (Thrown (runtime_error "missing SNI support in openssl"), newDefault)
      | None => (Returned tt, Some sslCtx)
      end.

Definition exceptionStr (e : exn) : string :=
  match e with
  | runtime_error what => "std::runtime_error: " ++ what
  | invalid_argument what => "std::invalid_argument: " ++ what
  end.

(** [SslContexts::addSSLContextConfig], on the index [s] and the
    [newDefault] reference. *)
Definition SslContexts_addSSLContextConfig
    (ctxConfig : SSLContextConfig) (ticketSeeds : option TLSTicketKeySeeds)
    (s : SslContexts) (newDefault : option ServerSSLContext)
    : outcome unit * SslContexts * option ServerSSLContext :=
  match setupContext ctxConfig ticketSeeds with
  | inl e => (Thrown e, s, newDefault)
  | inr sslCtx =>
      match ctxSetupByOpensslFeature sslCtx ctxConfig newDefault with
      | (Returned _, newDefault') =>
          match SslContexts.insert sslCtx (isDefault ctxConfig) s with
          | (Thrown ex, s') =>
              (Thrown (runtime_error
                         ("Error adding certificate : " ++ exceptionStr ex)),
               s', newDefault')
          | (r, s') => (r, s', newDefault')
          end
      | (r, newDefault') => (r, s, newDefault')
      end
  end.

(** The loop of [resetSSLContextConfigs] over the configurations. *)
Fixpoint addAll (ctxConfigs : list SSLContextConfig)
    (ticketSeeds : option TLSTicketKeySeeds)
    (contexts : SslContexts) (defaultCtx : option ServerSSLContext)
    : outcome unit * SslContexts * option ServerSSLContext :=
  match ctxConfigs with
  | [] => (Returned tt, contexts, defaultCtx)
  | ctxConfig :: rest =>
      match SslContexts_addSSLContextConfig ctxConfig ticketSeeds contexts defaultCtx with
      | (Returned _, contexts', defaultCtx') =>
          addAll rest ticketSeeds contexts' defaultCtx'
      | r => r
      end
  end.

Definition resetSSLContextConfigs
    (ctxConfigs : list SSLContextConfig) (ticketSeeds : option TLSTicketKeySeeds)
    (m : SSLContextManager) : outcome unit * SSLContextManager :=
  let contexts := SslContexts.create (mgr_strict_ m) in
  let defaultCtx : option ServerSSLContext := None in
  let oldTicketSeeds :=
    match ticketSeeds with
    | None => SslContexts.getTicketKeys (contexts_ m)
    | Some _ => noSeeds
    end in
  match addAll ctxConfigs
          (Some (match ticketSeeds with Some t => t | None => oldTicketSeeds end))
          contexts defaultCtx with
  | (Returned _, contexts', defaultCtx') =>
      (* contexts_.swap(contexts); defaultCtx_.swap(defaultCtx); *)
      (Returned tt,
       {| contexts_ := contexts'; defaultCtx_ := defaultCtx';
          mgr_strict_ := mgr_strict_ m |})
  | (r, _, _) => (r, m)
  end.

Definition addSSLContextConfig
    (ctxConfig : SSLContextConfig) (ticketSeeds : option TLSTicketKeySeeds)
    (m : SSLContextManager) : outcome unit * SSLContextManager :=
  match SslContexts_addSSLContextConfig ctxConfig ticketSeeds
          (contexts_ m) (defaultCtx_ m) with
  | (r, s', newDefault') =>
      (r, {| contexts_ := s'; defaultCtx_ := newDefault';
             mgr_strict_ := mgr_strict_ m |})
  end.

End Manager.

Module Manager.

Definition on_contexts {A} (f : SslContexts.M A) (m : SSLContextManager)
    : outcome A * SSLContextManager :=
  match f (contexts_ m) with
  | (r, s') =>
      (r, {| contexts_ := s'; defaultCtx_ := defaultCtx_ m;
             mgr_strict_ := mgr_strict_ m |})
  end.

Definition clear (m : SSLContextManager) : SSLContextManager :=
  {| contexts_ := SslContexts.clear (contexts_ m);
     defaultCtx_ := defaultCtx_ m; mgr_strict_ := mgr_strict_ m |}.

Definition removeSSLContextConfig (key : SSLContextKey) :=
  on_contexts (SslContexts.removeSSLContextConfig key).

Definition removeSSLContextConfigByDomainName (dflt : CertCrypto) (domainName : string) :=
  on_contexts (SslContexts.removeSSLContextConfigByDomainName dflt domainName).

Definition insertSSLCtxByDomainName
    (dn : string) (sslCtx : ServerSSLContext) (certCrypto : CertCrypto)
    (defaultFallback : bool) :=
  on_contexts (SslContexts.insertSSLCtxByDomainName dn sslCtx certCrypto defaultFallback).

Definition addServerContext (sslCtx : ServerSSLContext) :=
  on_contexts (SslContexts.modify (SslContexts.addServerContext sslCtx)).

Definition getDefaultSSLCtx (m : SSLContextManager) : option ServerSSLContext :=
  defaultCtx_ m.

Definition getSSLCtx (key : SSLContextKey) (m : SSLContextManager)
    : option ServerSSLContext :=
  if SslContexts.isDefaultCtx key (contexts_ m) then defaultCtx_ m
  else SslContexts.getSSLCtx key (contexts_ m).

Definition getSSLCtxBySuffix (key : SSLContextKey) (m : SSLContextManager)
    : option ServerSSLContext :=
  if SslContexts.isDefaultCtxSuffix key (contexts_ m) then defaultCtx_ m
  else SslContexts.getSSLCtxBySuffix key (contexts_ m).

Definition getSSLCtxByExactDomain (key : SSLContextKey) (m : SSLContextManager)
    : option ServerSSLContext :=
  if SslContexts.isDefaultCtxExact key (contexts_ m) then defaultCtx_ m
  else SslContexts.getSSLCtxByExactDomain key (contexts_ m).

End Manager.

(** ** States of the index and the statements about them *)

Module Inv.
Import SslContexts.

(** The index as its clients can drive it: from a fresh index, by the two
    primitive insertions (through which every insertion of a name goes),
    by removals, and by the other mutators. *)
Inductive reachable : SslContexts → Prop :=
| reach_create strict :
    reachable (create strict)
| reach_insertIntoDnMap s key sslCtx overwrite :
    reachable s → reachable (insertIntoDnMap key sslCtx overwrite s)
| reach_insertIntoDefaultKeys s key overwrite :
    reachable s → reachable (insertIntoDefaultKeys key overwrite s)
| reach_remove s key r s' :
    reachable s → removeSSLContextConfig key s = (r, s') → reachable s'
| reach_addServerContext s sslCtx :
    reachable s → reachable (addServerContext sslCtx s)
| reach_set_defaultCtxDomainName s d :
    reachable s → reachable (set_defaultCtxDomainName d s)
| reach_clear s :
    reachable s → reachable (clear s).

Definition in_dnMap (key : SSLContextKey) (s : SslContexts) : Prop :=
  is_Some (dnMap_ s !! key).

Definition in_defaultCtxKeys (key : SSLContextKey) (s : SslContexts) : Prop :=
  key ∈ defaultCtxKeys_ s.

Definition exactly_one (key : SSLContextKey) (s : SslContexts) : Prop :=
  (in_dnMap key s ∧ ¬ in_defaultCtxKeys key s)
  ∨ (¬ in_dnMap key s ∧ in_defaultCtxKeys key s).

(** The decision table of [insert_map], row by row as the specification
    prints it ([M] is [by_name], [D] is [default_keys]); the table has no row
    for a key in both. *)
Definition insert_map_table
    (k : SSLContextKey) (C : ServerSSLContext) (overwrite : bool)
    (s : SslContexts) : SslContexts :=
  let M := dnMap_ s in
  let D := defaultCtxKeys_ s in
  match bool_decide (is_Some (M !! k)), bool_decide (k ∈ D), overwrite with
  | false, false, _ => set_dnMap (<[k := C]> M) s
  | true, false, true => set_dnMap (<[k := C]> M) s
  | true, false, false => s
  | false, true, true =>
      set_dnMap (<[k := C]> M) (set_defaultCtxKeys (filter (λ k', k' ≠ k) D) s)
  | false, true, false => s
  | true, true, _ => s
  end.

(** The decision table of [insert_default]. *)
Definition insert_default_table
    (k : SSLContextKey) (overwrite : bool) (s : SslContexts) : SslContexts :=
  let M := dnMap_ s in
  let D := defaultCtxKeys_ s in
  match bool_decide (is_Some (M !! k)), bool_decide (k ∈ D), overwrite with
  | false, false, _ => set_defaultCtxKeys (D ++ [k]) s
  | true, false, true => set_defaultCtxKeys (D ++ [k]) (set_dnMap (delete k M) s)
  | true, false, false => s
  | false, true, _ => s
  | true, true, _ => s
  end.

(** What the code maintains: the vector of default keys has no repetition
    and shares no key with the map. *)
Definition wf (s : SslContexts) : Prop :=
  NoDup (defaultCtxKeys_ s)
  ∧ ∀ key, in_dnMap key s → ¬ in_defaultCtxKeys key s.

(** *** Names *)

(** What [insertSSLCtxByDomainNameImpl] does with a name it has accepted. *)
Definition fileName
    (name : DNString) (sslCtx : ServerSSLContext) (crypto : CertCrypto)
    (defaultFallback : bool) (s : SslContexts) : SslContexts :=
  let s1 := (if defaultFallback then insertIntoDefaultKeys (mkKey name crypto) true
             else insertIntoDnMap (mkKey name crypto) sslCtx true) s in
  if decide (crypto ≠ BEST_AVAILABLE) then
    (if defaultFallback then insertIntoDefaultKeys (mkKey name BEST_AVAILABLE) false
     else insertIntoDnMap (mkKey name BEST_AVAILABLE) sslCtx false) s1
  else s1.

(** The name under which a certificate name is filed: a leading [*] before
    a dot is dropped, the rest is kept as a [DNString]. *)
Definition storedName (dn : string) : DNString :=
  mkDNString (if String.prefix "*." dn then DN.substr_from 1 dn else dn).

(** The part of a name from its first dot on, the dot included. *)
Definition suffix_from_first_dot (d : DNString) : option DNString :=
  match DN.find_first_of_dot d with
  | Some dot => Some (DN.substr_from dot d)
  | None => None
  end.

(** A certificate name that [insertSSLCtxByDomainNameImpl] refuses, whatever
    the index holds. *)
Definition rejected (dn : string) : Prop :=
  ∃ e, ∀ sslCtx crypto defaultFallback s,
    insertSSLCtxByDomainNameImpl dn sslCtx crypto defaultFallback s = (Thrown e, s).

(** A context whose certificate carries a refused name among those that
    [insert] files (its CN, which is not the lone star, or a SAN). *)
Definition has_rejected_name (sslCtx : ServerSSLContext) : Prop :=
  ∃ x509 cn,
    ctx_x509 sslCtx = Some x509
    ∧ x509_commonName x509 = Some cn
    ∧ cn ≠ "*"
    ∧ (rejected cn
       ∨ ∃ altNames name,
           x509_subjectAltName x509 = Some altNames
           ∧ name ∈ altNames ∧ rejected name).

(** *** Ticket seeds *)

(** The seeds that a reset hands to the contexts it builds. *)
Definition resetSeeds (ticketSeeds : option TLSTicketKeySeeds)
    (m : SSLContextManager) : option TLSTicketKeySeeds :=
  Some (match ticketSeeds with
        | Some t => t
        | None => getTicketKeys (contexts_ m)
        end).


Definition seedsEmpty (t : TLSTicketKeySeeds) : bool :=
  bool_decide (oldSeeds t = []) && bool_decide (currentSeeds t = [])
  && bool_decide (newSeeds t = []).

(** *** Signature hashes *)

Definition sha256_or_stronger (h : folly_ssl.HashAlgorithm) : bool :=
  match h with
  | folly_ssl.SHA256 | folly_ssl.SHA384 | folly_ssl.SHA512 => true
  | _ => false
  end.

(** *** The map and the list of contexts *)

(** The index after calls of [insert] for non-default certificates (in
    lax mode whatever their outcome, in strict mode when they return) and
    after removals that return. *)
Inductive driven : SslContexts → Prop :=
| driven_create strict :
    driven (create strict)
| driven_insert s sslCtx r s' :
    driven s → insert sslCtx false s = (r, s') →
    r = Returned tt ∨ strict_ s = false →
    driven s'
| driven_remove s key s' :
    driven s → removeSSLContextConfig key s = (Returned tt, s') →
    driven s'.

Definition map_in_list (s : SslContexts) : Prop :=
  ∀ key sslCtx, dnMap_ s !! key = Some sslCtx → sslCtx ∈ ctxs_ s.

Definition list_in_map (s : SslContexts) : Prop :=
  ∀ sslCtx, sslCtx ∈ ctxs_ s → ∃ key, dnMap_ s !! key = Some sslCtx.

(** The index after calls of [insert] only, default or not (in lax mode
    whatever their outcome, in strict mode when they return). *)
Inductive filled : SslContexts → Prop :=
| filled_create strict :
    filled (create strict)
| filled_insert s sslCtx defaultFallback r s' :
    filled s → insert sslCtx defaultFallback s = (r, s') →
    r = Returned tt ∨ strict_ s = false →
    filled s'.

(** *** The run of [insert] *)

(** The tier that [insert] derives from the signature of the certificate. *)
Definition certCryptoOf (x509 : X509) : CertCrypto :=
  let sigAlg := x509_signature_nid x509 in
  if ((sigAlg =? NID_sha1WithRSAEncryption) || (sigAlg =? NID_ecdsa_with_SHA1))%Z
  then SHA1_SIGNATURE else BEST_AVAILABLE.

(** The names that [insert] goes through: the CN, then the SANs. *)
Definition certNames (cn : string) (x509 : X509) : list string :=
  cn :: default [] (x509_subjectAltName x509).

(** The last step of [insert]. *)
Definition finishInsert (sslCtx : ServerSSLContext) (defaultFallback : bool)
    (cn : string) (s : SslContexts) : SslContexts :=
  if defaultFallback then set_defaultCtxDomainName cn s
  else addServerContext sslCtx s.

(** The index after the accepted names of a list have been filed in turn,
    the refused ones being passed over. *)
Inductive filed (sslCtx : ServerSSLContext) (crypto : CertCrypto)
    (defaultFallback : bool) : list string → SslContexts → SslContexts → Prop :=
| filed_nil s :
    filed sslCtx crypto defaultFallback [] s s
| filed_skip name names s s' :
    rejected name →
    filed sslCtx crypto defaultFallback names s s' →
    filed sslCtx crypto defaultFallback (name :: names) s s'
| filed_cons name names s s' :
    ¬ rejected name →
    filed sslCtx crypto defaultFallback names
      (fileName (storedName name) sslCtx crypto defaultFallback s) s' →
    filed sslCtx crypto defaultFallback (name :: names) s s'.

(** *** Certificates inserted twice *)

Definition same_cert (a b : ServerSSLContext) : Prop :=
  ctx_x509 a = ctx_x509 b.

(** What filing [name] for [sslCtx] leaves behind, and what filing further
    names of the same certificate does not undo. *)
Definition settled (sslCtx : ServerSSLContext) (crypto : CertCrypto)
    (defaultFallback : bool) (name : DNString) (s : SslContexts) : Prop :=
  (if defaultFallback
   then dnMap_ s !! mkKey name crypto = None
        ∧ in_defaultCtxKeys (mkKey name crypto) s
   else dnMap_ s !! mkKey name crypto = Some sslCtx)
  ∧ (crypto ≠ BEST_AVAILABLE →
     in_dnMap (mkKey name BEST_AVAILABLE) s
     ∨ in_defaultCtxKeys (mkKey name BEST_AVAILABLE) s).

(** Two states of the index that differ at most by contexts of the same
    certificate in the map. *)
Definition agrees (t s : SslContexts) : Prop :=
  defaultCtxKeys_ t = defaultCtxKeys_ s
  ∧ ctxs_ t = ctxs_ s
  ∧ defaultCtxDomainName_ t = defaultCtxDomainName_ s
  ∧ strict_ t = strict_ s
  ∧ ∀ key, option_Forall2 same_cert (dnMap_ t !! key) (dnMap_ s !! key).

(** *** Equivalent indexes, in the words of the specification

    Two indexes are equivalent when every key has the same lookup result and
    the same standing as a default name in both, the default keys are the
    same set, and the lists hold the same contexts, each as often in the one
    as in the other. *)
Definition same_index (t s : SslContexts) : Prop :=
  (∀ key, getSSLCtx key t = getSSLCtx key s
          ∧ isDefaultCtx key t = isDefaultCtx key s)
  ∧ (∀ key, key ∈ defaultCtxKeys_ t ↔ key ∈ defaultCtxKeys_ s)
  ∧ ctxs_ t ≡ₚ ctxs_ s.

(** *** Sample data *)

Module Ex.

Definition cert (cn : string) (sans : option (list string)) (nid : Z) : X509 :=
  {| x509_commonName := Some cn; x509_subjectAltName := sans;
     x509_signature_nid := nid |}.

Definition NID_sha256WithRSAEncryption : Z := 668.

Definition ctxA : ServerSSLContext :=
  {| ctx_addr := 1; ctx_x509 := Some (cert "a.com" None NID_sha256WithRSAEncryption);
     ctx_ticketManager := Some noSeeds |}.

Definition ctxB : ServerSSLContext :=
  {| ctx_addr := 2; ctx_x509 := Some (cert "a.com" None NID_sha256WithRSAEncryption);
     ctx_ticketManager := Some (mkSeeds ["old"] ["current"] ["new"]) |}.

Definition ctxWeak : ServerSSLContext :=
  {| ctx_addr := 3;
     ctx_x509 := Some (cert "legacy.example.com" None NID_sha1WithRSAEncryption);
     ctx_ticketManager := None |}.

Definition ctxBad : ServerSSLContext :=
  {| ctx_addr := 4;
     ctx_x509 := Some (cert "www.example.com" (Some ["a*b.example.com"])
                         NID_sha256WithRSAEncryption);
     ctx_ticketManager := None |}.

Definition ctxSan : ServerSSLContext :=
  {| ctx_addr := 5;
     ctx_x509 := Some (cert "a.com" (Some ["b.com"]) NID_sha256WithRSAEncryption);
     ctx_ticketManager := None |}.

Definition keyA : SSLContextKey := mkKey (mkDNString "a.com") BEST_AVAILABLE.

End Ex.

End Inv.

(** ** Further statements about the index *)

Module Obs.
Import SslContexts Inv.

(** The characters of a certificate name that are kept: all of them, but
    for the star of a leading [*.]. *)
Definition strippedName (dn : string) : string :=
  if String.prefix "*." dn then DN.substr_from 1 dn else dn.

(** A certificate that [insert] can file: it has an X509 with a CN, and the
    lone star only as the default. *)
Definition insertable (sslCtx : ServerSSLContext) (defaultFallback : bool)
    (strict : bool) : Prop :=
  ∃ x509 cn,
    ctx_x509 sslCtx = Some x509 ∧ x509_commonName x509 = Some cn
    ∧ ((cn = "*" ∧ defaultFallback = true)
       ∨ (cn ≠ "*"
          ∧ (strict = true → Forall (λ n, ¬ rejected n) (certNames cn x509)))).

End Obs.

Section ManagerStates.

Variable FOLLY_OPENSSL_HAS_ALPN : bool.
Variable FOLLY_OPENSSL_HAS_SNI : bool.
Variable setupContext :
  SSLContextConfig → option TLSTicketKeySeeds → exn + ServerSSLContext.

(** The manager as its public member functions can drive it, whatever the
    outcome of each call. *)
Inductive mgr_reachable : SSLContextManager → Prop :=
| mgr_new strict :
    mgr_reachable {| contexts_ := SslContexts.create strict;
                     defaultCtx_ := None; mgr_strict_ := strict |}
| mgr_addSSLContextConfig m ctxConfig ticketSeeds r m' :
    mgr_reachable m →
    addSSLContextConfig FOLLY_OPENSSL_HAS_ALPN FOLLY_OPENSSL_HAS_SNI setupContext
      ctxConfig ticketSeeds m = (r, m') →
    mgr_reachable m'
| mgr_resetSSLContextConfigs m ctxConfigs ticketSeeds r m' :
    mgr_reachable m →
    resetSSLContextConfigs FOLLY_OPENSSL_HAS_ALPN FOLLY_OPENSSL_HAS_SNI
      setupContext ctxConfigs ticketSeeds m = (r, m') →
    mgr_reachable m'
| mgr_removeSSLContextConfig m key r m' :
    mgr_reachable m →
    Manager.removeSSLContextConfig key m = (r, m') →
    mgr_reachable m'
| mgr_removeSSLContextConfigByDomainName m dflt domainName r m' :
    mgr_reachable m →
    Manager.removeSSLContextConfigByDomainName dflt domainName m = (r, m') →
    mgr_reachable m'
| mgr_insertSSLCtxByDomainName m dn sslCtx certCrypto defaultFallback r m' :
    mgr_reachable m →
    Manager.insertSSLCtxByDomainName dn sslCtx certCrypto defaultFallback m
      = (r, m') →
    mgr_reachable m'
| mgr_addServerContext m sslCtx r m' :
    mgr_reachable m →
    Manager.addServerContext sslCtx m = (r, m') →
    mgr_reachable m'
| mgr_clear m :
    mgr_reachable m → mgr_reachable (Manager.clear m).

End ManagerStates.

Module ObsSni.
Import SslContexts Inv.

(** The name under which the callback looks a request up. *)
Definition requestedName (sn : option string) (contexts : SslContexts) : DNString :=
  mkDNString (default (Sni.c_str (getDefaultCtxDomainName contexts)) sn).

(** The index answers for a key: the map leads to a context, exactly or by
    the suffix, or the key is a default key, exactly or by the suffix. *)
Definition answers (key : SSLContextKey) (contexts : SslContexts) : bool :=
  bool_decide (is_Some (getSSLCtx key contexts)) || isDefaultCtx key contexts.

Definition is_recordCertCrypto (c : StatsCall) : bool :=
  match c with recordCertCrypto _ _ => true | _ => false end.

End ObsSni.

(** ** Loading the certificates of a configuration *)

Module Certs.

(** [SSLContextConfig::CertificateInfo], as the manager reads it. *)
Record CertificateInfo := mkCertificateInfo {
  certPath : string;
  keyPath : string;
  passwordPath : string;
  isBuffer : bool
}.

(** [operator<] of [std::string]: the lexical order of the bytes. *)
Definition string_leb (a b : string) : bool :=
  match String_as_OT.compare a b with
  | Gt => false
  | _ => true
  end.

Definition string_le (a b : string) : Prop := string_leb a b = true.

#[global] Instance string_le_dec : RelDecision string_le.
Proof. intros a b. unfold string_le. apply _. Defined.

(** [std::list<std::string>::sort()]: the names in ascending order. *)
Definition sort (l : list string) : list string := merge_sort string_le l.

Definition flattenList (list : list string) : string :=
  String.concat ", " list.

(** [x509] is the certificate that [getX509] finds in the context. *)
Definition verifyCertNames
    (x509 : option X509) (description : string)
    (commonName : string) (subjectAltName : option (list string))
    (lastCertPath : string) (firstCert : bool)
    : exn + (string * option (list string)) :=
  match x509 with
  | None =>
      inl (runtime_error ("Certificate: " ++ description ++ " is invalid"))
  | Some x509 =>
      match x509_commonName x509 with
      | None => inl (runtime_error ("Cannot get CN for X509 " ++ description))
      | Some cn =>
          let altName := sort <$> x509_subjectAltName x509 in
          if firstCert then inr (cn, altName)
          else if negb (String.eqb commonName cn) then
            inl (runtime_error ("X509 " ++ description
                                ++ " does not have same CN as " ++ lastCertPath))
          else
            match altName with
            | None =>
                match subjectAltName with
                | Some _ =>
                    inl (runtime_error
                           ("X509 " ++ description
                            ++ " does not have same SAN as " ++ lastCertPath))
                | None => inr (commonName, subjectAltName)
                end
            | Some altName =>
                match subjectAltName with
                | Some names =>
                    if decide (altName ≠ names) then
                      inl (runtime_error
                             ("X509 " ++ description
                              ++ " does not have same SAN as " ++ lastCertPath))
                    else inr (commonName, subjectAltName)
                | None =>
                    inl (runtime_error
                           ("X509 " ++ description
                            ++ " does not have same SAN as " ++ lastCertPath))
                end
            end
      end
  end.

Section Loading.

(** The TLS library at work on the context: [loadCertKeyPairFromBufferPEM]
    and the body of the [try] block of [loadCertsFromFiles] either throw or
    load the pair, and [getX509] gives the certificate that the context
    presents once the pair of a [CertificateInfo] is loaded. *)
Variable loadCertKeyPairFromBufferPEM : string → string → option exn.
Variable loadCertKeyPairFromFiles : CertificateInfo → option exn.
Variable getX509 : CertificateInfo → option X509.

Definition loadCertsFromFiles (cert : CertificateInfo) : option exn :=
  match loadCertKeyPairFromFiles cert with
  | Some ex =>
      Some (runtime_error ("error loading SSL certificate " ++ certPath cert
                           ++ ": " ++ exceptionStr ex))
  | None => None
  end.

(** Loading one pair, from buffers or from files. *)
Definition loadPair (cert : CertificateInfo) : option exn :=
  if isBuffer cert
  then loadCertKeyPairFromBufferPEM (certPath cert) (keyPath cert)
  else loadCertsFromFiles cert.

(** The loop of [loadCertKeyPairsInSSLContext], on the certificates still
    to load. *)
Fixpoint loadCertKeyPairs_loop (certificates : list CertificateInfo)
    (numCerts : nat) (lastCertPath : string)
    (commonName : string) (subjectAltName : option (list string))
    : exn + string :=
  match certificates with
  | [] => inr commonName
  | cert :: rest =>
      match loadPair cert with
      | Some ex => inl ex
      | None =>
          let numCerts := S numCerts in
          match verifyCertNames (getX509 cert) (certPath cert) commonName
                  subjectAltName lastCertPath (numCerts =? 1)%nat with
          | inl ex => inl ex
          | inr (commonName, subjectAltName) =>
              loadCertKeyPairs_loop rest numCerts (certPath cert)
                commonName subjectAltName
          end
      end
  end.

(** [certificates] is [ctxConfig.certificates]; the result is the
    [commonName] that the caller receives. *)
Definition loadCertKeyPairsInSSLContext (certificates : list CertificateInfo)
    (commonName : string) : exn + string :=
  loadCertKeyPairs_loop certificates 0 "" commonName None.

End Loading.

(** The names of a certificate as [verifyCertNames] compares them: the CN
    as it is written, the SANs up to their order. *)
Definition same_names (a b : X509) : Prop :=
  x509_commonName a = x509_commonName b
  ∧ option_Forall2 Permutation (x509_subjectAltName a) (x509_subjectAltName b).

End Certs.

(** * Properties *)

Local Open Scope list_scope.

Module Facts.
Import SslContexts Inv.

Lemma found_spec {A} `{EqDecision A} (x : A) (l : list A) :
  found x l = true ↔ x ∈ l.
Proof. unfold found. apply bool_decide_eq_true. Qed.

Lemma found_false {A} `{EqDecision A} (x : A) (l : list A) :
  found x l = false ↔ x ∉ l.
Proof. unfold found. apply bool_decide_eq_false. Qed.

Lemma erase_first_subset {A} `{EqDecision A} (x y : A) (l : list A) :
  y ∈ erase_first x l → y ∈ l.
Proof.
  induction l as [|z l IH]; simpl; [done|].
  destruct (decide (z = x)); set_solver.
Qed.

Lemma erase_first_other {A} `{EqDecision A} (x y : A) (l : list A) :
  y ≠ x → y ∈ l → y ∈ erase_first x l.
Proof.
  intros Hne. induction l as [|z l IH]; simpl; [done|].
  destruct (decide (z = x)); set_solver.
Qed.

Lemma erase_first_NoDup {A} `{EqDecision A} (x : A) (l : list A) :
  NoDup l → NoDup (erase_first x l).
Proof.
  induction 1 as [|z l Hz Hl IH]; simpl; [constructor|].
  destruct (decide (z = x)); [done|].
  constructor; [|done].
  intros Hin. by apply Hz, (erase_first_subset x).
Qed.

Lemma erase_first_gone {A} `{EqDecision A} (x : A) (l : list A) :
  NoDup l → x ∉ erase_first x l.
Proof.
  induction 1 as [|z l Hz Hl IH]; simpl; [set_solver|].
  destruct (decide (z = x)); [by subst|set_solver].
Qed.

Lemma filter_ne_absent {A} `{EqDecision A} (x : A) (l : list A) :
  x ∉ l → filter (λ y, y ≠ x) l = l.
Proof.
  induction l as [|z l IH]; intros Hx; [done|].
  rewrite filter_cons_True by set_solver.
  f_equal. apply IH. set_solver.
Qed.

Lemma erase_first_filter {A} `{EqDecision A} (x : A) (l : list A) :
  NoDup l → erase_first x l = filter (λ y, y ≠ x) l.
Proof.
  induction 1 as [|z l Hz Hl IH]; simpl; [done|].
  destruct (decide (z = x)) as [->|Hzx].
  - rewrite filter_cons_False by naive_solver.
    by rewrite filter_ne_absent.
  - rewrite filter_cons_True by done. by rewrite IH.
Qed.

Lemma set_dnMap_id s : set_dnMap (dnMap_ s) s = s.
Proof. by destruct s. Qed.

Ltac split_insert s key :=
  let Hm := fresh "Hm" in
  let Hd := fresh "Hd" in
  destruct (dnMap_ s !! key) as [?|] eqn:Hm;
  destruct (found key (defaultCtxKeys_ s)) eqn:Hd;
  [ apply found_spec in Hd | apply found_false in Hd
  | apply found_spec in Hd | apply found_false in Hd ].

Lemma insertIntoDnMap_wf key sslCtx overwrite s :
  wf s → wf (insertIntoDnMap key sslCtx overwrite s).
Proof.
  intros [Hnd Hdisj]. unfold insertIntoDnMap.
  split_insert s key.
  - destruct (decide (s0 = sslCtx)); [done|]. destruct overwrite; [|done].
    exfalso. eapply Hdisj; [|done]. by exists s0.
  - destruct (decide (s0 = sslCtx)); [done|]. destruct overwrite; [|done].
    split; [done|]. intros k. unfold in_dnMap, in_defaultCtxKeys. simpl.
    destruct (decide (k = key)) as [->|Hne]; [done|].
    rewrite lookup_insert_ne by done. apply Hdisj.
  - destruct overwrite; [|done].
    split; simpl; [by apply erase_first_NoDup|].
    intros k. unfold in_dnMap, in_defaultCtxKeys. simpl.
    destruct (decide (k = key)) as [->|Hne].
    + intros _. by apply erase_first_gone.
    + rewrite lookup_insert_ne by done. intros Hk Hin.
      eapply Hdisj; [done|]. by eapply erase_first_subset.
  - split; [done|]. intros k. unfold in_dnMap, in_defaultCtxKeys. simpl.
    destruct (decide (k = key)) as [->|Hne]; [done|].
    rewrite lookup_insert_ne by done. apply Hdisj.
Qed.

Lemma insertIntoDefaultKeys_wf key overwrite s :
  wf s → wf (insertIntoDefaultKeys key overwrite s).
Proof.
  intros [Hnd Hdisj]. unfold insertIntoDefaultKeys.
  split_insert s key.
  - exfalso. eapply Hdisj; [|done]. by eexists.
  - destruct overwrite; [|done].
    split; simpl.
    + apply NoDup_app. split_and!; [done| |apply NoDup_singleton].
      intros x Hx ->%list_elem_of_singleton. done.
    + intros k. unfold in_dnMap, in_defaultCtxKeys. simpl.
      destruct (decide (k = key)) as [->|Hne].
      * rewrite lookup_delete_eq. by intros [? ?].
      * rewrite lookup_delete_ne by done. intros Hk Hin.
        apply elem_of_app in Hin as [Hin| ->%list_elem_of_singleton]; [|done].
        by eapply Hdisj.
  - done.
  - split; simpl.
    + apply NoDup_app. split_and!; [done| |apply NoDup_singleton].
      intros x Hx ->%list_elem_of_singleton. done.
    + intros k. unfold in_dnMap, in_defaultCtxKeys. simpl.
      intros Hk Hin.
      apply elem_of_app in Hin as [Hin| ->%list_elem_of_singleton].
      * by eapply Hdisj.
      * rewrite Hm in Hk. by destruct Hk.
Qed.

Lemma removeSSLContextConfig_wf key r s s' :
  removeSSLContextConfig key s = (r, s') → wf s → wf s'.
Proof.
  unfold removeSSLContextConfig. intros Heq [Hnd Hdisj].
  destruct (found key (defaultCtxKeys_ s)); [by simplify_eq|].
  destruct (dnMap_ s !! key) as [c|] eqn:Hm; [|by simplify_eq].
  destruct (found c (ctxs_ s)); simplify_eq; [|done].
  split; [done|]. intros k. unfold in_dnMap, in_defaultCtxKeys. simpl.
  destruct (decide (k = key)) as [->|Hne].
  - rewrite lookup_delete_eq. by intros [? ?].
  - rewrite lookup_delete_ne by done. apply Hdisj.
Qed.

Lemma reachable_wf s : reachable s → wf s.
Proof.
  induction 1 as [strict|s key c ow _ IH|s key ow _ IH|s key r s' _ IH Hrm
                 |s c _ IH|s d _ IH|s _ IH].
  - split; [constructor|]. intros k [? Hk]. simpl in Hk. by rewrite lookup_empty in Hk.
  - by apply insertIntoDnMap_wf.
  - by apply insertIntoDefaultKeys_wf.
  - by eapply removeSSLContextConfig_wf.
  - done.
  - done.
  - split; [constructor|]. intros k [? Hk]. simpl in Hk. by rewrite lookup_empty in Hk.
Qed.

Lemma insertIntoDnMap_table key sslCtx overwrite s :
  wf s → insertIntoDnMap key sslCtx overwrite s = insert_map_table key sslCtx overwrite s.
Proof.
  intros [Hnd Hdisj]. unfold insertIntoDnMap, insert_map_table.
  split_insert s key.
  - exfalso. eapply Hdisj; [|done]. by eexists.
  - rewrite bool_decide_eq_true_2 by (by eexists).
    rewrite bool_decide_eq_false_2 by done.
    destruct (decide (s0 = sslCtx)) as [->|]; [|done].
    destruct overwrite; [|done].
    by rewrite insert_id, set_dnMap_id.
  - rewrite bool_decide_eq_false_2 by (by intros [? ?]).
    rewrite bool_decide_eq_true_2 by done.
    destruct overwrite; [|done]. simpl.
    by rewrite erase_first_filter.
  - rewrite bool_decide_eq_false_2 by (by intros [? ?]).
    by rewrite bool_decide_eq_false_2 by done.
Qed.

Lemma insertIntoDefaultKeys_table key overwrite s :
  wf s → insertIntoDefaultKeys key overwrite s = insert_default_table key overwrite s.
Proof.
  intros [Hnd Hdisj]. unfold insertIntoDefaultKeys, insert_default_table.
  split_insert s key.
  - exfalso. eapply Hdisj; [|done]. by eexists.
  - rewrite bool_decide_eq_true_2 by (by eexists).
    rewrite bool_decide_eq_false_2 by done.
    by destruct overwrite.
  - rewrite bool_decide_eq_false_2 by (by intros [? ?]).
    by rewrite bool_decide_eq_true_2 by done.
  - rewrite bool_decide_eq_false_2 by (by intros [? ?]).
    by rewrite bool_decide_eq_false_2 by done.
Qed.

Lemma insertIntoDnMap_exactly_one key sslCtx overwrite s :
  wf s → exactly_one key (insertIntoDnMap key sslCtx overwrite s).
Proof.
  intros [Hnd Hdisj]. unfold insertIntoDnMap, exactly_one, in_dnMap, in_defaultCtxKeys.
  split_insert s key.
  - exfalso. eapply Hdisj; [|done]. by eexists.
  - left. destruct (decide (s0 = sslCtx)); [by rewrite Hm|].
    destruct overwrite; simpl; [|by rewrite Hm].
    by rewrite lookup_insert_eq.
  - destruct overwrite; simpl.
    + left. rewrite lookup_insert_eq. split; [done|]. by apply erase_first_gone.
    + right. rewrite Hm. split; [by intros [? ?]|done].
  - left. simpl. by rewrite lookup_insert_eq.
Qed.

Lemma insertIntoDefaultKeys_exactly_one key overwrite s :
  wf s → exactly_one key (insertIntoDefaultKeys key overwrite s).
Proof.
  intros [Hnd Hdisj]. unfold insertIntoDefaultKeys, exactly_one, in_dnMap, in_defaultCtxKeys.
  split_insert s key.
  - exfalso. eapply Hdisj; [|done]. by eexists.
  - destruct overwrite; simpl.
    + right. rewrite lookup_delete_eq. split; [by intros [? ?]|set_solver].
    + left. by rewrite Hm.
  - right. rewrite Hm. split; [by intros [? ?]|done].
  - right. simpl. rewrite Hm. split; [by intros [? ?]|set_solver].
Qed.

End Facts.

Import SslContexts Inv Facts.

(** ** C1: the map and the default keys never share a key *)

(** C1.  In every state of the index reached from a fresh one by insertions
    into the map and into the default keys (whatever the overwrite flag), by
    removals and by the other mutators, no key is both in [dnMap_] and in
    [defaultCtxKeys_].  From such a state each of the two insertions acts as
    its decision table says, and leaves the inserted key in exactly one of
    the two collections. *)
Theorem partition_invariant (s : SslContexts) :
  reachable s →
  (∀ key, ¬ (in_dnMap key s ∧ in_defaultCtxKeys key s))
  ∧ (∀ key sslCtx overwrite,
       insertIntoDnMap key sslCtx overwrite s
         = insert_map_table key sslCtx overwrite s
       ∧ exactly_one key (insertIntoDnMap key sslCtx overwrite s))
  ∧ (∀ key overwrite,
       insertIntoDefaultKeys key overwrite s
         = insert_default_table key overwrite s
       ∧ exactly_one key (insertIntoDefaultKeys key overwrite s)).
Proof.
  intros Hwf%reachable_wf. split_and!.
  - intros key [Hm Hd]. destruct Hwf as [_ Hdisj]. by eapply Hdisj.
  - intros key sslCtx overwrite. split.
    + by apply insertIntoDnMap_table.
    + by apply insertIntoDnMap_exactly_one.
  - intros key overwrite. split.
    + by apply insertIntoDefaultKeys_table.
    + by apply insertIntoDefaultKeys_exactly_one.
Qed.


Lemma partition_invariant_witness :
  let s := insertIntoDefaultKeys Ex.keyA true
             (insertIntoDnMap Ex.keyA Ex.ctxA true (create true)) in
  reachable s
  ∧ (∀ key, ¬ (in_dnMap key s ∧ in_defaultCtxKeys key s))
  ∧ exactly_one Ex.keyA (insertIntoDnMap Ex.keyA Ex.ctxB false s).
Proof.
  intros s.
  assert (Hs : reachable s).
  { apply reach_insertIntoDefaultKeys, reach_insertIntoDnMap, reach_create. }
  split; [exact Hs|]. split.
  - exact (proj1 (partition_invariant s Hs)).
  - exact (proj2 (proj1 (proj2 (partition_invariant s Hs)) Ex.keyA Ex.ctxB false)).
Defined.

(** ** C6: a default key cannot be removed *)

(** C6.  Removing a key that is among the default keys throws the
    "can not be removed" [std::invalid_argument] and leaves the index, and so
    the manager, as they were; removing a key that is not among them never
    throws. *)
Theorem remove_default_key_fails (key : SSLContextKey) (s : SslContexts) :
  (in_defaultCtxKeys key s →
     (∃ what, removeSSLContextConfig key s = (Thrown (invalid_argument what), s))
     ∧ ∀ m, contexts_ m = s →
         ∃ what, Manager.removeSSLContextConfig key m
                 = (Thrown (invalid_argument what), m))
  ∧ (¬ in_defaultCtxKeys key s →
       ∀ e s', removeSSLContextConfig key s ≠ (Thrown e, s')).
Proof.
  unfold in_defaultCtxKeys. split.
  - intros Hin%found_spec. split.
    + unfold removeSSLContextConfig. rewrite Hin. by eexists.
    + intros [s0 d st] Hm. simpl in Hm. subst s0.
      unfold Manager.removeSSLContextConfig, Manager.on_contexts,
        removeSSLContextConfig. simpl. rewrite Hin. by eexists.
  - intros Hin%found_false e s'. unfold removeSSLContextConfig. rewrite Hin.
    destruct (dnMap_ s !! key) as [c|]; [|done].
    by destruct (found c (ctxs_ s)).
Qed.

Lemma remove_default_key_fails_witness :
  let s := insertIntoDefaultKeys Ex.keyA true (create true) in
  in_defaultCtxKeys Ex.keyA s
  ∧ ∃ what, removeSSLContextConfig Ex.keyA s = (Thrown (invalid_argument what), s).
Proof.
  intros s.
  assert (Hin : in_defaultCtxKeys Ex.keyA s).
  { unfold in_defaultCtxKeys. apply found_spec. vm_compute. reflexivity. }
  split; [exact Hin|].
  exact (proj1 (proj1 (remove_default_key_fails Ex.keyA s) Hin)).
Defined.

(** ** C10: clearing the manager keeps its default context *)

(** C10.  [SSLContextManager::clear] empties the list of contexts, the map
    and the default keys, so that every lookup in the index misses, and
    [getDefaultSSLCtx] returns what it returned before. *)
Theorem clear_keeps_default (m : SSLContextManager) :
  Manager.getDefaultSSLCtx (Manager.clear m) = Manager.getDefaultSSLCtx m
  ∧ ctxs_ (contexts_ (Manager.clear m)) = []
  ∧ dnMap_ (contexts_ (Manager.clear m)) = ∅
  ∧ defaultCtxKeys_ (contexts_ (Manager.clear m)) = []
  ∧ ∀ key,
      getSSLCtxByExactDomain key (contexts_ (Manager.clear m)) = None
      ∧ getSSLCtxBySuffix key (contexts_ (Manager.clear m)) = None
      ∧ getSSLCtx key (contexts_ (Manager.clear m)) = None
      ∧ isDefaultCtx key (contexts_ (Manager.clear m)) = false.
Proof.
  split_and!; try reflexivity.
  intros key.
  assert (Hsuf : getSSLCtxBySuffix key (contexts_ (Manager.clear m)) = None).
  { unfold getSSLCtxBySuffix. simpl.
    destruct (DN.find_first_of_dot (dnString key)); [apply lookup_empty|done]. }
  split_and!.
  - apply lookup_empty.
  - exact Hsuf.
  - unfold getSSLCtx, getSSLCtxByExactDomain. simpl. rewrite lookup_empty.
    exact Hsuf.
  - unfold isDefaultCtx, isDefaultCtxSuffix, isDefaultCtxExact, found. simpl.
    by destruct (DN.find_first_of_dot (dnString key)).
Qed.

(** ** C8: the ticket seeds taken over at a reload *)

Lemma getTicketKeys_loop_skip pre rest seeds :
  Forall (λ x, ctx_ticketManager x = None) pre →
  getTicketKeys_loop (pre ++ rest) seeds = getTicketKeys_loop rest seeds.
Proof.
  induction 1 as [|x pre Hx _ IH]; simpl; [done|]. by rewrite Hx.
Qed.

(** C8, as the code has it.  [getTicketKeys] goes through the contexts in
    order and returns the seeds held by the first context that has a ticket
    manager, whether these seeds are empty or not; without any ticket manager
    it returns empty seeds.  So the result is non-empty when the first
    ticket manager found holds non-empty seeds. *)
Theorem getTicketKeys_first_manager (s : SslContexts) :
  (∀ pre sslCtx post held,
     ctxs_ s = pre ++ sslCtx :: post →
     Forall (λ x, ctx_ticketManager x = None) pre →
     ctx_ticketManager sslCtx = Some held →
     getTicketKeys s = held
     ∧ (seedsEmpty held = false → seedsEmpty (getTicketKeys s) = false))
  ∧ (Forall (λ x, ctx_ticketManager x = None) (ctxs_ s) →
     getTicketKeys s = noSeeds).
Proof.
  unfold getTicketKeys. split.
  - intros pre sslCtx post held -> Hpre Hheld.
    rewrite getTicketKeys_loop_skip by done. simpl. rewrite Hheld.
    by split.
  - intros Hall. rewrite <- (app_nil_r (ctxs_ s)).
    by rewrite getTicketKeys_loop_skip.
Qed.

Lemma getTicketKeys_first_manager_witness :
  let s := set_ctxs [Ex.ctxWeak; Ex.ctxB; Ex.ctxA] (create true) in
  getTicketKeys s = mkSeeds ["old"] ["current"] ["new"].
Proof.
  intros s.
  refine (proj1 (proj1 (getTicketKeys_first_manager s)
                   [Ex.ctxWeak] Ex.ctxB [Ex.ctxA] _ _ _ _)).
  - reflexivity.
  - repeat constructor.
  - reflexivity.
Defined.

(** C8, as stated, fails: after two certificates for [a.com] have been
    inserted, the first with a ticket manager that holds no seed and the
    second with one that holds seeds, a context holds non-empty seeds and
    yet [getTicketKeys] returns the empty triple of the first. *)
Lemma getTicketKeys_first_nonempty_counterexample :
  ¬ (∀ s : SslContexts,
       (∃ sslCtx held,
          sslCtx ∈ ctxs_ s ∧ ctx_ticketManager sslCtx = Some held
          ∧ seedsEmpty held = false) →
       seedsEmpty (getTicketKeys s) = false).
Proof.
  intros Hclaim.
  specialize (Hclaim (insert Ex.ctxB false (insert Ex.ctxA false (create true)).2).2).
  assert (Hex : seedsEmpty
                  (getTicketKeys
                     (insert Ex.ctxB false (insert Ex.ctxA false (create true)).2).2)
                = true) by (vm_compute; reflexivity).
  rewrite Hclaim in Hex; [discriminate|].
  exists Ex.ctxB, (mkSeeds ["old"] ["current"] ["new"]).
  split_and!; [|reflexivity|reflexivity].
  vm_compute. apply list_elem_of_further, list_elem_of_here.
Qed.

(** ** C4: the tier a client is served *)

Lemma sigAlgs_loop_best l req :
  Sni.sigAlgs_loop l req = BEST_AVAILABLE
  ↔ (∃ sa, (folly_ssl.SHA256, sa) ∈ l) ∨ req = BEST_AVAILABLE.
Proof.
  induction l as [|[h sa] l IH]; simpl.
  - split; [by right|]. intros [[sa Hsa]|?]; [by inversion Hsa|done].
  - destruct (decide (h = folly_ssl.SHA256)) as [->|Hne].
    + split; [|done]. intros _. left. exists sa. apply list_elem_of_here.
    + rewrite IH. split.
      * intros [[sa' Hsa]|?]; [left|by right]. exists sa'. by apply list_elem_of_further.
      * intros [[sa' Hsa]|?]; [left|by right]. exists sa'.
        apply elem_of_cons in Hsa as [?|?]; [congruence|done].
Qed.

(** C4, as the code has it.  Without a ClientHelloInfo the requested tier is
    [BEST_AVAILABLE].  With one it is [BEST_AVAILABLE] exactly when the
    signature algorithms hold one whose hash is SHA-256 itself, or the
    extensions hold [SERVER_NAME]; otherwise it is [SHA1_SIGNATURE], also when
    the client lists SHA-384 or SHA-512 only. *)
Theorem requestedCertCrypto_spec (clientInfo : option folly_ssl.ClientHelloInfo) :
  (Sni.requestedCertCrypto clientInfo = BEST_AVAILABLE
   ↔ clientInfo = None
     ∨ ∃ info, clientInfo = Some info
         ∧ ((∃ sa, (folly_ssl.SHA256, sa) ∈ folly_ssl.clientHelloSigAlgs_ info)
            ∨ folly_ssl.SERVER_NAME ∈ folly_ssl.clientHelloExtensions_ info))
  ∧ (Sni.requestedCertCrypto clientInfo ≠ BEST_AVAILABLE
     → Sni.requestedCertCrypto clientInfo = SHA1_SIGNATURE)
  ∧ ∀ sn stats contexts,
      Sni.cb_result (Sni.serverNameCallback sn clientInfo stats contexts)
        = SERVER_NAME_FOUND →
      Sni.requestedCertCrypto clientInfo = BEST_AVAILABLE →
      Sni.cb_switchedTo (Sni.serverNameCallback sn clientInfo stats contexts)
      = getSSLCtx
          (mkKey (mkDNString
                    (default (Sni.c_str (getDefaultCtxDomainName contexts)) sn))
             BEST_AVAILABLE) contexts.
Proof.
  split_and!.
  - destruct clientInfo as [info|]; simpl.
    + destruct (found folly_ssl.SERVER_NAME (folly_ssl.clientHelloExtensions_ info))
        eqn:Hext.
      * apply found_spec in Hext. split; [|done]. intros _. right. eauto.
      * apply found_false in Hext. rewrite sigAlgs_loop_best. split.
        -- intros [Hs|?]; [|done]. right. eauto.
        -- intros [?|(info' & [= <-] & [Hs|?])]; [done|by left|done].
    + split; [by left|done].
  - by destruct (Sni.requestedCertCrypto clientInfo).
  - intros sn stats contexts Hres Hreq.
    unfold Sni.serverNameCallback in *. rewrite Hreq in *.
    assert (Hsn : match sn with
                  | Some n => n
                  | None => Sni.c_str (getDefaultCtxDomainName contexts)
                  end = default (Sni.c_str (getDefaultCtxDomainName contexts)) sn)
      by (by destruct sn).
    rewrite Hsn in *.
    destruct (bool_decide (is_Some _) || isDefaultCtx _ contexts) eqn:Hfound;
      [done|].
    rewrite (bool_decide_eq_false_2 (BEST_AVAILABLE ≠ BEST_AVAILABLE)) in Hres
      by (by intros ?).
    simpl in Hres. discriminate.
Qed.

Lemma requestedCertCrypto_spec_witness :
  let info := folly_ssl.mkClientHelloInfo [(folly_ssl.SHA256, folly_ssl.RSA)] [] in
  Sni.requestedCertCrypto (Some info) = BEST_AVAILABLE.
Proof.
  intros info.
  apply (proj1 (requestedCertCrypto_spec (Some info))).
  right. exists info. split; [reflexivity|].
  left. exists folly_ssl.RSA. apply list_elem_of_here.
Defined.

(** C4, as stated, fails: a client that lists SHA-384 as its only signature
    hash and sends no SNI extension is asked for at [SHA1_SIGNATURE]. *)
Lemma requestedCertCrypto_stronger_counterexample :
  ¬ (∀ info : folly_ssl.ClientHelloInfo,
       (∃ h sa, (h, sa) ∈ folly_ssl.clientHelloSigAlgs_ info
                ∧ sha256_or_stronger h = true) →
       Sni.requestedCertCrypto (Some info) = BEST_AVAILABLE).
Proof.
  intros Hclaim.
  specialize (Hclaim (folly_ssl.mkClientHelloInfo
                        [(folly_ssl.SHA384, folly_ssl.ECDSA)] [1%N; 10%N])).
  assert (Hex : Sni.requestedCertCrypto
                  (Some (folly_ssl.mkClientHelloInfo
                           [(folly_ssl.SHA384, folly_ssl.ECDSA)] [1%N; 10%N]))
                = SHA1_SIGNATURE) by (vm_compute; reflexivity).
  rewrite Hclaim in Hex; [discriminate|].
  exists folly_ssl.SHA384, folly_ssl.ECDSA. split; [apply list_elem_of_here|done].
Qed.

(** ** Filing one name *)

Ltac unfold_M :=
  unfold mbind, M_bind, bind, mret, M_ret, ret, throw, modify in *.

Lemma prefix_star_dot_true dn :
  char_is dn 0 "*" = true → char_is dn 1 "." = true →
  String.prefix "*." dn = true.
Proof.
  destruct dn as [|c0 [|c1 r]]; simpl; try discriminate.
  unfold char_is. simpl.
  intros ->%Ascii.eqb_eq ->%Ascii.eqb_eq.
  destruct (ascii_dec "*" "*"); [|done].
  destruct (ascii_dec "." "."); [|done].
  by destruct r.
Qed.

Lemma prefix_star_dot_strchr dn :
  String.prefix "*." dn = true → DN.strchr_star dn = true.
Proof.
  destruct dn as [|c0 r]; [discriminate|].
  change (String.prefix "*." (String c0 r))
    with (if ascii_dec "*" c0 then String.prefix "." r else false).
  destruct (ascii_dec "*" c0) as [<-|]; [reflexivity|discriminate].
Qed.

(** A name is either refused whatever the index holds, or filed under its
    stored name. *)
Lemma Impl_dichotomy dn :
  rejected dn
  ∨ ∀ sslCtx crypto defaultFallback s,
      insertSSLCtxByDomainNameImpl dn sslCtx crypto defaultFallback s
      = (Returned tt, fileName (storedName dn) sslCtx crypto defaultFallback s).
Proof.
  unfold rejected, insertSSLCtxByDomainNameImpl, storedName.
  destruct ((2 <? String.length dn)%nat && char_is dn 0 "*") eqn:H1.
  - destruct (char_is dn 1 ".") eqn:H2; [|left; by eexists].
    unfold_M.
    destruct ((String.length (DN.substr_from 1 dn) =? 1)%nat
              && char_is (DN.substr_from 1 dn) 0 ".") eqn:H3; [left; by eexists|].
    destruct (DN.strchr_star (DN.substr_from 1 dn)) eqn:H4; [left; by eexists|].
    right. intros.
    apply andb_true_iff in H1 as [_ H1].
    rewrite (prefix_star_dot_true dn H1 H2).
    unfold fileName. by destruct (decide (crypto ≠ BEST_AVAILABLE)).
  - unfold_M.
    destruct ((String.length dn =? 1)%nat && char_is dn 0 ".") eqn:H3;
      [left; by eexists|].
    destruct (DN.strchr_star dn) eqn:H4; [left; by eexists|].
    right. intros.
    destruct (String.prefix "*." dn) eqn:Hp.
    + apply prefix_star_dot_strchr in Hp. congruence.
    + unfold fileName. by destruct (decide (crypto ≠ BEST_AVAILABLE)).
Qed.

Lemma Impl_returned dn sslCtx crypto defaultFallback s r s' :
  insertSSLCtxByDomainNameImpl dn sslCtx crypto defaultFallback s = (r, s') →
  (r = Returned tt ∧ s' = fileName (storedName dn) sslCtx crypto defaultFallback s)
  ∨ (∃ what, r = Thrown (runtime_error what) ∧ s' = s ∧ rejected dn).
Proof.
  intros Heq. destruct (Impl_dichotomy dn) as [Hrej|Hok].
  - right. destruct Hrej as [e He]. pose proof He as He'.
    specialize (He sslCtx crypto defaultFallback s). rewrite He in Heq.
    simplify_eq. destruct e as [what|what].
    + exists what. split_and!; [done..|]. by exists (runtime_error what).
    + exfalso. revert He'. unfold insertSSLCtxByDomainNameImpl. unfold_M.
      intros He'. specialize (He' sslCtx crypto defaultFallback s').
      repeat match type of He' with
             | context [if ?b then _ else _] => destruct b
             end; simplify_eq.
  - left. rewrite Hok in Heq. by simplify_eq.
Qed.

Lemma insertIntoDnMap_lookup_ne key k sslCtx overwrite s :
  k ≠ key → dnMap_ (insertIntoDnMap key sslCtx overwrite s) !! k = dnMap_ s !! k.
Proof.
  intros Hne. unfold insertIntoDnMap.
  split_insert s key; repeat case_match; simpl; try done;
    by rewrite lookup_insert_ne.
Qed.

Lemma insertIntoDnMap_lookup_overwrite key sslCtx s :
  dnMap_ (insertIntoDnMap key sslCtx true s) !! key = Some sslCtx.
Proof.
  unfold insertIntoDnMap.
  split_insert s key; repeat case_match; simpl; subst; try done;
    by rewrite lookup_insert_eq.
Qed.

Lemma insertIntoDnMap_lookup_keep key sslCtx s :
  dnMap_ (insertIntoDnMap key sslCtx false s) !! key
  = match dnMap_ s !! key with
    | Some c => Some c
    | None => if found key (defaultCtxKeys_ s) then None else Some sslCtx
    end.
Proof.
  unfold insertIntoDnMap.
  split_insert s key; repeat case_match; simpl; subst; try done;
    by rewrite lookup_insert_eq.
Qed.

Lemma insertIntoDnMap_keys_keep key sslCtx s :
  defaultCtxKeys_ (insertIntoDnMap key sslCtx false s) = defaultCtxKeys_ s.
Proof.
  unfold insertIntoDnMap. split_insert s key; by repeat case_match.
Qed.

Lemma insertIntoDnMap_keys_ne key k sslCtx overwrite s :
  k ≠ key →
  k ∈ defaultCtxKeys_ (insertIntoDnMap key sslCtx overwrite s)
  ↔ k ∈ defaultCtxKeys_ s.
Proof.
  intros Hne. unfold insertIntoDnMap.
  split_insert s key; repeat case_match; simpl; try done.
  split; [apply erase_first_subset|by apply erase_first_other].
Qed.

Lemma fileName_lookup_tier name x sslCtx crypto s :
  dnMap_ (fileName name sslCtx crypto false s) !! mkKey x crypto
  = if decide (x = name) then Some sslCtx else dnMap_ s !! mkKey x crypto.
Proof.
  unfold fileName.
  destruct (decide (crypto ≠ BEST_AVAILABLE)) as [Hc|Hc].
  - rewrite insertIntoDnMap_lookup_ne by congruence.
    destruct (decide (x = name)) as [->|Hne].
    + apply insertIntoDnMap_lookup_overwrite.
    + apply insertIntoDnMap_lookup_ne. congruence.
  - destruct (decide (x = name)) as [->|Hne].
    + apply insertIntoDnMap_lookup_overwrite.
    + apply insertIntoDnMap_lookup_ne. congruence.
Qed.

Lemma storedName_wildcard suffix :
  storedName ("*." ++ suffix) = mkDNString ("." ++ suffix).
Proof.
  unfold storedName. simpl.
  destruct (ascii_dec "*" "*"); [|done].
  destruct (ascii_dec "." "."); [|done].
  by destruct suffix.
Qed.

(** ** C2: a wildcard covers exactly one level *)

(** C2.  After the name [*.s] has been filed for a context (under the key
    [.s]), the suffix lookup of a query name at the tier of the certificate
    returns that context exactly when the part of the query name from its
    first dot on is [.s], provided no key led to that context before; in an
    index that held nothing before, the suffix lookup succeeds exactly then.
    So [a.b.c] matches [*.b.c], [a.b.c] does not match [*.c], and [b.c] does
    not match [*.b.c]. *)
Theorem wildcard_one_level :
  (∀ s s' suffix sslCtx crypto,
     (∀ key, dnMap_ s !! key ≠ Some sslCtx) →
     insertSSLCtxByDomainNameImpl ("*." ++ suffix) sslCtx crypto false s
       = (Returned tt, s') →
     ∀ q, getSSLCtxBySuffix (mkKey (mkDNString q) crypto) s' = Some sslCtx
          ↔ suffix_from_first_dot (mkDNString q) = Some (mkDNString ("." ++ suffix)))
  ∧ (∀ strict s' suffix sslCtx crypto,
       insertSSLCtxByDomainNameImpl ("*." ++ suffix) sslCtx crypto false
         (create strict) = (Returned tt, s') →
       ∀ q, is_Some (getSSLCtxBySuffix (mkKey (mkDNString q) crypto) s')
            ↔ suffix_from_first_dot (mkDNString q)
              = Some (mkDNString ("." ++ suffix)))
  ∧ (∀ strict sslCtx crypto,
       let stored name :=
         (insertSSLCtxByDomainNameImpl name sslCtx crypto false (create strict)).2 in
       getSSLCtx (mkKey (mkDNString "a.b.c") crypto) (stored "*.b.c") = Some sslCtx
       ∧ getSSLCtx (mkKey (mkDNString "a.b.c") crypto) (stored "*.c") = None
       ∧ getSSLCtx (mkKey (mkDNString "b.c") crypto) (stored "*.b.c") = None).
Proof.
  split_and!.
  - intros s s' suffix sslCtx crypto Hfresh Himpl q.
    apply Impl_returned in Himpl as [[_ ->]|(? & ? & _)]; [|done].
    rewrite storedName_wildcard.
    unfold getSSLCtxBySuffix, suffix_from_first_dot. simpl.
    destruct (DN.find_first_of_dot (mkDNString q)) as [dot|]; [|done].
    rewrite fileName_lookup_tier.
    destruct (decide (_ = _)) as [->|Hne]; [done|].
    split; [by intros ?%Hfresh|congruence].
  - intros strict s' suffix sslCtx crypto Himpl q.
    apply Impl_returned in Himpl as [[_ ->]|(? & ? & _)]; [|done].
    rewrite storedName_wildcard.
    unfold getSSLCtxBySuffix, suffix_from_first_dot. simpl.
    destruct (DN.find_first_of_dot (mkDNString q)) as [dot|];
      [|split; [by intros [? ?]|done]].
    rewrite fileName_lookup_tier.
    destruct (decide (_ = _)) as [->|Hne]; [done|].
    simpl. rewrite lookup_empty. split; [by intros [? ?]|congruence].
  - intros strict sslCtx crypto stored.
    destruct crypto; vm_compute; done.
Qed.

Lemma wildcard_one_level_witness :
  let s' := (insertSSLCtxByDomainNameImpl "*.example.com" Ex.ctxA BEST_AVAILABLE
               false (create true)).2 in
  getSSLCtxBySuffix (mkKey (mkDNString "Shop.Example.com") BEST_AVAILABLE) s'
    = Some Ex.ctxA.
Proof.
  intros s'.
  refine (proj2 (proj1 wildcard_one_level (create true) s' "example.com"
                   Ex.ctxA BEST_AVAILABLE _ _ "Shop.Example.com") _).
  - intros key. simpl. rewrite lookup_empty. discriminate.
  - vm_compute. reflexivity.
  - vm_compute. reflexivity.
Defined.

(** ** C3: a SHA-1 certificate is also filed as best available *)

Lemma found_iff {A} `{EqDecision A} (x : A) (l l' : list A) :
  (x ∈ l ↔ x ∈ l') → found x l = found x l'.
Proof. apply bool_decide_ext. Qed.

Lemma getSSLCtx_exact key sslCtx s :
  dnMap_ s !! key = Some sslCtx → getSSLCtx key s = Some sslCtx.
Proof. intros H. unfold getSSLCtx, getSSLCtxByExactDomain. by rewrite H. Qed.

(** C3.  When a name of a non-default SHA-1 certificate has been filed, the
    key of the name at [SHA1_SIGNATURE] leads to the certificate's context.
    The key at [BEST_AVAILABLE] is filed without overwrite: if the map had a
    context for it, it still has that one; if it was a default key (which
    leads to the default context), it still is; otherwise it now leads to the
    certificate's context.  Either way the index has it, in the map or among
    the default keys.  With nothing filed for the name at [BEST_AVAILABLE]
    before, the lookup at that tier returns the SHA-1 context; once a
    stronger certificate is filed for the name, it returns the stronger one,
    and the lookup at [SHA1_SIGNATURE] still returns the weaker. *)
Theorem sha1_fallback_keys :
  (∀ s dn sslCtx s',
     insertSSLCtxByDomainNameImpl dn sslCtx SHA1_SIGNATURE false s
       = (Returned tt, s') →
     let main := mkKey (storedName dn) SHA1_SIGNATURE in
     let weak := mkKey (storedName dn) BEST_AVAILABLE in
     dnMap_ s' !! main = Some sslCtx
     ∧ (∀ c0, dnMap_ s !! weak = Some c0 → dnMap_ s' !! weak = Some c0)
     ∧ (dnMap_ s !! weak = None → in_defaultCtxKeys weak s →
        dnMap_ s' !! weak = None ∧ in_defaultCtxKeys weak s')
     ∧ (dnMap_ s !! weak = None → ¬ in_defaultCtxKeys weak s →
        dnMap_ s' !! weak = Some sslCtx)
     ∧ (in_dnMap weak s' ∨ in_defaultCtxKeys weak s'))
  ∧ (∀ s dn dn' weakCtx strongCtx s1 s2,
       storedName dn' = storedName dn →
       let main := mkKey (storedName dn) SHA1_SIGNATURE in
       let weak := mkKey (storedName dn) BEST_AVAILABLE in
       ¬ in_dnMap weak s → ¬ in_defaultCtxKeys weak s →
       insertSSLCtxByDomainNameImpl dn weakCtx SHA1_SIGNATURE false s
         = (Returned tt, s1) →
       insertSSLCtxByDomainNameImpl dn' strongCtx BEST_AVAILABLE false s1
         = (Returned tt, s2) →
       getSSLCtx weak s1 = Some weakCtx
       ∧ getSSLCtx weak s2 = Some strongCtx
       ∧ getSSLCtx main s2 = Some weakCtx).
Proof.
  assert (Hstep : ∀ s name sslCtx,
            let s' := fileName name sslCtx SHA1_SIGNATURE false s in
            let main := mkKey name SHA1_SIGNATURE in
            let weak := mkKey name BEST_AVAILABLE in
            dnMap_ s' !! main = Some sslCtx
            ∧ dnMap_ s' !! weak
              = match dnMap_ s !! weak with
                | Some c => Some c
                | None => if found weak (defaultCtxKeys_ s) then None else Some sslCtx
                end
            ∧ (weak ∈ defaultCtxKeys_ s' ↔ weak ∈ defaultCtxKeys_ s)).
  { intros s name sslCtx. unfold fileName. simpl.
    destruct (decide (SHA1_SIGNATURE ≠ BEST_AVAILABLE)) as [_|[]]; [|done].
    split_and!.
    - rewrite insertIntoDnMap_lookup_ne by done.
      apply insertIntoDnMap_lookup_overwrite.
    - rewrite insertIntoDnMap_lookup_keep.
      rewrite insertIntoDnMap_lookup_ne by done.
      destruct (dnMap_ s !! _); [done|].
      rewrite (found_iff _ _ (defaultCtxKeys_ s)); [done|].
      by apply insertIntoDnMap_keys_ne.
    - rewrite insertIntoDnMap_keys_keep.
      by apply insertIntoDnMap_keys_ne. }
  split.
  - intros s dn sslCtx s' Himpl main weak.
    apply Impl_returned in Himpl as [[_ ->]|(? & ? & _)]; [|done].
    destruct (Hstep s (storedName dn) sslCtx) as (Hmain & Hweak & Hkeys).
    fold main weak in Hmain, Hweak, Hkeys.
    unfold in_dnMap, in_defaultCtxKeys.
    split_and!.
    + done.
    + intros c0 Hc0. by rewrite Hweak, Hc0.
    + intros Hnone Hin. rewrite Hweak, Hnone.
      rewrite (proj2 (found_spec _ _) Hin). by rewrite Hkeys.
    + intros Hnone Hin. rewrite Hweak, Hnone.
      by rewrite (proj2 (found_false _ _) Hin).
    + rewrite Hweak, Hkeys.
      destruct (dnMap_ s !! weak); [by left|].
      destruct (found weak (defaultCtxKeys_ s)) eqn:Hf.
      * right. by apply found_spec.
      * by left.
  - intros s dn dn' weakCtx strongCtx s1 s2 Hname main weak Hm Hd Hs1 Hs2.
    apply Impl_returned in Hs1 as [[_ ->]|(? & ? & _)]; [|done].
    apply Impl_returned in Hs2 as [[_ ->]|(? & ? & _)]; [|done].
    rewrite Hname.
    destruct (Hstep s (storedName dn) weakCtx) as (Hmain & Hweak & _).
    fold main weak in Hmain, Hweak.
    assert (Hnone : dnMap_ s !! weak = None).
    { destruct (dnMap_ s !! weak) eqn:E; [|done]. exfalso. apply Hm. by eexists. }
    rewrite Hnone in Hweak.
    rewrite (proj2 (found_false _ _) Hd) in Hweak.
    split_and!; apply getSSLCtx_exact.
    + done.
    + unfold fileName.
      destruct (decide (BEST_AVAILABLE ≠ BEST_AVAILABLE)) as [?|_]; [done|].
      apply insertIntoDnMap_lookup_overwrite.
    + unfold fileName.
      destruct (decide (BEST_AVAILABLE ≠ BEST_AVAILABLE)) as [?|_]; [done|].
      by rewrite insertIntoDnMap_lookup_ne.
Qed.

Lemma sha1_fallback_keys_witness :
  let s := create true in
  let s1 := (insertSSLCtxByDomainNameImpl "legacy.example.com" Ex.ctxWeak
               SHA1_SIGNATURE false s).2 in
  let s2 := (insertSSLCtxByDomainNameImpl "Legacy.Example.Com" Ex.ctxB
               BEST_AVAILABLE false s1).2 in
  getSSLCtx (mkKey (storedName "legacy.example.com") BEST_AVAILABLE) s1
    = Some Ex.ctxWeak
  ∧ getSSLCtx (mkKey (storedName "legacy.example.com") BEST_AVAILABLE) s2
    = Some Ex.ctxB
  ∧ getSSLCtx (mkKey (storedName "legacy.example.com") SHA1_SIGNATURE) s2
    = Some Ex.ctxWeak.
Proof.
  intros s s1 s2.
  refine (proj2 sha1_fallback_keys s "legacy.example.com" "Legacy.Example.Com"
            Ex.ctxWeak Ex.ctxB s1 s2 _ _ _ _ _).
  - vm_compute. reflexivity.
  - intros [c Hc]. simpl in Hc. rewrite lookup_empty in Hc. discriminate.
  - unfold in_defaultCtxKeys. simpl. apply not_elem_of_nil.
  - vm_compute. reflexivity.
  - vm_compute. reflexivity.
Defined.

(** ** Filing the names of a certificate *)

Lemma insertIntoDnMap_strict key sslCtx overwrite s :
  strict_ (insertIntoDnMap key sslCtx overwrite s) = strict_ s.
Proof. unfold insertIntoDnMap. split_insert s key; by repeat case_match. Qed.

Lemma insertIntoDefaultKeys_strict key overwrite s :
  strict_ (insertIntoDefaultKeys key overwrite s) = strict_ s.
Proof. unfold insertIntoDefaultKeys. split_insert s key; by repeat case_match. Qed.

Lemma fileName_strict name sslCtx crypto defaultFallback s :
  strict_ (fileName name sslCtx crypto defaultFallback s) = strict_ s.
Proof.
  unfold fileName.
  destruct (decide (crypto ≠ BEST_AVAILABLE)), defaultFallback;
    by rewrite ?insertIntoDnMap_strict, ?insertIntoDefaultKeys_strict.
Qed.

(** In strict mode a refused name makes the call throw; otherwise the name
    is filed, or dropped when it is refused in lax mode. *)
Lemma insertSSLCtxByDomainName_cases dn sslCtx crypto defaultFallback s :
  (rejected dn
   ∧ ∃ what,
       insertSSLCtxByDomainName dn sslCtx crypto defaultFallback s
       = (if strict_ s then Thrown (runtime_error what) else Returned tt, s))
  ∨ (¬ rejected dn
     ∧ insertSSLCtxByDomainName dn sslCtx crypto defaultFallback s
       = (Returned tt, fileName (storedName dn) sslCtx crypto defaultFallback s)).
Proof.
  unfold insertSSLCtxByDomainName.
  destruct (insertSSLCtxByDomainNameImpl dn sslCtx crypto defaultFallback s)
    as [r s'] eqn:Himpl.
  pose proof Himpl as Himpl'.
  apply Impl_returned in Himpl as [[-> ->]|(what & -> & -> & Hrej)].
  - right. split; [|done]. intros [e He].
    specialize (He sslCtx crypto defaultFallback s). congruence.
  - left. split; [done|]. exists what. by destruct (strict_ s).
Qed.

Lemma for_each_names_strict names sslCtx crypto defaultFallback s name :
  strict_ s = true → name ∈ names → rejected name →
  ∃ e s',
    for_each (λ n, insertSSLCtxByDomainName n sslCtx crypto defaultFallback)
      names s = (Thrown e, s').
Proof.
  intros Hstrict Hin Hrej. revert s Hstrict.
  induction names as [|x names IH]; intros s Hstrict; [by inversion Hin|].
  simpl. unfold_M.
  destruct (insertSSLCtxByDomainName_cases x sslCtx crypto defaultFallback s)
    as [[_ [what ->]]|[Hok ->]].
  - rewrite Hstrict. by do 2 eexists.
  - apply elem_of_cons in Hin as [->|Hin]; [done|].
    apply IH; [done|]. by rewrite fileName_strict.
Qed.

Lemma insert_strict_rejected sslCtx defaultFallback s :
  strict_ s = true → has_rejected_name sslCtx →
  ∃ e s', insert sslCtx defaultFallback s = (Thrown e, s').
Proof.
  intros Hstrict (x509 & cn & Hx & Hcn & Hstar & Hbad).
  unfold insert. rewrite Hx, Hcn.
  destruct ((String.length cn =? 1)%nat && char_is cn 0 "*") eqn:Hs.
  { exfalso. apply Hstar. apply andb_true_iff in Hs as [Hl Hc].
    destruct cn as [|c0 [|]]; try discriminate.
    unfold char_is in Hc. simpl in Hc. by apply Ascii.eqb_eq in Hc as ->. }
  unfold_M.
  match goal with
  | |- context [insertSSLCtxByDomainName cn sslCtx ?c _] => set (crypto := c)
  end.
  destruct (insertSSLCtxByDomainName_cases cn sslCtx crypto defaultFallback s)
    as [[_ [what ->]]|[Hok ->]].
  { rewrite Hstrict. by do 2 eexists. }
  destruct Hbad as [?|(altNames & name & Halt & Hin & Hrej)]; [done|].
  rewrite Halt.
  destruct (for_each_names_strict altNames sslCtx crypto defaultFallback
              (fileName (storedName cn) sslCtx crypto defaultFallback s) name)
    as (e & s' & ->); [by rewrite fileName_strict|done..|].
  by do 2 eexists.
Qed.

Lemma insertSSLCtxByDomainName_outcome dn sslCtx crypto defaultFallback s r s' :
  insertSSLCtxByDomainName dn sslCtx crypto defaultFallback s = (r, s') →
  strict_ s' = strict_ s ∧ r ≠ Aborted.
Proof.
  destruct (insertSSLCtxByDomainName_cases dn sslCtx crypto defaultFallback s)
    as [[_ [what ->]]|[_ ->]]; intros [= <- <-].
  - by destruct (strict_ s).
  - by rewrite fileName_strict.
Qed.

Lemma for_each_names_outcome names sslCtx crypto defaultFallback s r s' :
  for_each (λ n, insertSSLCtxByDomainName n sslCtx crypto defaultFallback)
    names s = (r, s') →
  strict_ s' = strict_ s ∧ r ≠ Aborted.
Proof.
  revert s. induction names as [|x names IH]; intros s; simpl.
  - by intros [= <- <-].
  - unfold_M.
    destruct (insertSSLCtxByDomainName x sslCtx crypto defaultFallback s)
      as [r1 s1] eqn:H1.
    apply insertSSLCtxByDomainName_outcome in H1 as [Hs1 Hr1].
    destruct r1 as [[]|e|]; [|by intros [= <- <-]|done].
    intros [Hs' Hr]%IH. split; [congruence|done].
Qed.

Lemma insert_outcome sslCtx defaultFallback s r s' :
  insert sslCtx defaultFallback s = (r, s') →
  strict_ s' = strict_ s ∧ r ≠ Aborted.
Proof.
  unfold insert.
  destruct (ctx_x509 sslCtx) as [x509|]; [|by intros [= <- <-]].
  destruct (x509_commonName x509) as [cn|]; [|by intros [= <- <-]].
  destruct ((String.length cn =? 1)%nat && char_is cn 0 "*").
  { destruct (negb defaultFallback); by intros [= <- <-]. }
  unfold_M.
  match goal with
  | |- context [insertSSLCtxByDomainName cn sslCtx ?c _] => set (crypto := c)
  end.
  destruct (insertSSLCtxByDomainName cn sslCtx crypto defaultFallback s)
    as [r1 s1] eqn:H1.
  apply insertSSLCtxByDomainName_outcome in H1 as [Hs1 Hr1].
  destruct r1 as [[]|e|]; [|by intros [= <- <-]|done].
  destruct (x509_subjectAltName x509) as [altNames|].
  - destruct (for_each _ altNames s1) as [r2 s2] eqn:H2.
    apply for_each_names_outcome in H2 as [Hs2 Hr2].
    destruct r2 as [[]|e|]; [|intros [= <- <-]; split; [congruence|done]|done].
    destruct defaultFallback; intros [= <- <-]; simpl; split; congruence.
  - destruct defaultFallback; intros [= <- <-]; simpl; split; congruence.
Qed.

(** ** C5: a reset that fails leaves the manager as it was *)

Section Reset.

Variable FOLLY_OPENSSL_HAS_ALPN : bool.
Variable FOLLY_OPENSSL_HAS_SNI : bool.
Variable setupContext :
  SSLContextConfig → option TLSTicketKeySeeds → exn + ServerSSLContext.

Lemma ctxSetupByOpensslFeature_outcome sslCtx cfg newDefault r newDefault' :
  ctxSetupByOpensslFeature FOLLY_OPENSSL_HAS_ALPN FOLLY_OPENSSL_HAS_SNI
    sslCtx cfg newDefault = (r, newDefault') →
  r ≠ Aborted.
Proof.
  unfold ctxSetupByOpensslFeature.
  repeat case_match; by intros [= <- <-].
Qed.

Lemma addOne_outcome cfg seeds s d r s' d' :
  SslContexts_addSSLContextConfig FOLLY_OPENSSL_HAS_ALPN FOLLY_OPENSSL_HAS_SNI setupContext cfg seeds s d = (r, s', d') →
  strict_ s' = strict_ s ∧ r ≠ Aborted.
Proof.
  unfold SslContexts_addSSLContextConfig.
  destruct (setupContext cfg seeds) as [e|sslCtx]; [by intros [= <- <- <-]|].
  destruct (ctxSetupByOpensslFeature _ _ sslCtx cfg d) as [r1 d1] eqn:H1.
  apply ctxSetupByOpensslFeature_outcome in H1.
  destruct r1 as [[]|e|]; [|by intros [= <- <- <-]|done].
  destruct (insert sslCtx (isDefault cfg) s) as [r2 s2] eqn:H2.
  apply insert_outcome in H2 as [Hs2 Hr2].
  destruct r2 as [[]|e|]; [| |done]; by intros [= <- <- <-].
Qed.

Lemma addOne_strict_rejected cfg seeds s d sslCtx :
  strict_ s = true →
  setupContext cfg seeds = inr sslCtx → has_rejected_name sslCtx →
  ∃ e s' d', SslContexts_addSSLContextConfig FOLLY_OPENSSL_HAS_ALPN FOLLY_OPENSSL_HAS_SNI setupContext cfg seeds s d = (Thrown e, s', d').
Proof.
  intros Hstrict Hsetup Hbad.
  unfold SslContexts_addSSLContextConfig. rewrite Hsetup.
  destruct (ctxSetupByOpensslFeature _ _ sslCtx cfg d) as [r1 d1] eqn:H1.
  apply ctxSetupByOpensslFeature_outcome in H1.
  destruct r1 as [[]|e|]; [|by do 3 eexists|done].
  destruct (insert_strict_rejected sslCtx (isDefault cfg) s Hstrict Hbad)
    as (e & s' & ->).
  by do 3 eexists.
Qed.

Lemma addAll_strict_rejected cfgs seeds s d cfg sslCtx :
  strict_ s = true → cfg ∈ cfgs →
  setupContext cfg seeds = inr sslCtx → has_rejected_name sslCtx →
  ∃ e s' d', addAll FOLLY_OPENSSL_HAS_ALPN FOLLY_OPENSSL_HAS_SNI setupContext cfgs seeds s d = (Thrown e, s', d').
Proof.
  intros Hstrict Hin Hsetup Hbad. revert s d Hstrict.
  induction cfgs as [|c cfgs IH]; intros s d Hstrict; [by inversion Hin|].
  simpl.
  destruct (SslContexts_addSSLContextConfig FOLLY_OPENSSL_HAS_ALPN FOLLY_OPENSSL_HAS_SNI setupContext c seeds s d) as [[r1 s1] d1] eqn:H1.
  pose proof (addOne_outcome _ _ _ _ _ _ _ H1) as [Hs1 Hr1].
  destruct r1 as [[]|e|]; [|by do 3 eexists|done].
  apply elem_of_cons in Hin as [->|Hin].
  - destruct (addOne_strict_rejected c seeds s d sslCtx Hstrict Hsetup Hbad)
      as (e & s' & d' & He). congruence.
  - apply IH; [done|congruence].
Qed.

(** C5.  When [resetSSLContextConfigs] does not return, the manager is what
    it was before the call, index and default context included.  In strict
    mode this is what happens as soon as the certificate of one of the
    configurations carries a name that the index refuses: the call throws
    and the manager is unchanged. *)
Theorem reset_strict_atomic
    (ctxConfigs : list SSLContextConfig) (ticketSeeds : option TLSTicketKeySeeds)
    (m : SSLContextManager) :
  (∀ r m', resetSSLContextConfigs FOLLY_OPENSSL_HAS_ALPN FOLLY_OPENSSL_HAS_SNI setupContext ctxConfigs ticketSeeds m = (r, m') → r ≠ Returned tt →
     m' = m ∧ contexts_ m' = contexts_ m ∧ defaultCtx_ m' = defaultCtx_ m)
  ∧ (mgr_strict_ m = true →
     ∀ cfg sslCtx,
       cfg ∈ ctxConfigs →
       setupContext cfg (resetSeeds ticketSeeds m) = inr sslCtx →
       has_rejected_name sslCtx →
       ∃ e, resetSSLContextConfigs FOLLY_OPENSSL_HAS_ALPN FOLLY_OPENSSL_HAS_SNI setupContext ctxConfigs ticketSeeds m = (Thrown e, m)).
Proof.
  split.
  - intros r m'. unfold resetSSLContextConfigs.
    destruct (addAll _ _ _ _ _ _ _) as [[r1 s1] d1].
    destruct r1 as [[]|e|]; intros [= <- <-]; done.
  - intros Hstrict cfg sslCtx Hin Hsetup Hbad.
    unfold resetSSLContextConfigs.
    assert (Hseeds :
      Some (match ticketSeeds with
            | Some t => t
            | None => match ticketSeeds with
                      | None => getTicketKeys (contexts_ m)
                      | Some _ => noSeeds
                      end
            end) = resetSeeds ticketSeeds m) by (by destruct ticketSeeds).
    rewrite Hseeds.
    destruct (addAll_strict_rejected ctxConfigs (resetSeeds ticketSeeds m)
                (create (mgr_strict_ m)) None cfg sslCtx)
      as (e & s' & d' & ->); [done..|].
    by exists e.
Qed.

End Reset.

Lemma reset_strict_atomic_witness :
  let setup := λ (_ : SSLContextConfig) (_ : option TLSTicketKeySeeds),
                 (inr Ex.ctxBad : exn + ServerSSLContext) in
  let m := {| contexts_ := (insert Ex.ctxA false (create true)).2;
              defaultCtx_ := Some Ex.ctxB; mgr_strict_ := true |} in
  ∃ e, resetSSLContextConfigs true true setup [mkConfig 1 false []] None m
       = (Thrown e, m).
Proof.
  intros setup m.
  refine (proj2 (reset_strict_atomic true true setup [mkConfig 1 false []] None m)
            eq_refl (mkConfig 1 false []) Ex.ctxBad _ eq_refl _).
  - apply list_elem_of_here.
  - exists (Ex.cert "www.example.com" (Some ["a*b.example.com"])
              Ex.NID_sha256WithRSAEncryption), "www.example.com".
    split_and!; [reflexivity|reflexivity|discriminate|].
    right. exists ["a*b.example.com"], "a*b.example.com".
    split_and!; [reflexivity|apply list_elem_of_here|].
    eexists. intros sslCtx crypto defaultFallback s. reflexivity.
Defined.

(** ** The run of [insert] *)

Lemma is_star_spec cn :
  (String.length cn =? 1)%nat && char_is cn 0 "*" = true ↔ cn = "*".
Proof.
  split.
  - intros [Hl Hc]%andb_true_iff.
    destruct cn as [|c0 [|]]; try discriminate.
    unfold char_is in Hc. simpl in Hc. by apply Ascii.eqb_eq in Hc as ->.
  - by intros ->.
Qed.

Lemma for_each_names_run names sslCtx crypto defaultFallback s r s' :
  for_each (λ n, insertSSLCtxByDomainName n sslCtx crypto defaultFallback)
    names s = (r, s') →
  (r = Returned tt
   ∧ filed sslCtx crypto defaultFallback names s s'
   ∧ (strict_ s = true → Forall (λ n, ¬ rejected n) names))
  ∨ (∃ e, r = Thrown e ∧ strict_ s = true).
Proof.
  revert s. induction names as [|x names IH]; intros s; simpl.
  { intros [= <- <-]. left. split_and!; [done|constructor|by constructor]. }
  unfold_M.
  destruct (insertSSLCtxByDomainName_cases x sslCtx crypto defaultFallback s)
    as [[Hrej [what ->]]|[Hok ->]].
  - destruct (strict_ s) eqn:Hstrict.
    + intros [= <- <-]. right. by eexists.
    + intros [(-> & Hf & Hall)|(e & -> & Hs)]%IH; [|congruence].
      left. split_and!; [done|by apply filed_skip|done].
  - intros [(-> & Hf & Hall)|(e & -> & Hs)]%IH.
    + left. split_and!; [done|by apply filed_cons|].
      intros Hs. constructor; [done|]. apply Hall. by rewrite fileName_strict.
    + right. exists e. split; [done|]. by rewrite fileName_strict in Hs.
Qed.

Lemma for_each_names_returns names sslCtx crypto defaultFallback s s' :
  filed sslCtx crypto defaultFallback names s s' →
  (strict_ s = true → Forall (λ n, ¬ rejected n) names) →
  for_each (λ n, insertSSLCtxByDomainName n sslCtx crypto defaultFallback)
    names s = (Returned tt, s').
Proof.
  induction 1 as [s|x names s s' Hrej _ IH|x names s s' Hok _ IH];
    intros Hall; simpl; [done|..]; unfold_M.
  - destruct (insertSSLCtxByDomainName_cases x sslCtx crypto defaultFallback s)
      as [[_ [what ->]]|[Hok _]]; [|done].
    destruct (strict_ s) eqn:Hstrict.
    + specialize (Hall eq_refl). by inversion Hall.
    + apply IH. intros ?. congruence.
  - destruct (insertSSLCtxByDomainName_cases x sslCtx crypto defaultFallback s)
      as [[Hrej _]|[_ ->]]; [done|].
    apply IH. rewrite fileName_strict. intros Hs.
    specialize (Hall Hs). by inversion Hall.
Qed.

Lemma filed_strict sslCtx crypto defaultFallback names s s' :
  filed sslCtx crypto defaultFallback names s s' → strict_ s' = strict_ s.
Proof.
  induction 1 as [s|x names s s' _ _ IH|x names s s' _ _ IH]; [done..|].
  by rewrite IH, fileName_strict.
Qed.

(** A property that filing a name keeps is kept by filing a list. *)
Lemma filed_inv (I : SslContexts → Prop) sslCtx crypto defaultFallback names s s' :
  (∀ name s0, I s0 → I (fileName name sslCtx crypto defaultFallback s0)) →
  filed sslCtx crypto defaultFallback names s s' → I s → I s'.
Proof.
  intros Hstep. induction 1 as [s|x names s s' _ _ IH|x names s s' _ _ IH]; auto.
Qed.

Lemma insert_run sslCtx defaultFallback s r s' :
  insert sslCtx defaultFallback s = (r, s') →
  (s' = s
   ∧ ((∃ e, r = Thrown e)
      ∨ (r = Returned tt ∧ defaultFallback = true
         ∧ ∃ x509, ctx_x509 sslCtx = Some x509
                   ∧ x509_commonName x509 = Some "*")))
  ∨ (∃ e, r = Thrown e ∧ strict_ s = true)
  ∨ (∃ x509 cn s2,
       ctx_x509 sslCtx = Some x509 ∧ x509_commonName x509 = Some cn
       ∧ cn ≠ "*" ∧ r = Returned tt
       ∧ filed sslCtx (certCryptoOf x509) defaultFallback (certNames cn x509) s s2
       ∧ (strict_ s = true → Forall (λ n, ¬ rejected n) (certNames cn x509))
       ∧ s' = finishInsert sslCtx defaultFallback cn s2).
Proof.
  unfold insert.
  destruct (ctx_x509 sslCtx) as [x509|] eqn:Hx; [|intros [= <- <-]; left; eauto].
  destruct (x509_commonName x509) as [cn|] eqn:Hc; [|intros [= <- <-]; left; eauto].
  destruct ((String.length cn =? 1)%nat && char_is cn 0 "*") eqn:Hstar.
  { apply is_star_spec in Hstar as ->.
    destruct defaultFallback; intros [= <- <-]; left; [|by eauto].
    split; [done|]. right. split_and!; [done..|]. by exists x509. }
  assert (cn ≠ "*") as Hcn.
  { intros Heq%is_star_spec. congruence. }
  intros Hrun.
  revert Hrun. unfold_M. fold (certCryptoOf x509).
  destruct (insertSSLCtxByDomainName cn sslCtx (certCryptoOf x509)
              defaultFallback s) as [r1 s1] eqn:H1.
  assert (Hnames :
    ∀ r2 s2,
      (match r1 with
       | Returned _ =>
           for_each (λ n, insertSSLCtxByDomainName n sslCtx (certCryptoOf x509)
                            defaultFallback)
             (default [] (x509_subjectAltName x509)) s1
       | Thrown e => (Thrown e, s1)
       | Aborted => (Aborted, s1)
       end) = (r2, s2) →
      for_each (λ n, insertSSLCtxByDomainName n sslCtx (certCryptoOf x509)
                       defaultFallback)
        (certNames cn x509) s = (r2, s2)).
  { intros r2 s2. unfold certNames. simpl. unfold_M. by rewrite H1. }
  destruct r1 as [[]|e|].
  - destruct (for_each _ (default [] (x509_subjectAltName x509)) s1)
      as [r2 s2] eqn:H2.
    specialize (Hnames _ _ eq_refl).
    assert (Hsame :
      match x509_subjectAltName x509 with
      | Some altNames =>
          for_each (λ name, insertSSLCtxByDomainName name sslCtx
                              (certCryptoOf x509) defaultFallback) altNames
      | None => λ s0, (Returned tt, s0)
      end s1 = (r2, s2)).
    { rewrite <- H2. by destruct (x509_subjectAltName x509). }
    rewrite Hsame.
    apply for_each_names_run in Hnames as [(-> & Hf & Hall)|(e & -> & Hs)].
    + intros Hfin. right. right. exists x509, cn, s2.
      unfold finishInsert.
      split_and!; try done; destruct defaultFallback; by simplify_eq.
    + intros [= <- <-]. right. left. eauto.
  - specialize (Hnames _ _ eq_refl).
    apply for_each_names_run in Hnames as [(? & _)|(e' & _ & Hs)]; [done|].
    intros [= <- <-]. right. left. eauto.
  - apply insertSSLCtxByDomainName_outcome in H1 as [_ ?]. done.
Qed.

(** ** Contexts that the map leads to *)

Lemma insertIntoDnMap_ctxs key sslCtx overwrite s :
  ctxs_ (insertIntoDnMap key sslCtx overwrite s) = ctxs_ s.
Proof. unfold insertIntoDnMap. split_insert s key; by repeat case_match. Qed.

Lemma insertIntoDefaultKeys_ctxs key overwrite s :
  ctxs_ (insertIntoDefaultKeys key overwrite s) = ctxs_ s.
Proof. unfold insertIntoDefaultKeys. split_insert s key; by repeat case_match. Qed.

Lemma insertIntoDnMap_lookup_inv key sslCtx overwrite s k x :
  dnMap_ (insertIntoDnMap key sslCtx overwrite s) !! k = Some x →
  x = sslCtx ∨ dnMap_ s !! k = Some x.
Proof.
  destruct (decide (k = key)) as [->|Hne].
  - destruct overwrite.
    + rewrite insertIntoDnMap_lookup_overwrite. intros [= <-]. by left.
    + rewrite insertIntoDnMap_lookup_keep.
      destruct (dnMap_ s !! key); [by right|].
      destruct (found key (defaultCtxKeys_ s)); [done|].
      intros [= <-]. by left.
  - rewrite insertIntoDnMap_lookup_ne by done. by right.
Qed.

Lemma insertIntoDefaultKeys_lookup_inv key overwrite s k x :
  dnMap_ (insertIntoDefaultKeys key overwrite s) !! k = Some x →
  dnMap_ s !! k = Some x.
Proof.
  unfold insertIntoDefaultKeys.
  split_insert s key; repeat case_match; simpl; try done;
    by intros [_ ?]%lookup_delete_Some.
Qed.

(** While the names of a certificate are filed, the contexts that the map
    leads to are in the list, the context of a non-default certificate
    excepted: it joins the list last. *)
Lemma fileName_map_in_list name sslCtx crypto defaultFallback s :
  (∀ k x, dnMap_ s !! k = Some x →
          x ∈ ctxs_ s ∨ (defaultFallback = false ∧ x = sslCtx)) →
  ∀ k x, dnMap_ (fileName name sslCtx crypto defaultFallback s) !! k = Some x →
         x ∈ ctxs_ (fileName name sslCtx crypto defaultFallback s)
         ∨ (defaultFallback = false ∧ x = sslCtx).
Proof.
  intros HQ k x. unfold fileName.
  destruct defaultFallback, (decide (crypto ≠ BEST_AVAILABLE));
    rewrite ?insertIntoDnMap_ctxs, ?insertIntoDefaultKeys_ctxs; intros Hk.
  - eapply HQ. by do 2 apply insertIntoDefaultKeys_lookup_inv in Hk.
  - eapply HQ. by apply insertIntoDefaultKeys_lookup_inv in Hk.
  - apply insertIntoDnMap_lookup_inv in Hk as [->|Hk]; [by right|].
    apply insertIntoDnMap_lookup_inv in Hk as [->|Hk]; [by right|]. eauto.
  - apply insertIntoDnMap_lookup_inv in Hk as [->|Hk]; [by right|]. eauto.
Qed.

Lemma insert_map_in_list sslCtx defaultFallback s r s' :
  map_in_list s →
  insert sslCtx defaultFallback s = (r, s') →
  r = Returned tt ∨ strict_ s = false →
  map_in_list s'.
Proof.
  intros Hs Hrun Hr.
  apply insert_run in Hrun
    as [[-> _]|[(e & -> & Hstrict)|(x509 & cn & s2 & _ & _ & _ & _ & Hf & _ & ->)]].
  - done.
  - destruct Hr; congruence.
  - pose proof
      (filed_inv
         (λ s0, ∀ k x, dnMap_ s0 !! k = Some x →
                       x ∈ ctxs_ s0 ∨ (defaultFallback = false ∧ x = sslCtx))
         sslCtx (certCryptoOf x509) defaultFallback (certNames cn x509) s s2
         (λ name s0,
            fileName_map_in_list name sslCtx (certCryptoOf x509)
              defaultFallback s0)
         Hf (λ k x Hk, or_introl (Hs k x Hk))) as HQ.
    clear Hf. rename HQ into Hf.
    intros k x Hk. unfold finishInsert in *.
    destruct defaultFallback; simpl in *.
    + by destruct (Hf k x Hk) as [?|[? _]].
    + apply elem_of_app. destruct (Hf k x Hk) as [?|[_ ->]]; [by left|right].
      apply list_elem_of_here.
Qed.

(** ** What filing a name leaves behind *)

Lemma insertIntoDefaultKeys_keys_mono key overwrite s k :
  k ∈ defaultCtxKeys_ s → k ∈ defaultCtxKeys_ (insertIntoDefaultKeys key overwrite s).
Proof.
  unfold insertIntoDefaultKeys.
  split_insert s key; repeat case_match; simpl; try done; set_solver.
Qed.

Lemma insertIntoDefaultKeys_overwrite key s :
  dnMap_ (insertIntoDefaultKeys key true s) !! key = None
  ∧ key ∈ defaultCtxKeys_ (insertIntoDefaultKeys key true s).
Proof.
  unfold insertIntoDefaultKeys.
  split_insert s key; simpl; rewrite ?lookup_delete_eq; split; try done; set_solver.
Qed.

Lemma insertIntoDefaultKeys_none key overwrite s k :
  dnMap_ s !! k = None → dnMap_ (insertIntoDefaultKeys key overwrite s) !! k = None.
Proof.
  intros Hk.
  destruct (dnMap_ (insertIntoDefaultKeys key overwrite s) !! k) eqn:E; [|done].
  apply insertIntoDefaultKeys_lookup_inv in E. congruence.
Qed.

Lemma insertIntoDefaultKeys_held key overwrite s k :
  in_dnMap k s ∨ in_defaultCtxKeys k s →
  in_dnMap k (insertIntoDefaultKeys key overwrite s)
  ∨ in_defaultCtxKeys k (insertIntoDefaultKeys key overwrite s).
Proof.
  unfold in_dnMap, in_defaultCtxKeys.
  intros [Hk|Hk]; [|right; by apply insertIntoDefaultKeys_keys_mono].
  unfold insertIntoDefaultKeys.
  split_insert s key; repeat case_match; simpl; try (by left).
  all: destruct (decide (k = key)) as [->|Hne]; [right; set_solver|].
  all: left; by rewrite lookup_delete_ne.
Qed.

Lemma insertIntoDefaultKeys_holds key overwrite s :
  in_dnMap key (insertIntoDefaultKeys key overwrite s)
  ∨ in_defaultCtxKeys key (insertIntoDefaultKeys key overwrite s).
Proof.
  unfold in_dnMap, in_defaultCtxKeys, insertIntoDefaultKeys.
  split_insert s key; repeat case_match; simpl;
    try (right; set_solver); left; by rewrite Hm.
Qed.

Lemma insertIntoDnMap_same key sslCtx overwrite s k :
  dnMap_ s !! k = Some sslCtx →
  dnMap_ (insertIntoDnMap key sslCtx overwrite s) !! k = Some sslCtx.
Proof.
  intros Hk. destruct (decide (k = key)) as [->|Hne].
  - destruct overwrite.
    + apply insertIntoDnMap_lookup_overwrite.
    + by rewrite insertIntoDnMap_lookup_keep, Hk.
  - by rewrite insertIntoDnMap_lookup_ne.
Qed.

Lemma insertIntoDnMap_held key sslCtx overwrite s k :
  in_dnMap k s ∨ in_defaultCtxKeys k s →
  in_dnMap k (insertIntoDnMap key sslCtx overwrite s)
  ∨ in_defaultCtxKeys k (insertIntoDnMap key sslCtx overwrite s).
Proof.
  unfold in_dnMap, in_defaultCtxKeys.
  destruct (decide (k = key)) as [->|Hne].
  - intros Hk. destruct overwrite.
    + left. by rewrite insertIntoDnMap_lookup_overwrite.
    + rewrite insertIntoDnMap_lookup_keep, insertIntoDnMap_keys_keep.
      destruct (dnMap_ s !! key) eqn:Hm; [by left|].
      destruct (found key (defaultCtxKeys_ s)) eqn:Hf; [|by left].
      right. by apply found_spec.
  - rewrite insertIntoDnMap_lookup_ne by done.
    by rewrite insertIntoDnMap_keys_ne by done.
Qed.

Lemma insertIntoDnMap_holds key sslCtx overwrite s :
  in_dnMap key (insertIntoDnMap key sslCtx overwrite s)
  ∨ in_defaultCtxKeys key (insertIntoDnMap key sslCtx overwrite s).
Proof.
  unfold in_dnMap, in_defaultCtxKeys.
  destruct overwrite.
  - left. by rewrite insertIntoDnMap_lookup_overwrite.
  - rewrite insertIntoDnMap_lookup_keep, insertIntoDnMap_keys_keep.
    destruct (dnMap_ s !! key) eqn:Hm; [by left|].
    destruct (found key (defaultCtxKeys_ s)) eqn:Hf; [|by left].
    right. by apply found_spec.
Qed.

Lemma fileName_settles name sslCtx crypto defaultFallback s :
  settled sslCtx crypto defaultFallback name
    (fileName name sslCtx crypto defaultFallback s).
Proof.
  unfold settled, fileName.
  destruct defaultFallback, (decide (crypto ≠ BEST_AVAILABLE)) as [Hc|Hc];
    (split; [|try done]).
  - destruct (insertIntoDefaultKeys_overwrite (mkKey name crypto) s) as [Hn Hd].
    split; [by apply insertIntoDefaultKeys_none|
            by apply insertIntoDefaultKeys_keys_mono].
  - intros _. apply insertIntoDefaultKeys_holds.
  - apply insertIntoDefaultKeys_overwrite.
  - apply insertIntoDnMap_same, insertIntoDnMap_lookup_overwrite.
  - intros _. apply insertIntoDnMap_holds.
  - apply insertIntoDnMap_lookup_overwrite.
Qed.

Lemma fileName_keeps_settled name name' sslCtx crypto defaultFallback s :
  settled sslCtx crypto defaultFallback name s →
  settled sslCtx crypto defaultFallback name
    (fileName name' sslCtx crypto defaultFallback s).
Proof.
  unfold settled, fileName. intros [Hmain Hweak].
  destruct defaultFallback, (decide (crypto ≠ BEST_AVAILABLE)) as [Hc|Hc];
    (split; [|try done]).
  - destruct Hmain as [Hn Hd].
    split; [by do 2 apply insertIntoDefaultKeys_none|
            by do 2 apply insertIntoDefaultKeys_keys_mono].
  - intros _. do 2 apply insertIntoDefaultKeys_held. auto.
  - destruct Hmain as [Hn Hd].
    split; [by apply insertIntoDefaultKeys_none|
            by apply insertIntoDefaultKeys_keys_mono].
  - by do 2 apply insertIntoDnMap_same.
  - intros _. do 2 apply insertIntoDnMap_held. auto.
  - by apply insertIntoDnMap_same.
Qed.

Lemma filed_settles sslCtx crypto defaultFallback names s s' :
  filed sslCtx crypto defaultFallback names s s' →
  ∀ n, n ∈ names → ¬ rejected n →
       settled sslCtx crypto defaultFallback (storedName n) s'.
Proof.
  induction 1 as [s|x names s s' Hrej Hf IH|x names s s' Hok Hf IH];
    intros n Hin Hn.
  - by inversion Hin.
  - apply elem_of_cons in Hin as [->|Hin]; [done|by apply IH].
  - apply elem_of_cons in Hin as [->|Hin]; [|by apply IH].
    eapply (filed_inv (settled sslCtx crypto defaultFallback (storedName x)));
      [|done|apply fileName_settles].
    intros name s0. apply fileName_keeps_settled.
Qed.

(** ** C7: the map and the list of contexts *)

(** C7, as the code has it.  After calls of [insert] only (for default or
    non-default certificates; in strict mode those that return, in lax mode
    all of them, names that are refused being passed over), every context
    that the map leads to is in the list of contexts.  When the insertion of
    a non-default certificate returns, its context is in the list, and each
    of its names that was accepted leads to it at the tier of the
    certificate; later insertions may overwrite these keys and leave the
    context in the list. *)
Theorem map_in_list_after_inserts (s : SslContexts) :
  filled s →
  map_in_list s
  ∧ ∀ sslCtx s',
      insert sslCtx false s = (Returned tt, s') →
      map_in_list s' ∧ sslCtx ∈ ctxs_ s'
      ∧ ∀ x509 cn name,
          ctx_x509 sslCtx = Some x509 → x509_commonName x509 = Some cn →
          name ∈ certNames cn x509 → ¬ rejected name →
          dnMap_ s' !! mkKey (storedName name) (certCryptoOf x509) = Some sslCtx.
Proof.
  intros Hfilled.
  assert (Hs : map_in_list s).
  { induction Hfilled as [strict|s sslCtx d r s' _ IH Hrun Hr].
    - intros k x Hk. simpl in Hk. by rewrite lookup_empty in Hk.
    - by eapply insert_map_in_list. }
  split; [done|].
  intros sslCtx s' Hrun. split_and!.
  - eapply insert_map_in_list; [done..|by left].
  - apply insert_run in Hrun
      as [[_ [[e ?]|(_ & ? & _)]]|[(e & ? & _)|(x509 & cn & s2 & _ & _ & _ & _ & _ & _ & ->)]];
      try done.
    simpl. apply elem_of_app. right. apply list_elem_of_here.
  - intros x509 cn name Hx Hc Hin Hok.
    apply insert_run in Hrun
      as [[_ [[e ?]|(_ & ? & _)]]
         |[(e & ? & _)|(x509' & cn' & s2 & Hx' & Hc' & _ & _ & Hf & _ & ->)]];
      try done.
    rewrite Hx in Hx'. injection Hx' as <-.
    rewrite Hc in Hc'. injection Hc' as <-.
    by destruct (filed_settles _ _ _ _ _ _ Hf name Hin Hok) as [Hmain _].
Qed.

Lemma map_in_list_after_inserts_witness :
  let s := (insert Ex.ctxSan false (insert Ex.ctxA false (create false)).2).2 in
  map_in_list s.
Proof.
  intros s.
  refine (proj1 (map_in_list_after_inserts s _)).
  apply (filled_insert (insert Ex.ctxA false (create false)).2 Ex.ctxSan false
           (insert Ex.ctxSan false (insert Ex.ctxA false (create false)).2).1).
  - apply (filled_insert (create false) Ex.ctxA false
             (insert Ex.ctxA false (create false)).1).
    + apply filled_create.
    + apply surjective_pairing.
    + right. reflexivity.
  - apply surjective_pairing.
  - right. vm_compute. reflexivity.
Defined.

(** C7, as stated, fails: when a second certificate for [a.com] is inserted,
    the key of [a.com] is overwritten and the context of the first
    certificate stays in the list although no key leads to it any more. *)
Lemma list_in_map_counterexample :
  ¬ (∀ s, driven s → map_in_list s ∧ list_in_map s).
Proof.
  intros Hclaim.
  set (s := (insert Ex.ctxB false (insert Ex.ctxA false (create true)).2).2).
  assert (Hs : driven s).
  { apply (driven_insert (insert Ex.ctxA false (create true)).2 Ex.ctxB
             (insert Ex.ctxB false (insert Ex.ctxA false (create true)).2).1).
    - apply (driven_insert (create true) Ex.ctxA
               (insert Ex.ctxA false (create true)).1).
      + apply driven_create.
      + apply surjective_pairing.
      + left. vm_compute. reflexivity.
    - apply surjective_pairing.
    - left. vm_compute. reflexivity. }
  destruct (Hclaim s Hs) as [_ Hlist].
  destruct (Hlist Ex.ctxA) as [key Hkey].
  { vm_compute. apply list_elem_of_here. }
  assert (Hmap : dnMap_ s = {[Ex.keyA := Ex.ctxB]}) by (vm_compute; reflexivity).
  rewrite Hmap in Hkey.
  apply lookup_singleton_Some in Hkey as [_ Hkey]. discriminate.
Qed.

(** Removal, for the record: when a certificate has two names, removing one
    takes its context out of the list and leaves the other name in the map;
    removing that one then fails the [CHECK]. *)
Example remove_leaves_other_name :
  let s := (insert Ex.ctxSan false (create true)).2 in
  let s' := (removeSSLContextConfig Ex.keyA s).2 in
  (removeSSLContextConfig Ex.keyA s).1 = Returned tt
  ∧ dnMap_ s' !! mkKey (mkDNString "b.com") BEST_AVAILABLE = Some Ex.ctxSan
  ∧ ctxs_ s' = []
  ∧ (removeSSLContextConfig (mkKey (mkDNString "b.com") BEST_AVAILABLE) s').1
    = Aborted.
Proof. vm_compute. done. Qed.

(** ** C9: inserting a certificate twice *)

Lemma rejected_dec dn : rejected dn ∨ ¬ rejected dn.
Proof.
  destruct (Impl_dichotomy dn) as [?|Hok]; [by left|right].
  intros [e He].
  specialize (He Ex.ctxA BEST_AVAILABLE false (create true)).
  rewrite Hok in He. discriminate.
Qed.

(** Filing a settled name again for the same context changes nothing. *)
Lemma fileName_settled_id name sslCtx crypto defaultFallback s :
  settled sslCtx crypto defaultFallback name s →
  fileName name sslCtx crypto defaultFallback s = s.
Proof.
  unfold settled, fileName, in_dnMap, in_defaultCtxKeys. intros [Hmain Hweak].
  assert (Hfirst :
    (if defaultFallback then insertIntoDefaultKeys (mkKey name crypto) true
     else insertIntoDnMap (mkKey name crypto) sslCtx true) s = s).
  { destruct defaultFallback.
    - destruct Hmain as [Hn Hd%found_spec].
      unfold insertIntoDefaultKeys. by rewrite Hn, Hd.
    - unfold insertIntoDnMap. rewrite Hmain.
      by destruct (decide (sslCtx = sslCtx)). }
  rewrite Hfirst.
  destruct (decide (crypto ≠ BEST_AVAILABLE)) as [Hc|Hc]; [|done].
  specialize (Hweak Hc).
  destruct defaultFallback.
  - unfold insertIntoDefaultKeys. simpl.
    destruct (dnMap_ s !! mkKey name BEST_AVAILABLE) eqn:Hm; [done|].
    destruct Hweak as [[? ?]|Hd%found_spec]; [congruence|]. by rewrite Hd.
  - unfold insertIntoDnMap. simpl.
    destruct (dnMap_ s !! mkKey name BEST_AVAILABLE) eqn:Hm;
      [by destruct (decide (_ = _))|].
    destruct Hweak as [[? ?]|Hd%found_spec]; [congruence|]. by rewrite Hd.
Qed.

Lemma filed_settled_id sslCtx crypto defaultFallback names s :
  (∀ n, n ∈ names → ¬ rejected n →
        settled sslCtx crypto defaultFallback (storedName n) s) →
  filed sslCtx crypto defaultFallback names s s.
Proof.
  induction names as [|x names IH]; intros Hset; [constructor|].
  destruct (rejected_dec x) as [Hrej|Hok].
  - apply filed_skip; [done|]. apply IH. intros n Hn. apply Hset. set_solver.
  - apply filed_cons; [done|].
    rewrite fileName_settled_id by (apply Hset; [set_solver|done]).
    apply IH. intros n Hn. apply Hset. set_solver.
Qed.

(** Filing a settled name for another context of the same certificate
    changes at most the context that the name leads to. *)
Lemma fileName_agrees name a b crypto defaultFallback t s :
  same_cert a b →
  settled a crypto defaultFallback name s →
  agrees t s →
  agrees (fileName name b crypto defaultFallback t) s.
Proof.
  unfold settled, in_dnMap, in_defaultCtxKeys.
  intros Hab [Hmain Hweak] Hag.
  assert (Hfirst :
    agrees ((if defaultFallback then insertIntoDefaultKeys (mkKey name crypto) true
             else insertIntoDnMap (mkKey name crypto) b true) t) s).
  { destruct Hag as (HD & Hc & Hdn & Hst & HM).
    destruct defaultFallback.
    - destruct Hmain as [Hn Hd]. rewrite <- HD in Hd. apply found_spec in Hd.
      pose proof (HM (mkKey name crypto)) as Hk. rewrite Hn in Hk.
      inversion Hk as [|Ht]. unfold insertIntoDefaultKeys.
      rewrite <- Ht, Hd. by split_and!.
    - pose proof (HM (mkKey name crypto)) as Hk. rewrite Hmain in Hk.
      inversion Hk as [x y Hxy Ht|]. subst y.
      unfold insertIntoDnMap. rewrite <- Ht.
      destruct (decide (x = b)); [by split_and!|].
      split_and!; try done. simpl. intros key.
      destruct (decide (key = mkKey name crypto)) as [->|Hne].
      + rewrite lookup_insert_eq, Hmain. constructor. by symmetry.
      + rewrite lookup_insert_ne by done. apply HM. }
  unfold fileName.
  destruct (decide (crypto ≠ BEST_AVAILABLE)) as [Hc|Hc]; [|done].
  specialize (Hweak Hc).
  set (t1 := (if defaultFallback then _ else _) t) in *.
  destruct Hfirst as (HD & Hcx & Hdn & Hst & HM).
  assert (Hsame :
    (if defaultFallback
     then insertIntoDefaultKeys (mkKey name BEST_AVAILABLE) false
     else insertIntoDnMap (mkKey name BEST_AVAILABLE) b false) t1 = t1).
  { pose proof (HM (mkKey name BEST_AVAILABLE)) as Hk.
    destruct defaultFallback.
    - unfold insertIntoDefaultKeys. simpl.
      destruct (dnMap_ t1 !! mkKey name BEST_AVAILABLE) eqn:Hm; [done|].
      inversion Hk as [|Hs]. symmetry in Hs.
      destruct Hweak as [[? ?]|Hd]; [congruence|].
      rewrite <- HD in Hd. apply found_spec in Hd. by rewrite Hd.
    - unfold insertIntoDnMap. simpl.
      destruct (dnMap_ t1 !! mkKey name BEST_AVAILABLE) eqn:Hm;
        [by destruct (decide (_ = _))|].
      inversion Hk as [|Hs]. symmetry in Hs.
      destruct Hweak as [[? ?]|Hd]; [congruence|].
      rewrite <- HD in Hd. apply found_spec in Hd. by rewrite Hd. }
  rewrite Hsame. by split_and!.
Qed.

Lemma filed_agrees a b crypto defaultFallback names t s :
  same_cert a b →
  (∀ n, n ∈ names → ¬ rejected n →
        settled a crypto defaultFallback (storedName n) s) →
  agrees t s →
  ∃ t', filed b crypto defaultFallback names t t' ∧ agrees t' s.
Proof.
  intros Hab. revert t.
  induction names as [|x names IH]; intros t Hset Hag.
  { exists t. split; [constructor|done]. }
  destruct (rejected_dec x) as [Hrej|Hok].
  - destruct (IH t) as (t' & Hf & Hag'); [intros n Hn; apply Hset; set_solver|done|].
    exists t'. split; [by apply filed_skip|done].
  - destruct (IH (fileName (storedName x) b crypto defaultFallback t))
      as (t' & Hf & Hag').
    + intros n Hn. apply Hset. set_solver.
    + eapply fileName_agrees; [done| |done]. apply Hset; [set_solver|done].
    + exists t'. split; [by apply filed_cons|done].
Qed.

Lemma insert_returns sslCtx defaultFallback s x509 cn s2 :
  ctx_x509 sslCtx = Some x509 → x509_commonName x509 = Some cn → cn ≠ "*" →
  filed sslCtx (certCryptoOf x509) defaultFallback (certNames cn x509) s s2 →
  (strict_ s = true → Forall (λ n, ¬ rejected n) (certNames cn x509)) →
  insert sslCtx defaultFallback s
  = (Returned tt, finishInsert sslCtx defaultFallback cn s2).
Proof.
  intros Hx Hc Hstar Hf Hall.
  pose proof (for_each_names_returns _ _ _ _ _ _ Hf Hall) as Hrun.
  unfold insert. rewrite Hx, Hc.
  destruct ((String.length cn =? 1)%nat && char_is cn 0 "*") eqn:Hs.
  { by apply is_star_spec in Hs. }
  fold (certCryptoOf x509).
  unfold certNames in Hrun. simpl in Hrun. revert Hrun. unfold_M.
  destruct (insertSSLCtxByDomainName cn sslCtx (certCryptoOf x509)
              defaultFallback s) as [r1 s1].
  destruct r1 as [[]|e|]; [|done..].
  destruct (x509_subjectAltName x509) as [altNames|]; simpl.
  - intros ->. unfold finishInsert. by destruct defaultFallback.
  - intros [= ->]. unfold finishInsert. by destruct defaultFallback.
Qed.

Lemma agrees_getSSLCtx t s key :
  agrees t s →
  option_Forall2 same_cert (getSSLCtx key t) (getSSLCtx key s)
  ∧ isDefaultCtx key t = isDefaultCtx key s.
Proof.
  intros (HD & _ & _ & _ & HM). split.
  - unfold getSSLCtx, getSSLCtxByExactDomain, getSSLCtxBySuffix.
    pose proof (HM key) as Hk.
    inversion Hk as [x y Hxy Hx Hy|Hx Hy]; [by constructor|].
    destruct (DN.find_first_of_dot (dnString key)); [apply HM|constructor].
  - unfold isDefaultCtx, isDefaultCtxSuffix, isDefaultCtxExact. by rewrite HD.
Qed.




(** The entry more can be observed.  After one insertion, removing the key of
    the certificate empties the list, and no ticket seeds are found; after
    two insertions the same removal leaves the context in the list, and its
    ticket seeds are still handed out, although no key leads to it. *)
Example insert_twice_then_remove :
  let once := (insert Ex.ctxB false (create true)).2 in
  let twice := (insert Ex.ctxB false once).2 in
  let once' := (removeSSLContextConfig Ex.keyA once).2 in
  let twice' := (removeSSLContextConfig Ex.keyA twice).2 in
  dnMap_ twice = dnMap_ once
  ∧ (removeSSLContextConfig Ex.keyA once).1 = Returned tt
  ∧ (removeSSLContextConfig Ex.keyA twice).1 = Returned tt
  ∧ ctxs_ once' = [] ∧ ctxs_ twice' = [Ex.ctxB]
  ∧ dnMap_ once' = ∅ ∧ dnMap_ twice' = ∅
  ∧ getTicketKeys once' = noSeeds
  ∧ getTicketKeys twice' = mkSeeds ["old"] ["current"] ["new"].
Proof. vm_compute. done. Qed.

(** * Further properties of the code *)

Import Obs.

(** ** Which names are filed *)

Lemma char_is_0 c r x : char_is (String c r) 0 x = Ascii.eqb c x.
Proof. reflexivity. Qed.

Lemma prefix_star_dot_inv dn :
  String.prefix "*." dn = true →
  ∃ r, dn = String "*" (String "." r).
Proof.
  destruct dn as [|c0 [|c1 r]]; try discriminate.
  - change (String.prefix "*." (String c0 EmptyString))
      with (if ascii_dec "*" c0 then false else false).
    by destruct (ascii_dec "*" c0).
  - change (String.prefix "*." (String c0 (String c1 r)))
      with (if ascii_dec "*" c0
            then if ascii_dec "." c1 then String.prefix "" r else false
            else false).
    destruct (ascii_dec "*" c0) as [<-|]; [|discriminate].
    destruct (ascii_dec "." c1) as [<-|]; [|discriminate].
    intros _. by exists r.
Qed.

Lemma is_dot_spec s :
  (String.length s =? 1)%nat && char_is s 0 "." = true ↔ s = ".".
Proof.
  split.
  - intros [Hl Hc]%andb_true_iff.
    destruct s as [|c0 [|]]; try discriminate.
    unfold char_is in Hc. simpl in Hc. by apply Ascii.eqb_eq in Hc as ->.
  - by intros ->.
Qed.

Lemma strchr_star_head r : DN.strchr_star (String "*" r) = true.
Proof. reflexivity. Qed.

Lemma Impl_explicit dn :
  ((strippedName dn = "." ∨ DN.strchr_star (strippedName dn) = true)
   ∧ rejected dn)
  ∨ (strippedName dn ≠ "." ∧ DN.strchr_star (strippedName dn) = false
     ∧ ¬ rejected dn).
Proof.
  destruct (rejected_dec dn) as [Hrej|Hok]; [left|right].
  - split; [|done]. destruct Hrej as [e He].
    specialize (He Ex.ctxA BEST_AVAILABLE false (create true)).
    revert He. unfold insertSSLCtxByDomainNameImpl, strippedName. unfold_M.
    destruct ((2 <? String.length dn)%nat && char_is dn 0 "*") eqn:H1.
    + apply andb_true_iff in H1 as [Hlen H0].
      destruct (char_is dn 1 ".") eqn:H2.
      * rewrite (prefix_star_dot_true dn H0 H2).
        destruct ((String.length (DN.substr_from 1 dn) =? 1)%nat
                  && char_is (DN.substr_from 1 dn) 0 ".") eqn:H3;
          [left; by apply is_dot_spec|].
        destruct (DN.strchr_star (DN.substr_from 1 dn)) eqn:H4; [by right|].
        discriminate.
      * intros _. right.
        destruct (String.prefix "*." dn) eqn:Hp.
        -- apply prefix_star_dot_inv in Hp as [r ->]. discriminate.
        -- destruct dn as [|c0 r]; [discriminate|].
           rewrite char_is_0 in H0. by apply Ascii.eqb_eq in H0 as ->.
    + destruct ((String.length dn =? 1)%nat && char_is dn 0 ".") eqn:H3.
      * intros _. apply is_dot_spec in H3 as ->. by left.
      * destruct (DN.strchr_star dn) eqn:H4; [|discriminate].
        intros _.
        destruct (String.prefix "*." dn) eqn:Hp; [|by right].
        apply prefix_star_dot_inv in Hp as [r ->].
        destruct r; [by left|discriminate].
  - split_and!; [| |done].
    + intros Hdot. apply Hok.
      unfold rejected, insertSSLCtxByDomainNameImpl. unfold_M.
      unfold strippedName in Hdot.
      destruct (String.prefix "*." dn) eqn:Hp.
      * apply prefix_star_dot_inv in Hp as [r ->]. simpl in Hdot.
        injection Hdot as ->. by eexists.
      * subst dn. by eexists.
    + destruct (DN.strchr_star (strippedName dn)) eqn:Hs; [|done].
      exfalso. apply Hok.
      unfold rejected, insertSSLCtxByDomainNameImpl. unfold_M.
      unfold strippedName in Hs.
      destruct (String.prefix "*." dn) eqn:Hp.
      * apply prefix_star_dot_inv in Hp as [r ->]. simpl in Hs.
        destruct r as [|c2 r]; [discriminate|]. simpl.
        change (char_is (String "*" (String "." (String c2 r))) 0 "*") with true.
        change (char_is (String "*" (String "." (String c2 r))) 1 ".") with true.
        simpl. 
        change (char_is (String "." (String c2 r)) 0 ".") with true.
        simpl in Hs. simpl. rewrite Hs. by eexists.
      * destruct ((2 <? String.length dn)%nat && char_is dn 0 "*") eqn:H1.
        -- destruct (char_is dn 1 ".") eqn:H2; [|by eexists].
           apply andb_true_iff in H1 as [_ H0].
           rewrite (prefix_star_dot_true dn H0 H2) in Hp. discriminate.
        -- destruct ((String.length dn =? 1)%nat && char_is dn 0 ".");
             [by eexists|].
           rewrite Hs. by eexists.
Qed.

(** X1.  A certificate name is refused exactly when, the star of a leading
    [*.] set aside, it is the lone dot or still holds a star (before any NUL
    character).  A name that is not refused is filed under the lower-cased
    rest, whatever the index holds: the empty name too.  A refused name makes
    the call throw a [std::runtime_error] and leaves the index as it was. *)
Theorem refused_names (dn : string) :
  (rejected dn
   ↔ strippedName dn = "." ∨ DN.strchr_star (strippedName dn) = true)
  ∧ (¬ rejected dn →
     ∀ sslCtx crypto defaultFallback s,
       insertSSLCtxByDomainNameImpl dn sslCtx crypto defaultFallback s
       = (Returned tt,
          fileName (mkDNString (strippedName dn)) sslCtx crypto defaultFallback s))
  ∧ (rejected dn →
     ∃ what, ∀ sslCtx crypto defaultFallback s,
       insertSSLCtxByDomainNameImpl dn sslCtx crypto defaultFallback s
       = (Thrown (runtime_error what), s)).
Proof.
  split_and!.
  - destruct (Impl_explicit dn) as [[Hc Hr]|(Hd & Hs & Hr)]; [done|].
    split; [done|]. intros [?|?]; congruence.
  - intros Hok sslCtx crypto defaultFallback s.
    destruct (Impl_dichotomy dn) as [?|Hrun]; [done|]. apply Hrun.
  - intros [e He]. pose proof (He Ex.ctxA BEST_AVAILABLE false (create true)) as H0.
    apply Impl_returned in H0 as [[? _]|(what & [= ->] & _)]; [done|].
    by exists what.
Qed.

Lemma refused_names_witness :
  rejected "*." ∧ rejected "a*.example.com"
  ∧ ∀ sslCtx s,
      insertSSLCtxByDomainNameImpl "" sslCtx BEST_AVAILABLE false s
      = (Returned tt, fileName (mkDNString "") sslCtx BEST_AVAILABLE false s).
Proof.
  split_and!.
  - apply (proj2 (proj1 (refused_names "*."))). left. reflexivity.
  - apply (proj2 (proj1 (refused_names "a*.example.com"))). right. reflexivity.
  - intros sslCtx s.
    apply (proj1 (proj2 (refused_names ""))).
    intros Hrej%(proj1 (proj1 (refused_names ""))).
    destruct Hrej; discriminate.
Defined.

(** ** When [insert] returns *)

Lemma filed_exists sslCtx crypto defaultFallback names s :
  ∃ s', filed sslCtx crypto defaultFallback names s s'.
Proof.
  revert s. induction names as [|x names IH]; intros s.
  - exists s. constructor.
  - destruct (rejected_dec x) as [Hrej|Hok].
    + destruct (IH s) as [s' Hf]. exists s'. by apply filed_skip.
    + destruct (IH (fileName (storedName x) sslCtx crypto defaultFallback s))
        as [s' Hf].
      exists s'. by apply filed_cons.
Qed.

(** X2.  [insert] returns exactly for a context that has a certificate with
    a CN, the lone star being taken only as the default, and in strict mode
    only when none of the names is refused; otherwise it throws (it never
    fails a check).  With the lone star as CN nothing is filed: the default
    insertion returns and the non-default one throws, both leaving the index
    as it was.  In lax mode an insertion that throws has changed nothing. *)
Theorem insert_returns_iff (sslCtx : ServerSSLContext) (defaultFallback : bool)
    (s : SslContexts) :
  ((∃ s', insert sslCtx defaultFallback s = (Returned tt, s'))
   ↔ insertable sslCtx defaultFallback (strict_ s))
  ∧ (∀ r s', insert sslCtx defaultFallback s = (r, s') → r ≠ Aborted)
  ∧ (∀ x509, ctx_x509 sslCtx = Some x509 → x509_commonName x509 = Some "*" →
       insert sslCtx true s = (Returned tt, s)
       ∧ ∃ what, insert sslCtx false s = (Thrown (runtime_error what), s))
  ∧ (strict_ s = false →
     ∀ e s', insert sslCtx defaultFallback s = (Thrown e, s') → s' = s).
Proof.
  split_and!.
  - split.
    + intros [s' Hrun].
      apply insert_run in Hrun
        as [[_ [[e ?]|(_ & -> & x509 & Hx & Hc)]]
           |[(e & ? & _)
            |(x509 & cn & s2 & Hx & Hc & Hstar & _ & _ & Hall & _)]];
        try done.
      * exists x509, "*". split_and!; [done..|]. by left.
      * exists x509, cn. split_and!; [done..|]. by right.
    + intros (x509 & cn & Hx & Hc & [[-> ->]|[Hstar Hall]]).
      * exists s. unfold insert. by rewrite Hx, Hc.
      * destruct (filed_exists sslCtx (certCryptoOf x509) defaultFallback
                    (certNames cn x509) s) as [s2 Hf].
        eexists. by eapply insert_returns.
  - intros r s' Hrun. by apply insert_outcome in Hrun as [_ ?].
  - intros x509 Hx Hc. unfold insert. rewrite Hx, Hc. simpl.
    split; [done|]. by eexists.
  - intros Hlax e s' Hrun.
    apply insert_run in Hrun as [[-> _]|[(e' & _ & ?)|(? & ? & ? & _ & _ & _ & ? & _)]];
      [done|congruence|done].
Qed.

Lemma insert_returns_iff_witness :
  ∃ s', insert Ex.ctxBad false (create false) = (Returned tt, s').
Proof.
  apply (proj2 (proj1 (insert_returns_iff Ex.ctxBad false (create false)))).
  exists (Ex.cert "www.example.com" (Some ["a*b.example.com"])
            Ex.NID_sha256WithRSAEncryption), "www.example.com".
  split_and!; [reflexivity|reflexivity|].
  right. split; [discriminate|]. simpl. discriminate.
Defined.

(** ** What [insert] touches *)

Lemma insertIntoDnMap_keys_subset key sslCtx overwrite s k :
  k ∈ defaultCtxKeys_ (insertIntoDnMap key sslCtx overwrite s) →
  k ∈ defaultCtxKeys_ s.
Proof.
  unfold insertIntoDnMap.
  split_insert s key; repeat case_match; simpl; try done.
  apply erase_first_subset.
Qed.

Lemma insertIntoDnMap_in_dnMap key sslCtx overwrite s k :
  in_dnMap k s → in_dnMap k (insertIntoDnMap key sslCtx overwrite s).
Proof.
  unfold in_dnMap. intros Hk.
  destruct (decide (k = key)) as [->|Hne].
  - destruct overwrite.
    + by rewrite insertIntoDnMap_lookup_overwrite.
    + rewrite insertIntoDnMap_lookup_keep. by destruct Hk as [? ->].
  - by rewrite insertIntoDnMap_lookup_ne.
Qed.

Lemma insertIntoDnMap_domainName key sslCtx overwrite s :
  defaultCtxDomainName_ (insertIntoDnMap key sslCtx overwrite s)
  = defaultCtxDomainName_ s.
Proof. unfold insertIntoDnMap. split_insert s key; by repeat case_match. Qed.

Lemma insertIntoDefaultKeys_domainName key overwrite s :
  defaultCtxDomainName_ (insertIntoDefaultKeys key overwrite s)
  = defaultCtxDomainName_ s.
Proof. unfold insertIntoDefaultKeys. split_insert s key; by repeat case_match. Qed.

(** What filing one name keeps, according to the kind of certificate. *)
Lemma fileName_frame name sslCtx crypto (defaultFallback : bool)
    (s0 s : SslContexts) :
  let keeps (t : SslContexts) :=
    ctxs_ t = ctxs_ s0
    ∧ defaultCtxDomainName_ t = defaultCtxDomainName_ s0
    ∧ (if defaultFallback
       then (∀ (k : SSLContextKey) x,
               dnMap_ t !! k = Some x → dnMap_ s0 !! k = Some x)
            ∧ (∀ k, k ∈ defaultCtxKeys_ s0 → k ∈ defaultCtxKeys_ t)
       else (∀ k, k ∈ defaultCtxKeys_ t → k ∈ defaultCtxKeys_ s0)
            ∧ (∀ k, in_dnMap k s0 → in_dnMap k t)) in
  keeps s → keeps (fileName name sslCtx crypto defaultFallback s).
Proof.
  intros keeps (Hc & Hd & Hrest). unfold keeps, fileName.
  destruct defaultFallback, (decide (crypto ≠ BEST_AVAILABLE));
    rewrite ?insertIntoDnMap_ctxs, ?insertIntoDefaultKeys_ctxs,
      ?insertIntoDnMap_domainName, ?insertIntoDefaultKeys_domainName;
    (split; [done|]); (split; [done|]); destruct Hrest as [H1 H2]; split.
  - intros k x Hk. by do 2 apply insertIntoDefaultKeys_lookup_inv in Hk; auto.
  - intros k Hk. by do 2 apply insertIntoDefaultKeys_keys_mono; auto.
  - intros k x Hk. apply insertIntoDefaultKeys_lookup_inv in Hk. auto.
  - intros k Hk. apply insertIntoDefaultKeys_keys_mono. auto.
  - intros k Hk. by do 2 apply insertIntoDnMap_keys_subset in Hk; auto.
  - intros k Hk. do 2 apply insertIntoDnMap_in_dnMap. auto.
  - intros k Hk. apply insertIntoDnMap_keys_subset in Hk. auto.
  - intros k Hk. apply insertIntoDnMap_in_dnMap. auto.
Qed.

(** X3.  An insertion that returns keeps the strict flag.  For a non-default
    certificate it appends the context to the list, once, keeps the default
    domain name, adds no default key and drops no key of the map.  For a
    default certificate it keeps the list, adds no key to the map and changes
    none of its entries, and drops no default key. *)
Theorem insert_frame (sslCtx : ServerSSLContext) (defaultFallback : bool)
    (s s' : SslContexts) :
  insert sslCtx defaultFallback s = (Returned tt, s') →
  strict_ s' = strict_ s
  ∧ (defaultFallback = false →
     ctxs_ s' = ctxs_ s ++ [sslCtx]
     ∧ defaultCtxDomainName_ s' = defaultCtxDomainName_ s
     ∧ (∀ k, k ∈ defaultCtxKeys_ s' → k ∈ defaultCtxKeys_ s)
     ∧ (∀ k, in_dnMap k s → in_dnMap k s'))
  ∧ (defaultFallback = true →
     ctxs_ s' = ctxs_ s
     ∧ (∀ k x, dnMap_ s' !! k = Some x → dnMap_ s !! k = Some x)
     ∧ (∀ k, k ∈ defaultCtxKeys_ s → k ∈ defaultCtxKeys_ s')).
Proof.
  intros Hrun. split; [by apply insert_outcome in Hrun as [? _]|].
  apply insert_run in Hrun
    as [[-> [[e ?]|(_ & -> & _)]]
       |[(e & ? & _)|(x509 & cn & s2 & _ & _ & _ & _ & Hf & _ & ->)]];
    try done.
  pose proof (filed_inv _ _ _ _ _ _ _
                (λ name t, fileName_frame name sslCtx (certCryptoOf x509)
                             defaultFallback s t) Hf) as Hkeep.
  simpl in Hkeep.
  destruct Hkeep as (Hc & Hd & Hrest).
  { split_and!; [done..|]. by destruct defaultFallback. }
  unfold finishInsert.
  split; intros ->; simpl; destruct Hrest as [H1 H2]; split_and!;
    try done; by rewrite Hc.
Qed.

Lemma insert_frame_witness :
  let s := (insert Ex.ctxA false (create true)).2 in
  ctxs_ (insert Ex.ctxSan false s).2 = ctxs_ s ++ [Ex.ctxSan].
Proof.
  intros s.
  refine (proj1 (proj1 (proj2 (insert_frame Ex.ctxSan false s
                                 (insert Ex.ctxSan false s).2 _)) eq_refl)).
  vm_compute. reflexivity.
Defined.

(** ** What every call keeps *)

Lemma for_each_names_inv (I : SslContexts → Prop) names sslCtx crypto
    defaultFallback s r s' :
  (∀ name t, I t → I (fileName name sslCtx crypto defaultFallback t)) →
  I s →
  for_each (λ n, insertSSLCtxByDomainName n sslCtx crypto defaultFallback)
    names s = (r, s') →
  I s'.
Proof.
  intros Hstep. revert s. induction names as [|x names IH]; intros s Hs; simpl.
  - by intros [= <- <-].
  - unfold_M.
    destruct (insertSSLCtxByDomainName_cases x sslCtx crypto defaultFallback s)
      as [[_ [what ->]]|[_ ->]].
    + destruct (strict_ s); [by intros [= <- <-]|]. by apply IH.
    + apply IH. by apply Hstep.
Qed.

(** A property of the index that filing a name and the last step of
    [insert] keep is kept by [insert], whatever its outcome. *)
Lemma insert_inv (I : SslContexts → Prop) sslCtx defaultFallback s r s' :
  (∀ name crypto t, I t → I (fileName name sslCtx crypto defaultFallback t)) →
  (∀ cn t, I t → I (finishInsert sslCtx defaultFallback cn t)) →
  I s →
  insert sslCtx defaultFallback s = (r, s') →
  I s'.
Proof.
  intros Hstep Hfin Hs. unfold insert.
  destruct (ctx_x509 sslCtx) as [x509|]; [|by intros [= <- <-]].
  destruct (x509_commonName x509) as [cn|]; [|by intros [= <- <-]].
  destruct ((String.length cn =? 1)%nat && char_is cn 0 "*").
  { destruct (negb defaultFallback); by intros [= <- <-]. }
  fold (certCryptoOf x509). unfold_M.
  destruct (insertSSLCtxByDomainName cn sslCtx (certCryptoOf x509)
              defaultFallback s) as [r1 s1] eqn:H1.
  assert (Hs1 : I s1).
  { destruct (insertSSLCtxByDomainName_cases cn sslCtx (certCryptoOf x509)
                defaultFallback s) as [[_ [what Heq]]|[_ Heq]];
      rewrite Heq in H1; simplify_eq; auto. }
  destruct r1 as [[]|e|]; [|by intros [= <- <-]..].
  assert (Hend : ∀ s2, I s2 →
            (if defaultFallback
             then λ t : SslContexts, (Returned (), set_defaultCtxDomainName cn t)
             else λ t : SslContexts, (Returned (), addServerContext sslCtx t)) s2
            = (r, s') → I s').
  { intros s2 Hs2. specialize (Hfin cn s2 Hs2). unfold finishInsert in Hfin.
    destruct defaultFallback; by intros [= <- <-]. }
  destruct (x509_subjectAltName x509) as [altNames|].
  - destruct (for_each _ altNames s1) as [r2 s2] eqn:H2.
    assert (Hs2 : I s2).
    { eapply for_each_names_inv; [|exact Hs1|exact H2].
      intros name t. apply Hstep. }
    destruct r2 as [[]|e|]; [|by intros [= <- <-]..].
    by apply Hend.
  - by apply Hend.
Qed.

Lemma fileName_wf name sslCtx crypto defaultFallback s :
  wf s → wf (fileName name sslCtx crypto defaultFallback s).
Proof.
  intros Hs. unfold fileName.
  destruct defaultFallback, (decide (crypto ≠ BEST_AVAILABLE));
    auto using insertIntoDnMap_wf, insertIntoDefaultKeys_wf.
Qed.

Lemma insert_wf sslCtx defaultFallback s r s' :
  wf s → insert sslCtx defaultFallback s = (r, s') → wf s'.
Proof.
  intros Hs. apply (insert_inv wf); [| |done].
  - intros name crypto t. apply fileName_wf.
  - intros cn t Ht. unfold finishInsert. by destruct defaultFallback.
Qed.

Lemma insertSSLCtxByDomainName_wf dn sslCtx crypto defaultFallback s r s' :
  wf s →
  insertSSLCtxByDomainName dn sslCtx crypto defaultFallback s = (r, s') →
  wf s'.
Proof.
  intros Hs.
  destruct (insertSSLCtxByDomainName_cases dn sslCtx crypto defaultFallback s)
    as [[_ [what ->]]|[_ ->]]; intros [= <- <-]; [done|].
  by apply fileName_wf.
Qed.

Section ManagerInvariant.

Variable FOLLY_OPENSSL_HAS_ALPN : bool.
Variable FOLLY_OPENSSL_HAS_SNI : bool.
Variable setupContext :
  SSLContextConfig → option TLSTicketKeySeeds → exn + ServerSSLContext.

Lemma addOne_wf cfg seeds s d r s' d' :
  wf s →
  SslContexts_addSSLContextConfig FOLLY_OPENSSL_HAS_ALPN FOLLY_OPENSSL_HAS_SNI
    setupContext cfg seeds s d = (r, s', d') →
  wf s'.
Proof.
  intros Hs. unfold SslContexts_addSSLContextConfig.
  destruct (setupContext cfg seeds) as [e|sslCtx]; [by intros [= <- <- <-]|].
  destruct (ctxSetupByOpensslFeature _ _ sslCtx cfg d) as [r1 d1].
  destruct r1 as [[]|e|]; [|by intros [= <- <- <-]..].
  destruct (insert sslCtx (isDefault cfg) s) as [r2 s2] eqn:H2.
  apply (insert_wf _ _ _ _ _ Hs) in H2.
  destruct r2 as [[]|e|]; by intros [= <- <- <-].
Qed.

Lemma addAll_wf cfgs seeds s d r s' d' :
  wf s →
  addAll FOLLY_OPENSSL_HAS_ALPN FOLLY_OPENSSL_HAS_SNI setupContext
    cfgs seeds s d = (r, s', d') →
  wf s' ∧ strict_ s' = strict_ s.
Proof.
  revert s d. induction cfgs as [|c cfgs IH]; intros s d Hs; simpl.
  - by intros [= <- <- <-].
  - destruct (SslContexts_addSSLContextConfig _ _ _ c seeds s d)
      as [[r1 s1] d1] eqn:H1.
    pose proof (addOne_wf _ _ _ _ _ _ _ Hs H1) as Hs1.
    apply addOne_outcome in H1 as [Hst _].
    destruct r1 as [[]|e|]; [|by intros [= <- <- <-]..].
    intros [? ?]%IH; [|done]. split; [done|congruence].
Qed.

Lemma create_wf strict : wf (create strict).
Proof.
  split; [constructor|]. intros k [? Hk]. simpl in Hk.
  by rewrite lookup_empty in Hk.
Qed.

(** X4.  Whatever member functions of the manager have been called, and
    whatever their outcomes (an insertion or a reset that throws midway
    included), no key of the index is both in the map and among the default
    keys, no default key is listed twice, and the index has the strictness of
    its manager. *)
Theorem manager_keeps_partition (m : SSLContextManager) :
  mgr_reachable FOLLY_OPENSSL_HAS_ALPN FOLLY_OPENSSL_HAS_SNI setupContext m →
  (∀ key, ¬ (in_dnMap key (contexts_ m) ∧ in_defaultCtxKeys key (contexts_ m)))
  ∧ NoDup (defaultCtxKeys_ (contexts_ m))
  ∧ strict_ (contexts_ m) = mgr_strict_ m.
Proof.
  intros Hm.
  assert (Hinv : wf (contexts_ m) ∧ strict_ (contexts_ m) = mgr_strict_ m).
  { induction Hm as [strict
                    |m cfg seeds r m' _ [IH1 IH2] Hrun
                    |m cfgs seeds r m' _ [IH1 IH2] Hrun
                    |m key r m' _ [IH1 IH2] Hrun
                    |m dflt dn r m' _ [IH1 IH2] Hrun
                    |m dn c crypto d r m' _ [IH1 IH2] Hrun
                    |m c r m' _ [IH1 IH2] Hrun
                    |m _ [IH1 IH2]].
    - split; [apply create_wf|done].
    - unfold addSSLContextConfig in Hrun.
      destruct (SslContexts_addSSLContextConfig _ _ _ cfg seeds (contexts_ m)
                  (defaultCtx_ m)) as [[r1 s1] d1] eqn:H1.
      injection Hrun as <- <-. simpl.
      split; [by eapply addOne_wf|].
      apply addOne_outcome in H1 as [-> _]. done.
    - unfold resetSSLContextConfigs in Hrun.
      destruct (addAll _ _ _ cfgs _ _ _) as [[r1 s1] d1] eqn:H1.
      apply addAll_wf in H1 as [Hwf Hst]; [|apply create_wf].
      destruct r1 as [[]|e|]; injection Hrun as <- <-; simpl; done.
    - unfold Manager.removeSSLContextConfig, Manager.on_contexts in Hrun.
      destruct (removeSSLContextConfig key (contexts_ m)) as [r1 s1] eqn:H1.
      injection Hrun as <- <-. simpl.
      split; [by eapply removeSSLContextConfig_wf|].
      revert H1. unfold removeSSLContextConfig. repeat case_match;
        intros [= <- <-]; done.
    - unfold Manager.removeSSLContextConfigByDomainName, Manager.on_contexts,
        removeSSLContextConfigByDomainName in Hrun.
      destruct (removeSSLContextConfig _ (contexts_ m)) as [r1 s1] eqn:H1.
      injection Hrun as <- <-. simpl.
      split; [by eapply removeSSLContextConfig_wf|].
      revert H1. unfold removeSSLContextConfig. repeat case_match;
        intros [= <- <-]; done.
    - unfold Manager.insertSSLCtxByDomainName, Manager.on_contexts in Hrun.
      destruct (insertSSLCtxByDomainName dn c crypto d (contexts_ m))
        as [r1 s1] eqn:H1.
      injection Hrun as <- <-. simpl.
      split; [by eapply insertSSLCtxByDomainName_wf|].
      apply insertSSLCtxByDomainName_outcome in H1 as [-> _]. done.
    - unfold Manager.addServerContext, Manager.on_contexts, modify in Hrun.
      simpl in Hrun. injection Hrun as <- <-. done.
    - simpl. split; [|done]. split; [constructor|].
      intros k [? Hk]. simpl in Hk. by rewrite lookup_empty in Hk. }
  destruct Hinv as [[Hnd Hdisj] Hst]. split_and!; [|done..].
  intros key [Hk Hd]. by eapply Hdisj.
Qed.

End ManagerInvariant.

Lemma manager_keeps_partition_witness :
  let setup := λ (_ : SSLContextConfig) (_ : option TLSTicketKeySeeds),
                 (inr Ex.ctxBad : exn + ServerSSLContext) in
  let m0 := {| contexts_ := create true; defaultCtx_ := None;
               mgr_strict_ := true |} in
  let m := (addSSLContextConfig true true setup (mkConfig 1 false []) None m0).2 in
  NoDup (defaultCtxKeys_ (contexts_ m)) ∧ strict_ (contexts_ m) = mgr_strict_ m.
Proof.
  intros setup m0 m.
  refine (proj2 (manager_keeps_partition true true setup m _)).
  apply (mgr_addSSLContextConfig true true setup m0 (mkConfig 1 false []) None
           (addSSLContextConfig true true setup (mkConfig 1 false []) None m0).1).
  - apply (mgr_new true true setup true).
  - apply surjective_pairing.
Defined.

(** ** Who owns a name after an insertion *)

Lemma rejected_star : rejected "*".
Proof. eexists. intros. reflexivity. Qed.

(** X5.  When the insertion of a certificate returns, each of its accepted
    names belongs to it at the tier of the certificate, whoever had it
    before.  After a default certificate the key is a default key and not in
    the map, so that the manager's exact lookup answers with its default
    context; after a non-default certificate the key leads to the new context
    in the map and, the partition holding before, is no default key any
    more, so that the manager's exact lookup answers with the new context. *)
Theorem last_insertion_owns_name (sslCtx : ServerSSLContext)
    (defaultFallback : bool) (s s' : SslContexts) (x509 : X509)
    (cn name : string) :
  insert sslCtx defaultFallback s = (Returned tt, s') →
  ctx_x509 sslCtx = Some x509 → x509_commonName x509 = Some cn → cn ≠ "*" →
  name ∈ certNames cn x509 → ¬ rejected name →
  let key := mkKey (storedName name) (certCryptoOf x509) in
  (defaultFallback = true →
     dnMap_ s' !! key = None ∧ key ∈ defaultCtxKeys_ s'
     ∧ ∀ m, contexts_ m = s' →
         Manager.getSSLCtxByExactDomain key m = defaultCtx_ m)
  ∧ (defaultFallback = false →
     dnMap_ s' !! key = Some sslCtx ∧ getSSLCtx key s' = Some sslCtx
     ∧ (wf s →
        (key ∉ defaultCtxKeys_ s')
        ∧ ∀ m, contexts_ m = s' →
            Manager.getSSLCtxByExactDomain key m = Some sslCtx)).
Proof.
  intros Hrun Hx Hc Hstar Hin Hok key.
  pose proof Hrun as Hrun'.
  apply insert_run in Hrun
    as [[_ [[e ?]|(_ & _ & x509' & Hx' & Hc')]]
       |[(e & ? & _)|(x509' & cn' & s2 & Hx' & Hc' & _ & _ & Hf & _ & ->)]];
    try done.
  { congruence. }
  rewrite Hx in Hx'. injection Hx' as <-.
  rewrite Hc in Hc'. injection Hc' as <-.
  pose proof (filed_settles _ _ _ _ _ _ Hf name Hin Hok) as [Hmain _].
  split; intros ->; simpl in *.
  - destruct Hmain as [Hn Hd]. split_and!; [done..|].
    intros m Hm. unfold Manager.getSSLCtxByExactDomain, isDefaultCtxExact.
    rewrite Hm. simpl. by rewrite (proj2 (found_spec _ _) Hd).
  - split_and!; [done|by apply getSSLCtx_exact|].
    intros Hwf. apply (insert_wf _ _ _ _ _ Hwf) in Hrun' as [_ Hdisj].
    assert (Hnot : key ∉ defaultCtxKeys_ (addServerContext sslCtx s2)).
    { apply Hdisj. by eexists. }
    split; [done|].
    intros m Hm.
    unfold Manager.getSSLCtxByExactDomain, isDefaultCtxExact,
      getSSLCtxByExactDomain.
    rewrite Hm. simpl in *. by rewrite (proj2 (found_false _ _) Hnot).
Qed.

Lemma last_insertion_owns_name_witness :
  let s := (insert Ex.ctxA false (create true)).2 in
  let dflt := mkCtx 9 (Some (Ex.cert "A.com" None Ex.NID_sha256WithRSAEncryption))
                None in
  let s' := (insert dflt true s).2 in
  dnMap_ s' !! Ex.keyA = None ∧ Ex.keyA ∈ defaultCtxKeys_ s'.
Proof.
  intros s dflt s'.
  destruct (last_insertion_owns_name dflt true s s'
              (Ex.cert "A.com" None Ex.NID_sha256WithRSAEncryption)
              "A.com" "A.com") as [Hd _].
  - vm_compute. reflexivity.
  - reflexivity.
  - reflexivity.
  - discriminate.
  - apply list_elem_of_here.
  - destruct (Impl_explicit "A.com") as [[[?|?] _]|(_ & _ & ?)];
      [discriminate..|assumption].
  - destruct (Hd eq_refl) as (H1 & H2 & _). split; assumption.
Defined.

(** ** Wildcards among the default keys *)

Lemma insertIntoDefaultKeys_keys_ne key k overwrite s :
  k ≠ key →
  k ∈ defaultCtxKeys_ (insertIntoDefaultKeys key overwrite s)
  ↔ k ∈ defaultCtxKeys_ s.
Proof.
  intros Hne. unfold insertIntoDefaultKeys.
  split_insert s key; repeat case_match; simpl; try done; set_solver.
Qed.

Lemma fileName_default_tier name x sslCtx crypto s :
  mkKey x crypto ∈ defaultCtxKeys_ (fileName name sslCtx crypto true s)
  ↔ x = name ∨ mkKey x crypto ∈ defaultCtxKeys_ s.
Proof.
  unfold fileName.
  assert (Hmain :
    mkKey x crypto ∈ defaultCtxKeys_ (insertIntoDefaultKeys (mkKey name crypto) true s)
    ↔ x = name ∨ mkKey x crypto ∈ defaultCtxKeys_ s).
  { destruct (decide (x = name)) as [->|Hne].
    - split; [by left|]. intros _. apply insertIntoDefaultKeys_overwrite.
    - rewrite insertIntoDefaultKeys_keys_ne by congruence. naive_solver. }
  destruct (decide (crypto ≠ BEST_AVAILABLE)) as [Hc|Hc]; [|done].
  rewrite insertIntoDefaultKeys_keys_ne by congruence. done.
Qed.

Lemma find_first_of_dot_head r : DN.find_first_of_dot (String "." r) = Some 0.
Proof. reflexivity. Qed.

(** X6.  A wildcard name filed for the default certificate covers exactly
    one level as well: afterwards a query name is a default name at the tier
    of the certificate exactly when it was one before or its part from the
    first dot on is the stored [.s] (the name [.s] itself included). *)
Theorem default_wildcard_one_level (s s' : SslContexts) (suffix : string)
    (sslCtx : ServerSSLContext) (crypto : CertCrypto) :
  insertSSLCtxByDomainNameImpl ("*." ++ suffix) sslCtx crypto true s
    = (Returned tt, s') →
  ∀ q, isDefaultCtx (mkKey (mkDNString q) crypto) s' = true
       ↔ suffix_from_first_dot (mkDNString q) = Some (mkDNString ("." ++ suffix))
         ∨ isDefaultCtx (mkKey (mkDNString q) crypto) s = true.
Proof.
  intros Himpl q.
  apply Impl_returned in Himpl as [[_ ->]|(? & ? & _)]; [|done].
  rewrite storedName_wildcard.
  assert (Hname : DN.find_first_of_dot (mkDNString ("." ++ suffix)) = Some 0)
    by reflexivity.
  remember (mkDNString ("." ++ suffix)) as name eqn:Hn. clear Hn.
  unfold isDefaultCtx, isDefaultCtxSuffix, isDefaultCtxExact,
    suffix_from_first_dot. simpl.
  rewrite !orb_true_iff, !found_spec, fileName_default_tier.
  destruct (DN.find_first_of_dot (mkDNString q)) as [dot|] eqn:Hdot.
  - rewrite !found_spec, fileName_default_tier. split.
    + intros [[Hq|?]|[Hq|?]]; try (by right; auto).
      * left. rewrite Hq in Hdot. rewrite Hname in Hdot.
        injection Hdot as <-. by rewrite Hq.
      * left. by rewrite Hq.
    + intros [[= Hq]|[?|?]]; [right; by left|left; by right|right; by right].
  - split.
    + intros [[Hq|?]|?]; [|by right; left|done].
      rewrite Hq, Hname in Hdot. discriminate.
    + intros [?|[?|?]]; [done|left; by right|done].
Qed.

Lemma default_wildcard_one_level_witness :
  let s' := (insertSSLCtxByDomainNameImpl "*.example.com" Ex.ctxA
               SHA1_SIGNATURE true (create true)).2 in
  isDefaultCtx (mkKey (mkDNString "WWW.example.com") SHA1_SIGNATURE) s' = true.
Proof.
  intros s'.
  apply (proj2 (default_wildcard_one_level (create true) s' "example.com"
                  Ex.ctxA SHA1_SIGNATURE eq_refl "WWW.example.com")).
  left. reflexivity.
Defined.

(** ** Removal *)

Lemma filled_map_in_list s : filled s → map_in_list s.
Proof.
  induction 1 as [strict|s sslCtx d r s' _ IH Hrun Hr].
  - intros k x Hk. simpl in Hk. by rewrite lookup_empty in Hk.
  - by eapply insert_map_in_list.
Qed.

Lemma erase_first_length {A} `{EqDecision A} (x : A) (l : list A) :
  x ∈ l → S (length (erase_first x l)) = length l.
Proof.
  induction l as [|y l IH]; [by intros ?%elem_of_nil|].
  simpl. destruct (decide (y = x)); [done|].
  intros [?|Hin]%elem_of_cons; [congruence|]. simpl. by rewrite IH.
Qed.

Lemma erase_first_app_last {A} `{EqDecision A} (x : A) (l : list A) :
  x ∉ l → erase_first x (l ++ [x]) = l.
Proof.
  induction l as [|y l IH]; simpl; intros Hx.
  - by destruct (decide (x = x)).
  - destruct (decide (y = x)) as [->|]; [set_solver|].
    f_equal. apply IH. set_solver.
Qed.

(** X7.  The check in [removeSSLContextConfig] fails exactly when the key is
    no default key and leads to a context that is not in the list.  On an
    index that only insertions have touched this does not happen: removing a
    key that is no default key returns, the key is gone from the map, the
    other keys and the default keys are as before, and the list has lost the
    first occurrence of the context that the key led to (nothing when the
    key was not in the map: the removal is then a no-op). *)
Theorem remove_after_inserts (key : SSLContextKey) (s : SslContexts) :
  ((removeSSLContextConfig key s).1 = Aborted
   ↔ ¬ in_defaultCtxKeys key s
     ∧ ∃ c, dnMap_ s !! key = Some c ∧ c ∉ ctxs_ s)
  ∧ (filled s → ¬ in_defaultCtxKeys key s →
     ∃ s',
       removeSSLContextConfig key s = (Returned tt, s')
       ∧ dnMap_ s' = delete key (dnMap_ s)
       ∧ defaultCtxKeys_ s' = defaultCtxKeys_ s
       ∧ defaultCtxDomainName_ s' = defaultCtxDomainName_ s
       ∧ strict_ s' = strict_ s
       ∧ match dnMap_ s !! key with
         | Some c => ctxs_ s' = erase_first c (ctxs_ s)
                     ∧ S (length (ctxs_ s')) = length (ctxs_ s)
         | None => s' = s
         end).
Proof.
  unfold in_defaultCtxKeys, removeSSLContextConfig. split.
  - destruct (found key (defaultCtxKeys_ s)) eqn:Hd.
    + apply found_spec in Hd. simpl. split; [done|]. by intros [? _].
    + apply found_false in Hd.
      destruct (dnMap_ s !! key) as [c|]; simpl.
      * destruct (found c (ctxs_ s)) eqn:Hc; simpl.
        -- apply found_spec in Hc. split; [done|].
           intros [_ (c' & [= <-] & ?)]. done.
        -- apply found_false in Hc. split; [|done]. intros _. split; [done|].
           by exists c.
      * split; [done|]. by intros [_ (c & ? & _)].
  - intros Hfilled%filled_map_in_list Hd%found_false. rewrite Hd.
    destruct (dnMap_ s !! key) as [c|] eqn:Hm.
    + pose proof (Hfilled key c Hm) as Hc.
      rewrite (proj2 (found_spec _ _) Hc).
      eexists. split; [done|]. simpl. split_and!; try done.
      by apply erase_first_length.
    + exists s. split_and!; try done. by rewrite delete_id.
Qed.

Lemma remove_after_inserts_witness :
  let s := (insert Ex.ctxA false (create true)).2 in
  ∃ s', removeSSLContextConfig Ex.keyA s = (Returned tt, s')
        ∧ dnMap_ s' = delete Ex.keyA (dnMap_ s).
Proof.
  intros s.
  destruct (proj2 (remove_after_inserts Ex.keyA s)) as (s' & H1 & H2 & _).
  - apply (filled_insert (create true) Ex.ctxA false
             (insert Ex.ctxA false (create true)).1).
    + apply filled_create.
    + apply surjective_pairing.
    + left. vm_compute. reflexivity.
  - unfold in_defaultCtxKeys. vm_compute. apply not_elem_of_nil.
  - exists s'. split; assumption.
Defined.

(** X8.  Inserting a non-default certificate that has one accepted name, at
    [BEST_AVAILABLE], and removing it by that domain name (the key being
    built at that tier) gives back the index as it was, when the name was
    neither in the map nor a default key and the context not in the list. *)
Theorem insert_then_remove (sslCtx : ServerSSLContext) (x509 : X509)
    (cn : string) (s : SslContexts) :
  ctx_x509 sslCtx = Some x509 → x509_commonName x509 = Some cn →
  x509_subjectAltName x509 = None →
  certCryptoOf x509 = BEST_AVAILABLE →
  ¬ rejected cn →
  ¬ in_dnMap (mkKey (storedName cn) BEST_AVAILABLE) s →
  ¬ in_defaultCtxKeys (mkKey (storedName cn) BEST_AVAILABLE) s →
  sslCtx ∉ ctxs_ s →
  ∃ s1,
    insert sslCtx false s = (Returned tt, s1)
    ∧ getSSLCtxByExactDomain (mkKey (storedName cn) BEST_AVAILABLE) s1
      = Some sslCtx
    ∧ removeSSLContextConfigByDomainName BEST_AVAILABLE cn s1 = (Returned tt, s).
Proof.
  intros Hx Hc Halt Hcrypto Hok Hm Hd Hl.
  assert (Hstar : cn ≠ "*") by (intros ->; apply Hok, rejected_star).
  assert (Hf : filed sslCtx BEST_AVAILABLE false [cn] s
                 (fileName (storedName cn) sslCtx BEST_AVAILABLE false s)).
  { apply filed_cons; [done|]. constructor. }
  pose proof (insert_returns sslCtx false s x509 cn
                (fileName (storedName cn) sslCtx BEST_AVAILABLE false s)
                Hx Hc Hstar) as Hrun.
  rewrite Hcrypto in Hrun. unfold certNames in Hrun. rewrite Halt in Hrun.
  specialize (Hrun Hf ltac:(intros _; by repeat constructor)).
  eexists. split; [exact Hrun|].
  unfold in_dnMap, in_defaultCtxKeys in *.
  assert (Hnone : dnMap_ s !! mkKey (storedName cn) BEST_AVAILABLE = None).
  { destruct (dnMap_ s !! _) eqn:E; [|done]. exfalso. apply Hm. by eexists. }
  apply found_false in Hd.
  assert (Hfile : fileName (storedName cn) sslCtx BEST_AVAILABLE false s
                  = set_dnMap (<[mkKey (storedName cn) BEST_AVAILABLE := sslCtx]>
                                 (dnMap_ s)) s).
  { unfold fileName.
    destruct (decide (BEST_AVAILABLE ≠ BEST_AVAILABLE)); [done|].
    unfold insertIntoDnMap. by rewrite Hnone, Hd. }
  rewrite Hfile. unfold finishInsert. split.
  - unfold getSSLCtxByExactDomain. simpl. by rewrite lookup_insert_eq.
  - unfold removeSSLContextConfigByDomainName, removeSSLContextConfig.
    fold (strippedName cn). change (mkDNString (strippedName cn)) with (storedName cn).
    simpl. rewrite Hd, lookup_insert_eq.
    rewrite (proj2 (found_spec sslCtx (ctxs_ s ++ [sslCtx])))
      by (apply elem_of_app; right; apply list_elem_of_here).
    f_equal. rewrite erase_first_app_last by done.
    rewrite delete_insert_eq, delete_id by done. by destruct s.
Qed.

Lemma insert_then_remove_witness :
  ∃ s1,
    insert Ex.ctxA false (create true) = (Returned tt, s1)
    ∧ getSSLCtxByExactDomain (mkKey (storedName "a.com") BEST_AVAILABLE) s1
      = Some Ex.ctxA
    ∧ removeSSLContextConfigByDomainName BEST_AVAILABLE "a.com" s1
      = (Returned tt, create true).
Proof.
  apply (insert_then_remove Ex.ctxA
           (Ex.cert "a.com" None Ex.NID_sha256WithRSAEncryption) "a.com"
           (create true)); try reflexivity.
  - destruct (Impl_explicit "a.com") as [[[?|?] _]|(_ & _ & ?)];
      [discriminate..|assumption].
  - intros [c Hc]. simpl in Hc. rewrite lookup_empty in Hc. discriminate.
  - unfold in_defaultCtxKeys. simpl. apply not_elem_of_nil.
  - simpl. apply not_elem_of_nil.
Defined.

(** ** The answer of the SNI callback *)

Import ObsSni.

Lemma serverNameCallback_unfold sn clientInfo stats contexts :
  let req := Sni.requestedCertCrypto clientInfo in
  let n := requestedName sn contexts in
  let hasSn := bool_decide (is_Some sn) in
  let log0 := if negb hasSn && stats then [recordAbsentHostname] else [] in
  Sni.serverNameCallback sn clientInfo stats contexts
  = if answers (mkKey n req) contexts then
      Sni.mkEffect SERVER_NAME_FOUND (getSSLCtx (mkKey n req) contexts)
        (log0 ++ (if stats then
                    (if hasSn then [recordMatch] else [])
                    ++ [recordCertCrypto req req]
                  else []))
    else if bool_decide (req ≠ BEST_AVAILABLE)
            && answers (mkKey n BEST_AVAILABLE) contexts then
      Sni.mkEffect SERVER_NAME_FOUND (getSSLCtx (mkKey n BEST_AVAILABLE) contexts)
        (log0 ++ (if stats then
                    (if hasSn then [recordMatch] else [])
                    ++ [recordCertCrypto req BEST_AVAILABLE]
                  else []))
    else
      Sni.mkEffect SERVER_NAME_NOT_FOUND None
        (log0 ++ (if stats && hasSn then [recordNotMatch] else [])).
Proof.
  unfold Sni.serverNameCallback, requestedName, answers.
  by destruct sn.
Qed.

(** X9.  The callback answers [SERVER_NAME_FOUND] exactly when the index
    answers for the requested name at the requested tier or at
    [BEST_AVAILABLE]; a weaker tier than the requested one is never tried.
    The session is switched to what the map gives at the requested tier when
    the index answers there (a context of the map going before a default
    key), otherwise to what it gives at [BEST_AVAILABLE]; it is left on its
    context when the answer is [SERVER_NAME_NOT_FOUND]. *)
Theorem serverNameCallback_answer (sn : option string)
    (clientInfo : option folly_ssl.ClientHelloInfo) (stats : bool)
    (contexts : SslContexts) :
  let req := Sni.requestedCertCrypto clientInfo in
  let n := requestedName sn contexts in
  let effect := Sni.serverNameCallback sn clientInfo stats contexts in
  (Sni.cb_result effect = SERVER_NAME_FOUND
   ↔ answers (mkKey n req) contexts = true
     ∨ answers (mkKey n BEST_AVAILABLE) contexts = true)
  ∧ (Sni.cb_result effect = SERVER_NAME_NOT_FOUND → Sni.cb_switchedTo effect = None)
  ∧ (answers (mkKey n req) contexts = true →
     Sni.cb_switchedTo effect = getSSLCtx (mkKey n req) contexts)
  ∧ (answers (mkKey n req) contexts = false →
     Sni.cb_switchedTo effect = getSSLCtx (mkKey n BEST_AVAILABLE) contexts).
Proof.
  intros req n effect. unfold effect.
  rewrite serverNameCallback_unfold. fold req n.
  destruct (answers (mkKey n req) contexts) eqn:Hreq; simpl.
  - split_and!; try done. split; [by left|done].
  - destruct (decide (req = BEST_AVAILABLE)) as [Hb|Hb].
    + rewrite (bool_decide_eq_false_2 (req ≠ BEST_AVAILABLE)) by (by intros ?).
      simpl. rewrite Hb in Hreq. rewrite Hreq.
      split_and!; try done.
      * split; [done|]. by intros [?|?].
      * intros _. unfold answers in Hreq.
        apply orb_false_iff in Hreq as [Hreq _].
        apply bool_decide_eq_false in Hreq.
        destruct (getSSLCtx _ contexts); [|done]. exfalso. apply Hreq. by eexists.
    + rewrite (bool_decide_eq_true_2 (req ≠ BEST_AVAILABLE)) by done. simpl.
      destruct (answers (mkKey n BEST_AVAILABLE) contexts) eqn:Hbest; simpl.
      * split_and!; try done. split; [by right|done].
      * split_and!; try done.
        -- split; [done|]. by intros [?|?].
        -- intros _. unfold answers in Hbest.
           apply orb_false_iff in Hbest as [Hbest _].
           apply bool_decide_eq_false in Hbest.
           destruct (getSSLCtx _ contexts); [|done].
           exfalso. apply Hbest. by eexists.
Qed.

Lemma serverNameCallback_answer_witness :
  let contexts := (insert Ex.ctxA false (create true)).2 in
  Sni.cb_switchedTo (Sni.serverNameCallback (Some "A.COM") None true contexts)
  = Some Ex.ctxA.
Proof.
  intros contexts.
  rewrite (proj1 (proj2 (proj2 (serverNameCallback_answer (Some "A.COM") None
                                   true contexts)))).
  - vm_compute. reflexivity.
  - vm_compute. reflexivity.
Defined.



Lemma lowercase_wildcard r :
  mkDNString (String "*" (String "." r)) = String "*" (mkDNString (String "." r))
  ∧ DN.find_first_of_dot (mkDNString (String "*" (String "." r))) = Some 1
  ∧ DN.substr_from 1 (mkDNString (String "*" (String "." r)))
    = storedName (String "*" (String "." r)).
Proof.
  split_and!; [reflexivity|reflexivity|].
  unfold storedName.
  change (String.prefix "*." (String "*" (String "." r)))
    with (if ascii_dec "*" "*"
          then if ascii_dec "." "." then String.prefix "" r else false
          else false).
  destruct (ascii_dec "*" "*"); [|done].
  destruct (ascii_dec "." "."); [|done].
  by destruct r.
Qed.

(** A key filed for a certificate name answers for the name as it is
    written in the certificate. *)
Lemma storedName_answers cn tier s :
  in_dnMap (mkKey (storedName cn) tier) s
  ∨ in_defaultCtxKeys (mkKey (storedName cn) tier) s →
  answers (mkKey (mkDNString cn) tier) s = true.
Proof.
  unfold answers, in_dnMap, in_defaultCtxKeys. intros Hheld.
  apply orb_true_iff.
  destruct (String.prefix "*." cn) eqn:Hp.
  - apply prefix_star_dot_inv in Hp as [r ->].
    destruct (lowercase_wildcard r) as (_ & Hdot & Hsub).
    destruct Hheld as [Hm|Hd].
    + left. apply bool_decide_eq_true.
      unfold getSSLCtx, getSSLCtxByExactDomain, getSSLCtxBySuffix.
      destruct (dnMap_ s !! mkKey (mkDNString _) tier); [by eexists|].
      cbn [dnString certCrypto]. rewrite Hdot, Hsub. done.
    + right. unfold isDefaultCtx, isDefaultCtxSuffix, isDefaultCtxExact.
      cbn [dnString certCrypto]. rewrite Hdot, Hsub.
      rewrite (proj2 (found_spec _ _) Hd). apply orb_true_r.
  - assert (Hsame : storedName cn = mkDNString cn).
    { unfold storedName. by rewrite Hp. }
    rewrite Hsame in Hheld.
    destruct Hheld as [[c Hm]|Hd].
    + left. apply bool_decide_eq_true. rewrite (getSSLCtx_exact _ _ _ Hm).
      by eexists.
    + right. unfold isDefaultCtx, isDefaultCtxExact.
      by rewrite (proj2 (found_spec _ _) Hd).
Qed.

(** X11.  Once a default certificate has been inserted, its CN being
    accepted and free of NUL characters, a handshake that carries no server
    name is answered [SERVER_NAME_FOUND], whatever the ClientHello says about
    signature algorithms: the callback looks up the recorded default domain
    name, which the index answers for at [BEST_AVAILABLE] (also when the CN
    is a wildcard, through the suffix). *)
Theorem missing_server_name_found (sslCtx : ServerSSLContext) (x509 : X509)
    (cn : string) (s s' : SslContexts)
    (clientInfo : option folly_ssl.ClientHelloInfo) (stats : bool) :
  insert sslCtx true s = (Returned tt, s') →
  ctx_x509 sslCtx = Some x509 → x509_commonName x509 = Some cn →
  ¬ rejected cn → Sni.c_str cn = cn →
  getDefaultCtxDomainName s' = cn
  ∧ answers (mkKey (mkDNString cn) BEST_AVAILABLE) s' = true
  ∧ Sni.cb_result (Sni.serverNameCallback None clientInfo stats s')
    = SERVER_NAME_FOUND.
Proof.
  intros Hrun Hx Hc Hok Hnul.
  assert (Hstar : cn ≠ "*") by (intros ->; apply Hok, rejected_star).
  apply insert_run in Hrun
    as [[_ [[e ?]|(_ & _ & x509' & Hx' & Hc')]]
       |[(e & ? & _)|(x509' & cn' & s2 & Hx' & Hc' & _ & _ & Hf & _ & ->)]];
    try done.
  { congruence. }
  rewrite Hx in Hx'. injection Hx' as <-.
  rewrite Hc in Hc'. injection Hc' as <-.
  assert (Hin : cn ∈ certNames cn x509) by apply list_elem_of_here.
  pose proof (filed_settles _ _ _ _ _ _ Hf cn Hin Hok) as [[_ Hmain] Hweak].
  assert (Hbest : answers (mkKey (mkDNString cn) BEST_AVAILABLE)
                    (finishInsert sslCtx true cn s2) = true).
  { apply storedName_answers. unfold finishInsert.
    unfold in_dnMap, in_defaultCtxKeys in *. simpl.
    destruct (decide (certCryptoOf x509 = BEST_AVAILABLE)) as [Hb|Hb].
    - right. by rewrite <- Hb.
    - by apply Hweak. }
  split_and!; [done|done|].
  rewrite serverNameCallback_unfold.
  unfold requestedName, getDefaultCtxDomainName, finishInsert in *. simpl.
  rewrite Hnul. simpl in Hbest.
  destruct (answers (mkKey (mkDNString cn) (Sni.requestedCertCrypto clientInfo))
              (set_defaultCtxDomainName cn s2)) eqn:Hreq; [done|].
  rewrite Hbest.
  destruct (decide (Sni.requestedCertCrypto clientInfo = BEST_AVAILABLE))
    as [Hb|Hb].
  - rewrite Hb in Hreq. congruence.
  - by rewrite (bool_decide_eq_true_2 _ Hb).
Qed.

Lemma missing_server_name_found_witness :
  let dflt := mkCtx 9 (Some (Ex.cert "*.Example.com" None
                               NID_sha1WithRSAEncryption)) None in
  let s' := (insert dflt true (create true)).2 in
  Sni.cb_result (Sni.serverNameCallback None
                   (Some (folly_ssl.mkClientHelloInfo [] [])) true s')
  = SERVER_NAME_FOUND.
Proof.
  intros dflt s'.
  refine (proj2 (proj2 (missing_server_name_found dflt
            (Ex.cert "*.Example.com" None NID_sha1WithRSAEncryption)
            "*.Example.com" (create true) s'
            (Some (folly_ssl.mkClientHelloInfo [] [])) true _ _ _ _ _))).
  - vm_compute. reflexivity.
  - reflexivity.
  - reflexivity.
  - destruct (Impl_explicit "*.Example.com") as [[[?|?] _]|(_ & _ & ?)];
      [discriminate..|assumption].
  - reflexivity.
Defined.

(** ** The certificates of one configuration *)

Import Certs.

Lemma string_leb_cases a b :
  string_le a b ↔ a = b ∨ String_as_OT.lt a b.
Proof.
  unfold string_le, string_leb.
  destruct (String_as_OT.compare_spec a b) as [Heq|Hlt|Hgt].
  - split; [by left|done].
  - split; [by right|done].
  - split; [done|]. intros [->|Hlt].
    + by apply (StrictOrder_Irreflexive b) in Hgt.
    + exfalso. apply (StrictOrder_Irreflexive a).
      by apply (StrictOrder_Transitive a b a).
Qed.

Lemma string_le_total : Total string_le.
Proof.
  intros a b.
  destruct (String_as_OT.compare_spec a b) as [Heq|Hlt|Hgt].
  - left. apply string_leb_cases. by left.
  - left. apply string_leb_cases. by right.
  - right. apply string_leb_cases. by right.
Qed.

Lemma string_le_trans : Transitive string_le.
Proof.
  intros a b c Hab Hbc.
  apply string_leb_cases in Hab as [->|Hab]; [done|].
  apply string_leb_cases in Hbc as [->|Hbc];
    apply string_leb_cases; right; [done|].
  by apply (StrictOrder_Transitive a b c).
Qed.

Lemma string_le_antisym : AntiSymm (=) string_le.
Proof.
  intros a b Hab Hba.
  apply string_leb_cases in Hab as [->|Hab]; [done|].
  apply string_leb_cases in Hba as [->|Hba]; [done|].
  exfalso. apply (StrictOrder_Irreflexive a).
  by apply (StrictOrder_Transitive a b a).
Qed.

(** Two lists of names sort to the same list exactly when they hold the
    same names, each as often. *)
Lemma sort_eq_iff (a b : list string) : sort a = sort b ↔ a ≡ₚ b.
Proof.
  pose proof string_le_total. pose proof string_le_trans.
  pose proof string_le_antisym.
  unfold sort. split.
  - intros Heq.
    rewrite <- (merge_sort_Permutation string_le a),
            <- (merge_sort_Permutation string_le b).
    by rewrite Heq.
  - intros Hab. apply (Sorted_unique string_le).
    + apply Sorted_merge_sort, _.
    + apply Sorted_merge_sort, _.
    + by rewrite !merge_sort_Permutation.
Qed.

Lemma sorted_names_eq_iff (a b : option (list string)) :
  sort <$> a = sort <$> b ↔ option_Forall2 Permutation a b.
Proof.
  destruct a as [a|], b as [b|]; simpl.
  - split.
    + intros [= H]. constructor. by apply sort_eq_iff.
    + intros H. inversion H as [? ? Hab|]. f_equal. by apply sort_eq_iff.
  - split; [done|]. intros H. inversion H.
  - split; [done|]. intros H. inversion H.
  - split; [constructor|done].
Qed.

Lemma verifyCertNames_cases (first x : X509) (cn0 : string)
    (description lastCertPath : string) (was : string)
    (wasAlt : option (list string)) :
  x509_commonName first = Some cn0 →
  verifyCertNames (Some first) description was wasAlt lastCertPath true
    = inr (cn0, sort <$> x509_subjectAltName first)
  ∧ (same_names first x →
     verifyCertNames (Some x) description cn0
       (sort <$> x509_subjectAltName first) lastCertPath false
     = inr (cn0, sort <$> x509_subjectAltName first))
  ∧ (¬ same_names first x →
     ∃ what,
       verifyCertNames (Some x) description cn0
         (sort <$> x509_subjectAltName first) lastCertPath false
       = inl (runtime_error what)).
Proof.
  intros Hcn. unfold verifyCertNames, same_names. rewrite Hcn.
  split; [done|].
  destruct (x509_commonName x) as [cn|] eqn:Hx.
  - destruct (String.eqb cn0 cn) eqn:Heq; simpl.
    + apply String.eqb_eq in Heq as <-.
      pose proof (sorted_names_eq_iff (x509_subjectAltName first)
                    (x509_subjectAltName x)) as Hiff.
      destruct (x509_subjectAltName x) as [alt|],
               (x509_subjectAltName first) as [alt0|]; simpl in *.
      * destruct (decide (sort alt ≠ sort alt0)) as [Hne|Heq%dec_stable].
        -- split; [|by eexists]. intros [_ Hp%Hiff]. congruence.
        -- split; [done|]. intros Hn. exfalso. apply Hn. split; [done|].
           apply Hiff. by f_equal.
      * split; [|by eexists]. intros [_ Hp]. inversion Hp.
      * split; [|by eexists]. intros [_ Hp]. inversion Hp.
      * split; [done|]. intros Hn. exfalso. apply Hn. split; [done|constructor].
    + apply String.eqb_neq in Heq.
      split; [|by eexists]. intros [[= ?] _]. done.
  - split; [|by eexists]. intros [[=] _].
Qed.

(** X12.  The certificate of the first pair of a configuration sets the
    names: its CN and its SANs, sorted.  A later certificate passes exactly
    when its CN is the same, character by character, and its SANs are the
    same up to their order (both certificates without SANs, or both with the
    same names as often); otherwise [verifyCertNames] throws. *)
Theorem verifyCertNames_same_names (first x : X509) (cn0 : string)
    (description lastCertPath : string) (was : string)
    (wasAlt : option (list string)) :
  x509_commonName first = Some cn0 →
  verifyCertNames (Some first) description was wasAlt lastCertPath true
    = inr (cn0, sort <$> x509_subjectAltName first)
  ∧ (same_names first x →
     verifyCertNames (Some x) description cn0
       (sort <$> x509_subjectAltName first) lastCertPath false
     = inr (cn0, sort <$> x509_subjectAltName first))
  ∧ (¬ same_names first x →
     ∃ what,
       verifyCertNames (Some x) description cn0
         (sort <$> x509_subjectAltName first) lastCertPath false
       = inl (runtime_error what)).
Proof. apply verifyCertNames_cases. Qed.

Lemma verifyCertNames_same_names_witness :
  let first := Ex.cert "a.com" (Some ["b.com"; "a.com"; "c.com"]) 668 in
  let later := Ex.cert "a.com" (Some ["c.com"; "b.com"; "a.com"]) 65 in
  verifyCertNames (Some later) "second.pem" "a.com"
    (sort <$> x509_subjectAltName first) "first.pem" false
  = inr ("a.com", sort <$> x509_subjectAltName first).
Proof.
  intros first later.
  apply (proj1 (proj2 (verifyCertNames_same_names first later "a.com"
                         "second.pem" "first.pem" "" None eq_refl))).
  split; [reflexivity|]. constructor. simpl.
  change ["b.com"; "a.com"; "c.com"] with (["b.com"; "a.com"] ++ ["c.com"]).
  change ["c.com"; "b.com"; "a.com"] with (["c.com"] ++ ["b.com"; "a.com"]).
  apply Permutation_app_comm.
Defined.

Lemma same_names_dec x0 x : same_names x0 x ∨ ¬ same_names x0 x.
Proof.
  unfold same_names.
  destruct (decide (x509_commonName x0 = x509_commonName x)) as [Hc|Hc];
    [|right; by intros [? _]].
  destruct (decide (sort <$> x509_subjectAltName x0
                    = sort <$> x509_subjectAltName x)) as [Hs|Hs].
  - left. split; [done|]. by apply sorted_names_eq_iff.
  - right. intros [_ Hp]. by apply Hs, sorted_names_eq_iff.
Qed.

Section LoadingFacts.

Variable loadCertKeyPairFromBufferPEM : string → string → option exn.
Variable loadCertKeyPairFromFiles : CertificateInfo → option exn.
Variable getX509 : CertificateInfo → option X509.

Lemma loadCertKeyPairs_loop_later rest n lastCertPath x0 cn0 cn :
  x509_commonName x0 = Some cn0 →
  loadCertKeyPairs_loop loadCertKeyPairFromBufferPEM loadCertKeyPairFromFiles
    getX509 rest (S n) lastCertPath cn0 (sort <$> x509_subjectAltName x0)
  = inr cn
  ↔ cn = cn0
    ∧ Forall (λ cert,
        loadPair loadCertKeyPairFromBufferPEM loadCertKeyPairFromFiles cert = None
        ∧ ∃ x, getX509 cert = Some x ∧ same_names x0 x) rest.
Proof.
  intros Hcn0. revert n lastCertPath.
  induction rest as [|cert rest IH]; intros n lastCertPath; simpl.
  - split; [intros [= ->]; by split|intros [-> _]; done].
  - rewrite Forall_cons.
    destruct (loadPair _ _ cert) as [ex|] eqn:Hload; [naive_solver|].
    destruct (getX509 cert) as [x|] eqn:Hx.
    + destruct (verifyCertNames_cases x0 x cn0 (certPath cert) lastCertPath
                  "" None Hcn0) as (_ & Hsame & Hdiff).
      destruct (same_names_dec x0 x) as [Hs|Hs].
      * rewrite (Hsame Hs), IH. naive_solver.
      * destruct (Hdiff Hs) as [what ->]. naive_solver.
    + unfold verifyCertNames. naive_solver.
Qed.

(** X13.  [loadCertKeyPairsInSSLContext] returns exactly when every pair of
    the configuration loads and every certificate has the names of the
    first: the same CN and the same SANs up to their order.  It then hands
    the CN of the first certificate to the caller; with no certificate at all
    it returns at once and leaves the caller's name as it was. *)
Theorem loadCertKeyPairs_same_names (certificates : list CertificateInfo)
    (commonName cn : string) :
  loadCertKeyPairsInSSLContext loadCertKeyPairFromBufferPEM
    loadCertKeyPairFromFiles getX509 certificates commonName = inr cn
  ↔ match certificates with
    | [] => cn = commonName
    | first :: rest =>
        loadPair loadCertKeyPairFromBufferPEM loadCertKeyPairFromFiles first
          = None
        ∧ ∃ x0,
            getX509 first = Some x0 ∧ x509_commonName x0 = Some cn
            ∧ Forall (λ cert,
                loadPair loadCertKeyPairFromBufferPEM loadCertKeyPairFromFiles
                  cert = None
                ∧ ∃ x, getX509 cert = Some x ∧ same_names x0 x) rest
    end.
Proof.
  unfold loadCertKeyPairsInSSLContext.
  destruct certificates as [|first rest]; simpl; [naive_solver|].
  destruct (loadPair _ _ first) as [ex|] eqn:Hload; [naive_solver|].
  destruct (getX509 first) as [x0|] eqn:Hx; [|unfold verifyCertNames; naive_solver].
  unfold verifyCertNames at 1.
  destruct (x509_commonName x0) as [cn0|] eqn:Hcn; [|naive_solver].
  rewrite (loadCertKeyPairs_loop_later rest 0 (certPath first) x0 cn0 cn Hcn).
  split.
  - intros [-> Hall]. split; [done|]. by exists x0.
  - intros [_ (x & [= <-] & Hc & Hall)]. split; [congruence|done].
Qed.

End LoadingFacts.

Lemma loadCertKeyPairs_same_names_witness :
  let rsa := mkCertificateInfo "rsa.pem" "rsa.key" "" false in
  let ec := mkCertificateInfo "ec.pem" "ec.key" "" true in
  let getX509 := λ cert : CertificateInfo,
    if isBuffer cert
    then Some (Ex.cert "a.com" (Some ["b.com"; "a.com"]) 794)
    else Some (Ex.cert "a.com" (Some ["a.com"; "b.com"]) 668) in
  loadCertKeyPairsInSSLContext (λ _ _, None) (λ _, None) getX509 [rsa; ec] ""
  = inr "a.com".
Proof.
  intros rsa ec getX509.
  apply (proj2 (loadCertKeyPairs_same_names (λ _ _, None) (λ _, None) getX509
                  [rsa; ec] "" "a.com")).
  split; [reflexivity|].
  exists (Ex.cert "a.com" (Some ["a.com"; "b.com"]) 668).
  split_and!; [reflexivity|reflexivity|].
  constructor; [|constructor]. split; [reflexivity|].
  exists (Ex.cert "a.com" (Some ["b.com"; "a.com"]) 794).
  split; [reflexivity|]. split; [reflexivity|].
  constructor. apply perm_swap.
Defined.

(** ** What a reset installs *)

Lemma insert_ctxs sslCtx defaultFallback s s' :
  insert sslCtx defaultFallback s = (Returned tt, s') →
  ctxs_ s' = if defaultFallback then ctxs_ s else ctxs_ s ++ [sslCtx].
Proof.
  intros Hrun.
  apply insert_run in Hrun
    as [[-> [[e ?]|(_ & -> & _)]]
       |[(e & ? & _)|(x509 & cn & s2 & _ & _ & _ & _ & Hf & _ & ->)]];
    try done.
  assert (Hc : ctxs_ s2 = ctxs_ s).
  { apply (filed_inv (λ t, ctxs_ t = ctxs_ s) _ _ _ _ _ _) in Hf; [done| |done].
    intros name t Ht. unfold fileName.
    destruct defaultFallback, (decide (certCryptoOf x509 ≠ BEST_AVAILABLE));
      by rewrite ?insertIntoDnMap_ctxs, ?insertIntoDefaultKeys_ctxs. }
  unfold finishInsert. destruct defaultFallback; simpl; by rewrite Hc.
Qed.

Section ResetFacts.

Variable FOLLY_OPENSSL_HAS_ALPN : bool.
Variable FOLLY_OPENSSL_HAS_SNI : bool.
Variable setupContext :
  SSLContextConfig → option TLSTicketKeySeeds → exn + ServerSSLContext.

Lemma addOne_returned cfg seeds s d s' d' :
  SslContexts_addSSLContextConfig FOLLY_OPENSSL_HAS_ALPN FOLLY_OPENSSL_HAS_SNI
    setupContext cfg seeds s d = (Returned tt, s', d') →
  ∃ sslCtx,
    setupContext cfg seeds = inr sslCtx
    ∧ ctxSetupByOpensslFeature FOLLY_OPENSSL_HAS_ALPN FOLLY_OPENSSL_HAS_SNI
        sslCtx cfg d = (Returned tt, d')
    ∧ insert sslCtx (isDefault cfg) s = (Returned tt, s').
Proof.
  unfold SslContexts_addSSLContextConfig.
  destruct (setupContext cfg seeds) as [e|sslCtx]; [done|].
  destruct (ctxSetupByOpensslFeature _ _ sslCtx cfg d) as [r1 d1] eqn:H1.
  destruct r1 as [[]|e|]; [|done..].
  destruct (insert sslCtx (isDefault cfg) s) as [r2 s2] eqn:H2.
  destruct r2 as [[]|e|]; [|done..].
  intros [= <- <-]. by exists sslCtx.
Qed.

Lemma ctxSetupByOpensslFeature_returned sslCtx cfg d d' :
  ctxSetupByOpensslFeature FOLLY_OPENSSL_HAS_ALPN FOLLY_OPENSSL_HAS_SNI
    sslCtx cfg d = (Returned tt, d') →
  if FOLLY_OPENSSL_HAS_SNI && negb (isDefault cfg) then d' = d
  else d = None ∧ d' = Some sslCtx.
Proof.
  unfold ctxSetupByOpensslFeature.
  destruct (bool_decide _ && negb FOLLY_OPENSSL_HAS_ALPN); [done|].
  destruct FOLLY_OPENSSL_HAS_SNI, (isDefault cfg), d; simpl;
    intros [= <-]; done.
Qed.

(** The configurations that claim the default slot. *)
Lemma addAll_returned cfgs seeds s d s' d' :
  addAll FOLLY_OPENSSL_HAS_ALPN FOLLY_OPENSSL_HAS_SNI setupContext
    cfgs seeds s d = (Returned tt, s', d') →
  let claims :=
    filter (λ cfg, FOLLY_OPENSSL_HAS_SNI && negb (isDefault cfg) = false) cfgs in
  let built cfg :=
    match setupContext cfg seeds with
    | inr sslCtx => if isDefault cfg then None else Some sslCtx
    | inl _ => None
    end in
  ctxs_ s' = ctxs_ s ++ omap built cfgs
  ∧ (filled s → filled s')
  ∧ match d with
    | Some _ => claims = [] ∧ d' = d
    | None =>
        match claims with
        | [] => d' = None
        | [cfg] => ∃ sslCtx, setupContext cfg seeds = inr sslCtx ∧ d' = Some sslCtx
        | _ => False
        end
    end.
Proof.
  revert s d. induction cfgs as [|cfg cfgs IH]; intros s d; simpl.
  { intros [= <- <-]. split_and!; [by rewrite app_nil_r|done|by destruct d]. }
  destruct (SslContexts_addSSLContextConfig _ _ _ cfg seeds s d)
    as [[r1 s1] d1] eqn:H1.
  destruct r1 as [[]|e|]; [|done..].
  apply addOne_returned in H1 as (sslCtx & Hsetup & Hfeat & Hins).
  apply ctxSetupByOpensslFeature_returned in Hfeat.
  intros (Hc & Hf & Hd)%IH.
  pose proof (insert_ctxs _ _ _ _ Hins) as Hc1.
  split_and!.
  - rewrite Hc, Hc1, Hsetup.
    destruct (isDefault cfg); [done|]. by rewrite <- app_assoc.
  - intros Hs. apply Hf. eapply filled_insert; [done|done|by left].
  - destruct (FOLLY_OPENSSL_HAS_SNI && negb (isDefault cfg)) eqn:Hcl.
    + rewrite filter_cons_False by (by rewrite Hcl). by subst d1.
    + rewrite filter_cons_True by done.
      destruct Hfeat as [-> ->]. destruct Hd as [-> ->]. by exists sslCtx.
Qed.

(** X14.  When a reset returns, the default slot belongs to at most one
    configuration: with SNI to the only configuration marked as default (none
    is marked: the slot is empty; two are marked: the reset has thrown),
    without SNI to the only configuration at all.  The slot then holds the
    context built for that configuration. *)
Theorem reset_default_unique (ctxConfigs : list SSLContextConfig)
    (ticketSeeds : option TLSTicketKeySeeds) (m m' : SSLContextManager) :
  resetSSLContextConfigs FOLLY_OPENSSL_HAS_ALPN FOLLY_OPENSSL_HAS_SNI
    setupContext ctxConfigs ticketSeeds m = (Returned tt, m') →
  match filter (λ cfg, FOLLY_OPENSSL_HAS_SNI && negb (isDefault cfg) = false)
          ctxConfigs with
  | [] => defaultCtx_ m' = None
  | [cfg] =>
      ∃ sslCtx,
        setupContext cfg (resetSeeds ticketSeeds m) = inr sslCtx
        ∧ defaultCtx_ m' = Some sslCtx
  | _ => False
  end.
Proof.
  unfold resetSSLContextConfigs.
  assert (Hseeds :
    Some (match ticketSeeds with
          | Some t => t
          | None => match ticketSeeds with
                    | None => getTicketKeys (contexts_ m)
                    | Some _ => noSeeds
                    end
          end) = resetSeeds ticketSeeds m) by (by destruct ticketSeeds).
  rewrite Hseeds.
  destruct (addAll _ _ _ ctxConfigs _ _ _) as [[r1 s1] d1] eqn:H1.
  destruct r1 as [[]|e|]; [|done..].
  apply addAll_returned in H1 as (_ & _ & Hd).
  intros [= <-]. exact Hd.
Qed.

(** X15.  When a reset returns, the list of contexts of the new index holds
    the contexts built for the configurations that are not marked as default,
    one each, in the order of the configurations; every context that the new
    map leads to is among them; no key is both in the map and a default key;
    and the new index has the strictness of the manager. *)
Theorem reset_builds_index (ctxConfigs : list SSLContextConfig)
    (ticketSeeds : option TLSTicketKeySeeds) (m m' : SSLContextManager) :
  resetSSLContextConfigs FOLLY_OPENSSL_HAS_ALPN FOLLY_OPENSSL_HAS_SNI
    setupContext ctxConfigs ticketSeeds m = (Returned tt, m') →
  ctxs_ (contexts_ m')
  = omap (λ cfg,
            match setupContext cfg (resetSeeds ticketSeeds m) with
            | inr sslCtx => if isDefault cfg then None else Some sslCtx
            | inl _ => None
            end) ctxConfigs
  ∧ map_in_list (contexts_ m')
  ∧ (∀ key, ¬ (in_dnMap key (contexts_ m') ∧ in_defaultCtxKeys key (contexts_ m')))
  ∧ strict_ (contexts_ m') = mgr_strict_ m
  ∧ mgr_strict_ m' = mgr_strict_ m.
Proof.
  unfold resetSSLContextConfigs.
  assert (Hseeds :
    Some (match ticketSeeds with
          | Some t => t
          | None => match ticketSeeds with
                    | None => getTicketKeys (contexts_ m)
                    | Some _ => noSeeds
                    end
          end) = resetSeeds ticketSeeds m) by (by destruct ticketSeeds).
  rewrite Hseeds.
  destruct (addAll _ _ _ ctxConfigs _ _ _) as [[r1 s1] d1] eqn:H1.
  destruct r1 as [[]|e|]; [|done..].
  pose proof (addAll_wf _ _ _ _ _ _ _ _ _ _ (create_wf (mgr_strict_ m)) H1)
    as [[_ Hdisj] Hst].
  apply addAll_returned in H1 as (Hc & Hf & _).
  intros [= <-]. simpl. split_and!; try done.
  - apply filled_map_in_list, Hf. constructor.
  - intros key [Hk Hd]. by eapply Hdisj.
Qed.

(** X16.  While the manager has a default context, another one cannot be
    added: [addSSLContextConfig] for a configuration marked as default (for
    any configuration, without SNI) throws, and the manager, index and
    default context included, is as it was. *)
Theorem add_second_default_fails (ctxConfig : SSLContextConfig)
    (ticketSeeds : option TLSTicketKeySeeds) (m : SSLContextManager) :
  is_Some (defaultCtx_ m) →
  FOLLY_OPENSSL_HAS_SNI && negb (isDefault ctxConfig) = false →
  ∃ e,
    addSSLContextConfig FOLLY_OPENSSL_HAS_ALPN FOLLY_OPENSSL_HAS_SNI
      setupContext ctxConfig ticketSeeds m = (Thrown e, m).
Proof.
  intros [d0 Hd] Hclaim. destruct m as [s d st]. simpl in Hd. subst d.
  unfold addSSLContextConfig, SslContexts_addSSLContextConfig. simpl.
  destruct (setupContext ctxConfig ticketSeeds) as [e|sslCtx]; [by eexists|].
  unfold ctxSetupByOpensslFeature.
  destruct (bool_decide _ && negb FOLLY_OPENSSL_HAS_ALPN); [by eexists|].
  destruct FOLLY_OPENSSL_HAS_SNI, (isDefault ctxConfig); try done; by eexists.
Qed.

End ResetFacts.

Lemma reset_default_unique_witness :
  let setup := λ (cfg : SSLContextConfig) (_ : option TLSTicketKeySeeds),
                 (inr (if isDefault cfg then Ex.ctxB else Ex.ctxSan)
                  : exn + ServerSSLContext) in
  let m := {| contexts_ := create true; defaultCtx_ := None;
              mgr_strict_ := true |} in
  let m' := (resetSSLContextConfigs true true setup
               [mkConfig 1 false []; mkConfig 2 true []] None m).2 in
  ∃ sslCtx,
    setup (mkConfig 2 true []) (resetSeeds None m) = inr sslCtx
    ∧ defaultCtx_ m' = Some sslCtx.
Proof.
  intros setup m m'.
  refine (reset_default_unique true true setup
            [mkConfig 1 false []; mkConfig 2 true []] None m m' _).
  vm_compute. reflexivity.
Defined.

Lemma reset_builds_index_witness :
  let setup := λ (cfg : SSLContextConfig) (_ : option TLSTicketKeySeeds),
                 (inr (if isDefault cfg then Ex.ctxB else Ex.ctxSan)
                  : exn + ServerSSLContext) in
  let m := {| contexts_ := create true; defaultCtx_ := None;
              mgr_strict_ := true |} in
  let m' := (resetSSLContextConfigs true true setup
               [mkConfig 1 false []; mkConfig 2 true []] None m).2 in
  ctxs_ (contexts_ m') = [Ex.ctxSan].
Proof.
  intros setup m m'.
  refine (proj1 (reset_builds_index true true setup
                   [mkConfig 1 false []; mkConfig 2 true []] None m m' _)).
  vm_compute. reflexivity.
Defined.

Lemma add_second_default_fails_witness :
  let setup := λ (cfg : SSLContextConfig) (_ : option TLSTicketKeySeeds),
                 (inr Ex.ctxB : exn + ServerSSLContext) in
  let m := {| contexts_ := create true; defaultCtx_ := Some Ex.ctxA;
              mgr_strict_ := true |} in
  ∃ e, addSSLContextConfig true true setup (mkConfig 2 true []) None m
       = (Thrown e, m).
Proof.
  intros setup m.
  apply (add_second_default_fails true true setup (mkConfig 2 true []) None m).
  - by eexists.
  - reflexivity.
Defined.

(** ** The accessors of the manager and the callback *)

(** X17.  The accessor [SSLContextManager::getSSLCtx] lets the default keys
    go first: it answers with the default context for a key that a default
    key covers (exactly or through the suffix), and with the lookup in the
    map otherwise.  The callback lets the map go first.  So for a requested
    key that both cover, the handshake is switched to the context of the map
    while the accessor answers with the default context. *)
Theorem accessor_and_callback (m : SSLContextManager) (sn : option string)
    (clientInfo : option folly_ssl.ClientHelloInfo) (stats : bool) :
  let s := contexts_ m in
  let key := mkKey (requestedName sn s) (Sni.requestedCertCrypto clientInfo) in
  (isDefaultCtx key s = false →
     Manager.getSSLCtx key m = getSSLCtx key s
     ∧ (is_Some (getSSLCtx key s) →
        Sni.cb_switchedTo (Sni.serverNameCallback sn clientInfo stats s)
        = Manager.getSSLCtx key m))
  ∧ (isDefaultCtx key s = true →
     Manager.getSSLCtx key m = defaultCtx_ m
     ∧ Sni.cb_result (Sni.serverNameCallback sn clientInfo stats s)
       = SERVER_NAME_FOUND
     ∧ Sni.cb_switchedTo (Sni.serverNameCallback sn clientInfo stats s)
       = getSSLCtx key s).
Proof.
  intros s key. rewrite serverNameCallback_unfold.
  fold s key. unfold Manager.getSSLCtx, answers. fold s.
  split; intros Hd; rewrite Hd.
  - split; [done|]. intros Hs.
    by rewrite (bool_decide_eq_true_2 _ Hs).
  - by rewrite orb_true_r.
Qed.

Lemma accessor_and_callback_witness :
  let dflt := mkCtx 9 (Some (Ex.cert "a.b.c" None Ex.NID_sha256WithRSAEncryption))
                None in
  let wild := mkCtx 8 (Some (Ex.cert "*.b.c" None Ex.NID_sha256WithRSAEncryption))
                None in
  let s := (insert wild false (insert dflt true (create true)).2).2 in
  let m := {| contexts_ := s; defaultCtx_ := Some dflt; mgr_strict_ := true |} in
  Manager.getSSLCtx (mkKey (mkDNString "a.b.c") BEST_AVAILABLE) m = Some dflt
  ∧ Sni.cb_switchedTo (Sni.serverNameCallback (Some "a.b.c") None false s)
    = Some wild.
Proof.
  intros dflt wild s m.
  destruct (proj2 (accessor_and_callback m (Some "a.b.c") None false))
    as (H1 & _ & H3).
  - vm_compute. reflexivity.
  - split.
    + exact H1.
    + etransitivity; [exact H3|]. vm_compute. reflexivity.
Defined.

(** ** Swapping two indexes *)

(** [SslContexts::swap] exchanges the list of contexts, the default
    keys and the map of two indexes, so that each answers every lookup and
    hands out the ticket seeds as the other did; the default domain name and
    the strict flag of each stay where they were.  Swapping twice gives both
    indexes back. *)
Lemma swap_exchanges (s other : SslContexts) :
  let s' := (swap s other).1 in
  let other' := (swap s other).2 in
  (∀ key, getSSLCtx key s' = getSSLCtx key other
          ∧ isDefaultCtx key s' = isDefaultCtx key other
          ∧ getSSLCtx key other' = getSSLCtx key s
          ∧ isDefaultCtx key other' = isDefaultCtx key s)
  ∧ getTicketKeys s' = getTicketKeys other
  ∧ getTicketKeys other' = getTicketKeys s
  ∧ defaultCtxDomainName_ s' = defaultCtxDomainName_ s
  ∧ defaultCtxDomainName_ other' = defaultCtxDomainName_ other
  ∧ strict_ s' = strict_ s
  ∧ strict_ other' = strict_ other
  ∧ swap s' other' = (s, other).
Proof.
  split_and!; try done.
  by destruct s, other.
Qed.
